(** * Performance-Monitor-API: the recording and retention engine of [app.py]

    A shallow embedding of [DatabaseManager] and [PerformanceMonitor]
    (src/app.py) and of the two callers that matter for retention and for the
    thresholds ([manage_thresholds], [background_monitoring]).

    Conventions of the embedding.
    - Python floats are rationals ([Q]); rounding, infinities and NaN are not
      modelled.  Python ints are [Z]; an int bound to an SQL parameter must
      fit the 64 bits of an SQLite INTEGER.
    - The thresholds hold decoded JSON values ([json_value]), since the POST
      route stores what it is sent; comparing a float with a value that is no
      number raises TypeError.
    - Python strings are [string]; [str.upper] is a function the model is
      given, fixed on ASCII text only.
    - A Python exception is an [exn] carrying [type(e).__name__] and [str(e)];
      only instances of [Exception] are modelled.  A computation that may raise
      returns a [result].
    - Everything the code reads from its environment (psutil, [time.time()],
      [datetime.now()], SQLite's CURRENT_TIMESTAMP, [traceback]) is an explicit
      argument.
    - A table is the list of its rows in rowid order; SQLite statements are
      assumed to succeed once a connection is there.  [logger] output is not
      modelled. *)

From Stdlib Require Import ZArith QArith Qminmax Lia Ascii String.
From stdpp Require Import base gmap strings list sorting.

Local Open Scope Z_scope.

(** ** Strings *)

(** [c.upper()] on an ASCII character. *)
Definition upper_ascii (c : ascii) : ascii :=
  let n := nat_of_ascii c in
  if ((97 <=? n)%nat && (n <=? 122)%nat)%bool then ascii_of_nat (n - 32) else c.

(** Upper case on ASCII letters, every other character left alone. *)
Fixpoint ascii_upper (s : string) : string :=
  match s with
  | EmptyString => EmptyString
  | String c s' => String (upper_ascii c) (ascii_upper s')
  end.

(** All characters are below 128. *)
Fixpoint is_ascii (s : string) : bool :=
  match s with
  | EmptyString => true
  | String c s' => (nat_of_ascii c <? 128)%nat && is_ascii s'
  end.

(** [s.upper()] follows Unicode's case mapping (['warnıng'.upper()] is
    ['WARNING'], ['ß'.upper()] is ['SS']).  The mapping is not written out:
    it is a function the code is given, known to be [ascii_upper] on ASCII
    text. *)
Class CaseMapping := {
  str_upper : string -> string;
  str_upper_ascii : forall s, is_ascii s = true -> str_upper s = ascii_upper s
}.

(** The mapping that changes ASCII letters only; it is the one the concrete
    runs below use, all of them on ASCII text. *)
#[global] Instance ascii_case : CaseMapping :=
  {| str_upper := ascii_upper; str_upper_ascii := fun s _ => eq_refl |}.

(** Truthiness of a Python string ([if s:]). *)
Definition str_truthy (s : string) : bool :=
  match s with EmptyString => false | String _ _ => true end.

(** [sub in s]. *)
Fixpoint str_prefix (p s : string) : bool :=
  match p, s with
  | EmptyString, _ => true
  | String a p', String b s' => if Ascii.eqb a b then str_prefix p' s' else false
  | String _ _, EmptyString => false
  end.

Fixpoint str_contains (sub s : string) : bool :=
  str_prefix sub s ||
  match s with
  | EmptyString => false
  | String _ s' => str_contains sub s'
  end.

(** ** Floats as rationals *)

(** [a < b] on floats. *)
Definition Qlt_bool (a b : Q) : bool := negb (Qle_bool b a).

(** [max(a, b)]: Python keeps the first argument unless the second is
    strictly greater. *)
Definition py_max (a b : Q) : Q := if Qlt_bool a b then b else a.

(** [min(a, b)]: Python keeps the first argument unless the second is
    strictly smaller. *)
Definition py_min (a b : Q) : Q := if Qlt_bool b a then b else a.

(** ** Exceptions *)

(** An exception instance: [type(e).__name__] and [str(e)]. *)
Record exn := Exn { exn_type : string; exn_str : string }.

Inductive result (A : Type) : Type :=
| Ok (a : A)
| Raise (e : exn).
Arguments Ok {A} a.
Arguments Raise {A} e.

Definition result_bind {A B} (r : result A) (k : A -> result B) : result B :=
  match r with
  | Ok a => k a
  | Raise e => Raise e
  end.

(** A view of the value a computation returns, for statements. *)
Definition result_map {A B} (f : A -> B) (r : result A) : result B :=
  match r with
  | Ok a => Ok (f a)
  | Raise e => Raise e
  end.

(** [try: body  except Exception as e: handler(e)]. *)
Definition try_except {A} (body : result A) (handler : exn -> result A) : result A :=
  match body with
  | Ok a => Ok a
  | Raise e => handler e
  end.

Notation "'do' x <- r ; k" := (result_bind r (fun x => k))
  (at level 10, x name, r at level 100, k at level 200).

(** ** SystemSampler: [PerformanceMonitor._get_system_metrics] *)

(** What the four psutil calls answer at one sampling instant: each one either
    returns its reading or raises. *)
Record psutil := Psutil {
  cpu_percent : result Q;            (* psutil.cpu_percent(interval=0.1) *)
  virtual_memory : result Q;         (* psutil.virtual_memory().percent *)
  disk_usage : result Q;             (* psutil.disk_usage('/').percent *)
  net_io_counters : result (Z * Z)   (* (bytes_sent, bytes_recv) *)
}.

(** The dict [_get_system_metrics] returns: float entries, and the nested
    ['network_io'] dict of int entries when present. *)
Record metrics_dict := MetricsDict {
  md_float : gmap string Q;
  md_network_io : option (gmap string Z)
}.

(** [{}] *)
Definition empty_dict : metrics_dict :=
  {| md_float := ∅; md_network_io := None |}.

(** [d.get(k, 0)] on a float entry. *)
Definition dict_get (d : metrics_dict) (k : string) : Q :=
  default 0%Q (md_float d !! k).

(** The type of [d.get(k, 0)]: the entry is a float, the default an int. *)
Definition dict_get_type (d : metrics_dict) (k : string) : string :=
  match md_float d !! k with Some _ => "float" | None => "int" end.

(** [d[k]] on a float entry: raises [KeyError(k)] when absent. *)
Definition dict_item (d : metrics_dict) (k : string) : result Q :=
  match md_float d !! k with
  | Some v => Ok v
  | None => Raise (Exn "KeyError" ("'" +:+ k +:+ "'"))
  end.

(** [d.get('network_io', {}).get(k, 0)]. *)
Definition dict_get_network (d : metrics_dict) (k : string) : Z :=
  default 0 (default ∅ (md_network_io d) !! k).

(** The body of the [try] block. *)
Definition psutil_read (h : psutil) : result metrics_dict :=
  do cpu <- cpu_percent h;
  do memory <- virtual_memory h;
  do disk <- disk_usage h;
  do network <- net_io_counters h;
  Ok {| md_float := <["cpu_usage" := cpu]>
                     (<["memory_usage" := memory]>
                       (<["disk_usage" := disk]> ∅));
        md_network_io := Some (<["bytes_sent" := fst network]>
                                (<["bytes_recv" := snd network]> ∅)) |}.

Definition _get_system_metrics (h : psutil) : result metrics_dict :=
  try_except (psutil_read h) (fun _ => Ok empty_dict).

(** The snapshot as a total function, for statements. *)
Definition snapshot (h : psutil) : metrics_dict :=
  match psutil_read h with
  | Ok d => d
  | Raise _ => empty_dict
  end.

(** ** DiagnosticCatalog *)

Definition explanations : gmap string string :=
  list_to_map
    [ ("HIGH_CPU_USAGE", "CPU usage has exceeded the threshold, indicating intensive processing that may slow down the system.");
      ("HIGH_MEMORY_USAGE", "Memory usage is critically high, which can lead to system instability and slower performance.");
      ("DISK_SPACE_LOW", "Available disk space is running low, which can cause write operations to fail.");
      ("SLOW_RESPONSE", "Function execution time exceeded acceptable limits, indicating performance bottleneck.");
      ("NETWORK_ERROR", "Network connectivity issue detected, which may affect external API calls or data transfers.");
      ("DATABASE_ERROR", "Database operation failed, potentially due to connection issues or query problems.");
      ("AUTHENTICATION_ERROR", "Authentication failed, indicating potential security breach or expired credentials.");
      ("RATE_LIMIT_EXCEEDED", "Too many requests received in a short time period.") ].

Definition _generate_error_explanation (error_type message : string) : string :=
  default ("An error of type '" +:+ error_type +:+ "' occurred: " +:+ message)
          (explanations !! error_type).

Definition fixes : gmap string string :=
  list_to_map
    [ ("HIGH_CPU_USAGE", "Consider optimizing algorithms, reducing computational complexity, or scaling horizontally.");
      ("HIGH_MEMORY_USAGE", "Review memory allocation, implement garbage collection, or increase available RAM.");
      ("DISK_SPACE_LOW", "Clean up temporary files, archive old logs, or expand storage capacity.");
      ("SLOW_RESPONSE", "Optimize database queries, implement caching, or consider asynchronous processing.");
      ("NETWORK_ERROR", "Check network connectivity, implement retry logic, or use circuit breaker pattern.");
      ("AUTHENTICATION_ERROR", "Verify API key is valid and has not expired.");
      ("RATE_LIMIT_EXCEEDED", "Reduce request frequency or upgrade to a higher rate limit tier.") ].

Definition _generate_suggested_fix (error_type message : string) : string :=
  default ("Review the error details and implement appropriate error handling for '"
             +:+ error_type +:+ "'.")
          (fixes !! error_type).

(** The eight categories the catalog is documented to cover. *)
Definition catalog_categories : list string :=
  [ "HIGH_CPU_USAGE"; "HIGH_MEMORY_USAGE"; "DISK_SPACE_LOW"; "SLOW_RESPONSE";
    "NETWORK_ERROR"; "DATABASE_ERROR"; "AUTHENTICATION_ERROR"; "RATE_LIMIT_EXCEEDED" ].

(** ** Derived impact: [PerformanceMonitor._calculate_performance_impact] *)

Record impact := Impact {
  cpu_impact : Q;
  memory_impact : Q;
  overall_severity : Q
}.

Definition _calculate_performance_impact (h : psutil) : result impact :=
  do metrics <- _get_system_metrics h;
  Ok {| cpu_impact := py_max 0 (dict_get metrics "cpu_usage" - 20);
        memory_impact := py_max 0 (dict_get metrics "memory_usage" - 30);
        overall_severity :=
          py_min 10 ((dict_get metrics "cpu_usage" + dict_get metrics "memory_usage") / 20) |}%Q.

(** ** ThresholdSet: [monitor.thresholds] and [dict.update] *)

(** A value of the thresholds dict.  [__init__] puts numbers there, but
    [POST /api/thresholds] writes whatever values the JSON object of the
    request holds, so a limit can be any JSON value. *)
#[local] Unset Elimination Schemes.
Inductive json_value :=
| JNull
| JBool (b : bool)
| JNumber (x : Q)
| JString (s : string)
| JArray (items : list json_value)
| JObject (members : list (string * json_value)).
#[local] Set Elimination Schemes.

(** [type(v).__name__] of a decoded JSON value other than a number. *)
Definition json_type_name (v : json_value) : string :=
  match v with
  | JNull => "NoneType"
  | JBool _ => "bool"
  | JNumber _ => "float"
  | JString _ => "str"
  | JArray _ => "list"
  | JObject _ => "dict"
  end.

(** The number a value stands for in a comparison with a float; [True] and
    [False] are the ints 1 and 0. *)
Definition json_number (v : json_value) : option Q :=
  match v with
  | JNumber x => Some x
  | JBool b => Some (if b then 1%Q else 0%Q)
  | _ => None
  end.

(** [x > limit] with [x] a float or an int (of type name [x_type]): a limit
    that is no number raises TypeError. *)
Definition py_gt (x_type : string) (x : Q) (limit : json_value) : result bool :=
  match json_number limit with
  | Some l => Ok (Qlt_bool l x)
  | None =>
      Raise (Exn "TypeError"
               ("'>' not supported between instances of '" +:+ x_type +:+ "' and '"
                  +:+ json_type_name limit +:+ "'"))
  end.

(** [PerformanceMonitor.__init__]. *)
Definition default_thresholds : gmap string json_value :=
  <["cpu" := JNumber 80]> (<["memory" := JNumber 80]>
    (<["disk" := JNumber 90]> (<["response_time" := JNumber 5]> ∅))).

(** [d.update(other)]: every key of [other] is written into [d]. *)
Definition dict_update {V} (d other : gmap string V) : gmap string V := other ∪ d.

(** [d[k]] on the thresholds. *)
Definition thresholds_item (d : gmap string json_value) (k : string) : result json_value :=
  match d !! k with
  | Some v => Ok v
  | None => Raise (Exn "KeyError" ("'" +:+ k +:+ "'"))
  end.


(** ** Retention Store: the dataclasses and the tables of [DatabaseManager] *)

Record PerformanceMetrics := {
  pm_id : option Z;
  pm_timestamp : string;
  pm_cpu_usage : Q;
  pm_memory_usage : Q;
  pm_disk_usage : Q;
  pm_network_sent : Z;
  pm_network_recv : Z;
  pm_execution_time : Q;
  pm_function_name : string;
  pm_status : string;
  pm_api_key : option string
}.

Record ErrorLog := {
  el_id : option Z;
  el_timestamp : string;
  el_level : string;
  el_error_type : string;
  el_message : string;
  el_traceback_info : string;
  el_function_name : string;
  el_cpu_impact : Q;
  el_memory_impact : Q;
  el_severity : Q;
  el_explanation : string;
  el_suggested_fix : string;
  el_api_key : option string
}.

(** A row of [metrics]: the AUTOINCREMENT [id], the inserted columns, and
    [created_at], which SQLite fills with CURRENT_TIMESTAMP (whole seconds of
    the wall clock, here seconds since the epoch). *)
Record metrics_row := {
  mr_id : Z;
  mr_metric : PerformanceMetrics;
  mr_created_at : Z
}.

(** A row of [errors]. *)
Record errors_row := {
  er_id : Z;
  er_error : ErrorLog;
  er_created_at : Z
}.

(** The two tables, rows in rowid order, each with the largest id it ever
    handed out (sqlite_sequence). *)
Record database := {
  metrics : list metrics_row;
  metrics_seq : Z;
  errors : list errors_row;
  errors_seq : Z
}.

(** [_initialize_database] on a fresh file. *)
Definition empty_database : database :=
  {| metrics := []; metrics_seq := 0; errors := []; errors_seq := 0 |}.

(** [save_metric]; [now] is CURRENT_TIMESTAMP at the INSERT.  The [id] of the
    dataclass is not among the inserted columns. *)
Definition save_metric (now : Z) (metric : PerformanceMetrics) (d : database) : database :=
  {| metrics := metrics d ++
                [ {| mr_id := metrics_seq d + 1; mr_metric := metric; mr_created_at := now |} ];
     metrics_seq := metrics_seq d + 1;
     errors := errors d;
     errors_seq := errors_seq d |}.

(** [save_error]. *)
Definition save_error (now : Z) (error : ErrorLog) (d : database) : database :=
  {| metrics := metrics d;
     metrics_seq := metrics_seq d;
     errors := errors d ++
               [ {| er_id := errors_seq d + 1; er_error := error; er_created_at := now |} ];
     errors_seq := errors_seq d + 1 |}.

(** *** What SQL promises about ORDER BY and LIMIT *)

(** [ORDER BY key DESC]: some rearrangement of the rows with keys
    non-increasing.  SQL leaves the order of rows with equal keys to the
    engine. *)
Class SqlEngine := {
  order_by_desc : forall {A : Type}, (A -> Z) -> list A -> list A;
  order_by_desc_perm : forall (A : Type) (key : A -> Z) (l : list A),
    order_by_desc key l ≡ₚ l;
  order_by_desc_sorted : forall (A : Type) (key : A -> Z) (l : list A),
    Sorted (fun x y => key y <= key x) (order_by_desc key l)
}.

(** [LIMIT n]: SQLite puts no bound on the number of rows when [n] is
    negative. *)
Definition sql_limit {A} (n : Z) (l : list A) : list A :=
  if n <? 0 then l else take (Z.to_nat n) l.

(** A Python int bound to a [?] of a statement becomes an SQLite INTEGER, which
    has 64 bits; [sqlite3] refuses an int outside that range. *)
Definition sqlite_int64 (n : Z) : bool := (- 2 ^ 63 <=? n) && (n <? 2 ^ 63).

Definition sqlite_bind_int (n : Z) : result Z :=
  if sqlite_int64 n then Ok n
  else Raise (Exn "OverflowError" "Python int too large to convert to SQLite INTEGER").

(** [x NOT IN (ids)]. *)
Definition sql_not_in (x : Z) (ids : list Z) : bool :=
  negb (existsb (Z.eqb x) ids).

(** *** A concrete engine: rows with equal keys stay in scan order *)

Fixpoint insert_desc {A} (key : A -> Z) (x : A) (l : list A) : list A :=
  match l with
  | [] => [x]
  | y :: l' => if key y <=? key x then x :: y :: l' else y :: insert_desc key x l'
  end.

Fixpoint stable_sort_desc {A} (key : A -> Z) (l : list A) : list A :=
  match l with
  | [] => []
  | x :: l' => insert_desc key x (stable_sort_desc key l')
  end.

Section Store.
Context `{E : SqlEngine} `{U : CaseMapping}.

(** The WHERE clause [get_errors] builds: [level = ?] with [level.upper()]
    when [level] is truthy, [api_key = ?] when [api_key] is truthy. *)
Definition errors_where (level api_key : option string) (r : errors_row) : bool :=
  (match level with
   | Some lv => if str_truthy lv then String.eqb (el_level (er_error r)) (str_upper lv) else true
   | None => true
   end) &&
  (match api_key with
   | Some k =>
       if str_truthy k
       then match el_api_key (er_error r) with
            | Some k' => String.eqb k' k
            | None => false
            end
       else true
   | None => true
   end).

(** The SELECT of [get_errors] once its parameters are bound. *)
Definition select_errors (d : database) (limit : Z) (level api_key : option string)
  : list errors_row :=
  sql_limit limit
    (order_by_desc er_created_at (List.filter (errors_where level api_key) (errors d))).

(** [get_errors(limit, level, api_key)]. *)
Definition get_errors (d : database) (limit : Z) (level api_key : option string)
  : result (list errors_row) :=
  do n <- sqlite_bind_int limit;
  Ok (select_errors d n level api_key).

(** The WHERE clause of [get_metrics]. *)
Definition metrics_where (api_key : option string) (r : metrics_row) : bool :=
  match api_key with
  | Some k =>
      if str_truthy k
      then match pm_api_key (mr_metric r) with
           | Some k' => String.eqb k' k
           | None => false
           end
      else true
  | None => true
  end.

(** The SELECT of [get_metrics] once its parameters are bound. *)
Definition select_metrics (d : database) (limit : Z) (api_key : option string)
  : list metrics_row :=
  sql_limit limit
    (order_by_desc mr_created_at (List.filter (metrics_where api_key) (metrics d))).

(** [get_metrics(limit, api_key)]. *)
Definition get_metrics (d : database) (limit : Z) (api_key : option string)
  : result (list metrics_row) :=
  do n <- sqlite_bind_int limit;
  Ok (select_metrics d n api_key).

(** The ids the subquery of [_cleanup_old_metrics] selects. *)
Definition cleanup_keep_ids (MAX_HISTORY_RECORDS : Z) (d : database) : list Z :=
  mr_id <$> sql_limit MAX_HISTORY_RECORDS (order_by_desc mr_created_at (metrics d)).

(** [_cleanup_old_metrics]: DELETE the rows whose id is NOT IN the subquery. *)
Definition _cleanup_old_metrics (MAX_HISTORY_RECORDS : Z) (d : database) : database :=
  let keep := cleanup_keep_ids MAX_HISTORY_RECORDS d in
  {| metrics := List.filter (fun r => negb (sql_not_in (mr_id r) keep)) (metrics d);
     metrics_seq := metrics_seq d;
     errors := errors d;
     errors_seq := errors_seq d |}.

End Store.

(** The primary keys of [metrics] are distinct and never above the sequence. *)
Definition metrics_wf (d : database) : Prop :=
  NoDup (mr_id <$> metrics d) /\ Forall (fun r => mr_id r <= metrics_seq d) (metrics d).

(** ** Instrumentation Engine: [PerformanceMonitor] *)

(** The monitor's mutable state: the store behind [self.db] and the shared
    [self.thresholds] dict. *)
Record state := {
  db : database;
  thresholds : gmap string json_value
}.

(** [PerformanceMonitor()] on a fresh database. *)
Definition initial_state : state :=
  {| db := empty_database; thresholds := default_thresholds |}.

(** Code that runs against the monitor and may raise; what it did to the state
    before raising stays done. *)
Definition M (A : Type) : Type := state -> result A * state.

Definition ret {A} (a : A) : M A := fun st => (Ok a, st).

Definition bind {A B} (m : M A) (k : A -> M B) : M B :=
  fun st =>
    match m st with
    | (Ok a, st') => k a st'
    | (Raise e, st') => (Raise e, st')
    end.

(** A computation that does not touch the state. *)
Definition lift {A} (r : result A) : M A := fun st => (r, st).

Definition get_thresholds : M (gmap string json_value) := fun st => (Ok (thresholds st), st).

Definition modify_db (f : database -> database) : M unit :=
  fun st => (Ok tt, {| db := f (db st); thresholds := thresholds st |}).

Definition modify_thresholds (f : gmap string json_value -> gmap string json_value) : M unit :=
  fun st => (Ok tt, {| db := db st; thresholds := f (thresholds st) |}).

Notation "'run' x <- m ; k" := (bind m (fun x => k))
  (at level 10, x name, m at level 100, k at level 200).
Notation "'run_' m ; k" := (bind m (fun _ => k))
  (at level 10, m at level 100, k at level 200).

(** [if c: m]. *)
Definition when (c : bool) (m : M unit) : M unit := if c then m else ret tt.

(** [try: body  except Exception as e: handler(e); raise  finally: final].
    An exception raised by [final] replaces the one in flight. *)
Definition try_except_reraise_finally {A}
    (body : M A) (handler : exn -> M unit) (final : M unit) : M A :=
  fun st =>
    match body st with
    | (Ok a, st1) =>
        match final st1 with
        | (Ok _, st2) => (Ok a, st2)
        | (Raise e', st2) => (Raise e', st2)
        end
    | (Raise e, st1) =>
        let '(h, st2) := handler e st1 in
        let in_flight := match h with Ok _ => e | Raise e2 => e2 end in
        match final st2 with
        | (Ok _, st3) => (Raise in_flight, st3)
        | (Raise e', st3) => (Raise e', st3)
        end
    end.

(** [get_connection]: the connection is kept on Flask's [g], which exists
    inside an application context only; touching [g] outside of one raises
    RuntimeError (here with the first line of its message). *)
Definition get_connection (app_context : bool) : result unit :=
  if app_context then Ok tt
  else Raise (Exn "RuntimeError" "Working outside of application context.").

(** What one call of [log_error] reads from outside: the fresh psutil sample
    of [_calculate_performance_impact], [datetime.now().isoformat()], the
    traceback text (or "No traceback available"), and CURRENT_TIMESTAMP at the
    INSERT. *)
Record log_env := {
  le_psutil : psutil;
  le_now : string;
  le_traceback : string;
  le_created_at : Z
}.

(** [log_error(error_type, message, function_name, level, api_key)], called
    inside an application context or not. *)
Definition log_error (app_context : bool) (env : log_env) (error_type message function_name level : string)
    (api_key : option string) : M unit :=
  let explanation := _generate_error_explanation error_type message in
  let suggested_fix := _generate_suggested_fix error_type message in
  run performance_impact <- lift (_calculate_performance_impact (le_psutil env));
  let error_log :=
    {| el_id := None;
       el_timestamp := le_now env;
       el_level := level;
       el_error_type := error_type;
       el_message := message;
       el_traceback_info := le_traceback env;
       el_function_name := function_name;
       el_cpu_impact := cpu_impact performance_impact;
       el_memory_impact := memory_impact performance_impact;
       el_severity := overall_severity performance_impact;
       el_explanation := explanation;
       el_suggested_fix := suggested_fix;
       el_api_key := api_key |} in
  run_ lift (get_connection app_context);
  modify_db (save_error (le_created_at env) error_log).

(** What one use of [monitor_function] reads from outside: the two
    [time.time()] readings, the two psutil samples, the environment of each
    [log_error] it may call, and the timestamps of the metric row. *)
Record monitor_env := {
  time_start : Q;
  time_end : Q;
  psutil_start : psutil;
  psutil_end : psutil;
  env_exception : log_env;
  env_cpu : log_env;
  env_slow : log_env;
  metric_now : string;
  metric_created_at : Z
}.

Section Monitor.
Context `{U : CaseMapping}.
(** [f"{x:.2f}"]; the digits it prints are not needed below. *)
Variable format_2f : Q -> string.

(** The [finally] block of [_monitor]. *)
Definition monitor_finally (app_context : bool) (function_name : string) (api_key : option string)
    (env : monitor_env) : M unit :=
  let execution_time := (time_end env - time_start env)%Q in
  run end_metrics <- lift (_get_system_metrics (psutil_end env));
  run ths <- get_thresholds;
  run cpu_limit <- lift (thresholds_item ths "cpu");
  run cpu_above <- lift (py_gt (dict_get_type end_metrics "cpu_usage")
                           (dict_get end_metrics "cpu_usage") cpu_limit);
  run_ when cpu_above
        (run cpu <- lift (dict_item end_metrics "cpu_usage");
         log_error app_context (env_cpu env) "HIGH_CPU_USAGE"
           ("CPU usage: " +:+ format_2f cpu +:+ "% exceeds threshold")
           function_name "WARNING" api_key);
  run ths' <- get_thresholds;
  run response_limit <- lift (thresholds_item ths' "response_time");
  run slow <- lift (py_gt "float" execution_time response_limit);
  run_ when slow
        (log_error app_context (env_slow env) "SLOW_RESPONSE"
           ("Execution time: " +:+ format_2f execution_time +:+ "s exceeds threshold")
           function_name "WARNING" api_key);
  let metric :=
    {| pm_id := None;
       pm_timestamp := metric_now env;
       pm_cpu_usage := dict_get end_metrics "cpu_usage";
       pm_memory_usage := dict_get end_metrics "memory_usage";
       pm_disk_usage := dict_get end_metrics "disk_usage";
       pm_network_sent := dict_get_network end_metrics "bytes_sent";
       pm_network_recv := dict_get_network end_metrics "bytes_recv";
       pm_execution_time := execution_time;
       pm_function_name := function_name;
       pm_status := "completed";
       pm_api_key := api_key |} in
  run_ lift (get_connection app_context);
  modify_db (save_metric (metric_created_at env) metric).

(** [with monitor.monitor_function(function_name, api_key): body]. *)
Definition monitor_function {T} (app_context : bool) (function_name : string)
    (api_key : option string) (env : monitor_env) (body : M T) : M T :=
  run start_metrics <- lift (_get_system_metrics (psutil_start env));
  try_except_reraise_finally
    body
    (fun e => log_error app_context (env_exception env) (str_upper (exn_type e)) (exn_str e)
                function_name "ERROR" api_key)
    (monitor_finally app_context function_name api_key env).

(** The POST branch of [manage_thresholds] with a JSON object as body: the
    statements inside the [with] block. *)
Definition manage_thresholds_post (new_thresholds : gmap string json_value)
  : M (gmap string json_value) :=
  run_ modify_thresholds (fun ths => dict_update ths new_thresholds);
  get_thresholds.

(** The route [POST /api/thresholds]; a route runs inside the application
    context of its request. *)
Definition manage_thresholds (api_key : option string) (env : monitor_env)
    (new_thresholds : gmap string json_value) : M (gmap string json_value) :=
  monitor_function true "manage_thresholds" api_key env
    (manage_thresholds_post new_thresholds).

(** One instrumented request: who calls, what the environment answers, and the
    wrapped body. *)
Record call := {
  call_name : string;
  call_key : option string;
  call_env : monitor_env;
  call_body : M unit
}.

Definition run_call (c : call) (st : state) : result unit * state :=
  monitor_function true (call_name c) (call_key c) (call_env c) (call_body c) st.

(** Requests served one after the other; an exception ends its request only. *)
Fixpoint run_calls (cs : list call) (st : state) : state :=
  match cs with
  | [] => st
  | c :: cs' => run_calls cs' (snd (run_call c st))
  end.

End Monitor.

(** ** Background Sampler Loop: one turn of [background_monitoring] *)

(** [try: body  except Exception as e: handler(e)]. *)
Definition try_except_M {A} (body : M A) (handler : exn -> M A) : M A :=
  fun st =>
    match body st with
    | (Ok a, st') => (Ok a, st')
    | (Raise e, st') => handler e st'
    end.

(** What one turn of the loop reads from outside. *)
Record background_env := {
  bg_psutil : psutil;
  bg_env_cpu : log_env;
  bg_env_memory : log_env;
  bg_env_failure : log_env
}.

Section Background.
Context `{E : SqlEngine} `{U : CaseMapping}.
Variable format_2f : Q -> string.
Variable MAX_HISTORY_RECORDS : Z.

(** The [try] block of the loop body, without the [time.sleep].  The thread
    has no application context of its own; only the cleanup runs inside
    [with app.app_context()]. *)
Definition background_try (env : background_env) : M unit :=
  run metrics <- lift (_get_system_metrics (bg_psutil env));
  run ths <- get_thresholds;
  run cpu_limit <- lift (thresholds_item ths "cpu");
  run cpu_above <- lift (py_gt (dict_get_type metrics "cpu_usage")
                           (dict_get metrics "cpu_usage") cpu_limit);
  run_ when cpu_above
        (run cpu <- lift (dict_item metrics "cpu_usage");
         log_error false (bg_env_cpu env) "HIGH_CPU_USAGE"
           ("System CPU: " +:+ format_2f cpu +:+ "%")
           "background_monitor" "WARNING" None);
  run ths' <- get_thresholds;
  run memory_limit <- lift (thresholds_item ths' "memory");
  run memory_above <- lift (py_gt (dict_get_type metrics "memory_usage")
                              (dict_get metrics "memory_usage") memory_limit);
  run_ when memory_above
        (run memory <- lift (dict_item metrics "memory_usage");
         log_error false (bg_env_memory env) "HIGH_MEMORY_USAGE"
           ("System Memory: " +:+ format_2f memory +:+ "%")
           "background_monitor" "WARNING" None);
  run_ lift (get_connection true);
  modify_db (_cleanup_old_metrics MAX_HISTORY_RECORDS).

(** One turn of [while True]; an exception of the handler leaves the loop. *)
Definition background_cycle (env : background_env) : M unit :=
  try_except_M (background_try env)
    (fun e => log_error false (bg_env_failure env) "BACKGROUND_MONITOR_ERROR" (exn_str e)
                "background_monitoring" "ERROR" None).

(** What happens to the monitor: a request is served, or the loop takes a
    turn. *)
Inductive event :=
| EvRequest (c : call)
| EvBackground (env : background_env).

Definition run_event (ev : event) (st : state) : state :=
  match ev with
  | EvRequest c => snd (run_call format_2f c st)
  | EvBackground env => snd (background_cycle env st)
  end.

Fixpoint run_events (evs : list event) (st : state) : state :=
  match evs with
  | [] => st
  | ev :: evs' => run_events evs' (run_event ev st)
  end.

End Background.

(** * Properties *)

(** ** Floats *)

Lemma Qlt_bool_iff (a b : Q) : Qlt_bool a b = true <-> (a < b)%Q.
Proof.
  unfold Qlt_bool. rewrite negb_true_iff.
  split.
  - intros H. apply Qnot_le_lt. intros Hle.
    apply Qle_bool_iff in Hle. congruence.
  - intros H. destruct (Qle_bool b a) eqn:Hb; [|reflexivity].
    apply Qle_bool_iff in Hb. exfalso. exact (Qlt_not_le _ _ H Hb).
Qed.

Lemma Qlt_bool_false_iff (a b : Q) : Qlt_bool a b = false <-> (b <= a)%Q.
Proof.
  unfold Qlt_bool. rewrite negb_false_iff. apply Qle_bool_iff.
Qed.

Lemma py_max_spec (a b : Q) : (py_max a b == Qmax a b)%Q.
Proof.
  unfold py_max. destruct (Qlt_bool a b) eqn:Hlt.
  - apply Qlt_bool_iff in Hlt. symmetry. apply Q.max_r. by apply Qlt_le_weak.
  - apply Qlt_bool_false_iff in Hlt. symmetry. by apply Q.max_l.
Qed.

Lemma py_min_spec (a b : Q) : (py_min a b == Qmin a b)%Q.
Proof.
  unfold py_min. destruct (Qlt_bool b a) eqn:Hlt.
  - apply Qlt_bool_iff in Hlt. symmetry. apply Q.min_r. by apply Qlt_le_weak.
  - apply Qlt_bool_false_iff in Hlt. symmetry. by apply Q.min_l.
Qed.

Lemma py_max_lower (a b : Q) : (a <= py_max a b)%Q.
Proof.
  unfold py_max. destruct (Qlt_bool a b) eqn:Hlt.
  - apply Qlt_bool_iff in Hlt. by apply Qlt_le_weak.
  - apply Qle_refl.
Qed.

Lemma py_min_upper (a b : Q) : (py_min a b <= a)%Q.
Proof.
  unfold py_min. destruct (Qlt_bool b a) eqn:Hlt.
  - apply Qlt_bool_iff in Hlt. by apply Qlt_le_weak.
  - apply Qle_refl.
Qed.

Lemma py_min_lower (a b c : Q) : (c <= a)%Q -> (c <= b)%Q -> (c <= py_min a b)%Q.
Proof. intros Ha Hb. unfold py_min. by destruct (Qlt_bool b a). Qed.

(** ** The sampler *)

Lemma get_system_metrics_ok (h : psutil) : _get_system_metrics h = Ok (snapshot h).
Proof.
  unfold _get_system_metrics, snapshot, try_except.
  by destruct (psutil_read h).
Qed.

Lemma snapshot_failed (h : psutil) (e : exn) :
  psutil_read h = Raise e -> snapshot h = empty_dict.
Proof. intros H. unfold snapshot. by rewrite H. Qed.

Lemma dict_get_empty (k : string) : dict_get empty_dict k = 0%Q.
Proof. unfold dict_get, empty_dict. simpl. by rewrite lookup_empty. Qed.

Lemma dict_get_network_empty (k : string) : dict_get_network empty_dict k = 0.
Proof. unfold dict_get_network, empty_dict. simpl. by rewrite lookup_empty. Qed.

(** A host on which [psutil.disk_usage('/')] is denied. *)
Definition psutil_denied : psutil :=
  {| cpu_percent := Ok (12 # 1)%Q;
     virtual_memory := Ok (40 # 1)%Q;
     disk_usage := Raise (Exn "PermissionError" "[Errno 13] Permission denied: '/'");
     net_io_counters := Ok (1000, 2000) |}.

(** The sampler returns normally on every host, failing or not. *)
Lemma get_system_metrics_total (h : psutil) : exists d, _get_system_metrics h = Ok d.
Proof. eexists. apply get_system_metrics_ok. Qed.

(** ** Derived impact *)

(** The dict [_calculate_performance_impact] builds from a snapshot. *)
Definition impact_of (metrics : metrics_dict) : impact :=
  {| cpu_impact := py_max 0 (dict_get metrics "cpu_usage" - 20);
     memory_impact := py_max 0 (dict_get metrics "memory_usage" - 30);
     overall_severity :=
       py_min 10 ((dict_get metrics "cpu_usage" + dict_get metrics "memory_usage") / 20) |}%Q.

Lemma calculate_performance_impact_ok (h : psutil) :
  _calculate_performance_impact h = Ok (impact_of (snapshot h)).
Proof.
  unfold _calculate_performance_impact. by rewrite get_system_metrics_ok.
Qed.

(** C5.  On every host, [_calculate_performance_impact] returns
    cpu_impact = max(0, cpu_usage - 20), memory_impact =
    max(0, memory_usage - 30) and severity = min(10, (cpu_usage +
    memory_usage) / 20) of a fresh sample; when the sampled usages are
    non-negative both impacts are at least 0 and the severity lies in
    [0, 10]. *)
Theorem calculate_performance_impact_formula (h : psutil) :
  exists r, _calculate_performance_impact h = Ok r /\
    let cpu := dict_get (snapshot h) "cpu_usage" in
    let mem := dict_get (snapshot h) "memory_usage" in
    (cpu_impact r == Qmax 0 (cpu - 20))%Q /\
    (memory_impact r == Qmax 0 (mem - 30))%Q /\
    (overall_severity r == Qmin 10 ((cpu + mem) / 20))%Q /\
    ((0 <= cpu)%Q -> (0 <= mem)%Q ->
     (0 <= cpu_impact r)%Q /\ (0 <= memory_impact r)%Q /\
     (0 <= overall_severity r)%Q /\ (overall_severity r <= 10)%Q).
Proof.
  exists (impact_of (snapshot h)). split; [apply calculate_performance_impact_ok|].
  simpl. repeat split.
  - apply py_max_spec.
  - apply py_max_spec.
  - apply py_min_spec.
  - apply py_max_lower.
  - apply py_max_lower.
  - apply py_min_lower; [done|].
    apply Qle_shift_div_l; [done|].
    rewrite Qmult_0_l.
    apply (Qplus_le_compat 0 _ 0 _); assumption.
  - apply py_min_upper.
Qed.

(** A healthy host at 85% CPU and 50% memory. *)
Definition psutil_busy : psutil :=
  {| cpu_percent := Ok (85 # 1)%Q;
     virtual_memory := Ok (50 # 1)%Q;
     disk_usage := Ok (10 # 1)%Q;
     net_io_counters := Ok (1000, 2000) |}.

Example calculate_performance_impact_busy :
  exists r, _calculate_performance_impact psutil_busy = Ok r /\
    (cpu_impact r == 65)%Q /\ (memory_impact r == 20)%Q /\
    (overall_severity r == 27 # 4)%Q.
Proof. eexists. split; [reflexivity|]. by vm_compute. Qed.

(** ** The diagnostic catalog *)

Lemma str_contains_unfold (sub s : string) :
  str_contains sub s =
  str_prefix sub s || match s with EmptyString => false | String _ s' => str_contains sub s' end.
Proof. by destruct s. Qed.

Lemma str_prefix_app (p s : string) : str_prefix p (p +:+ s) = true.
Proof.
  induction p as [|a p IH]; simpl; [by destruct s|].
  by rewrite Ascii.eqb_refl.
Qed.

Lemma str_contains_app (sub p s : string) : str_contains sub (p +:+ sub +:+ s) = true.
Proof.
  induction p as [|a p IH].
  - change ("" +:+ sub +:+ s) with (sub +:+ s).
    rewrite str_contains_unfold, str_prefix_app. reflexivity.
  - change (String a p +:+ sub +:+ s) with (String a (p +:+ sub +:+ s)).
    rewrite str_contains_unfold, IH. apply orb_true_r.
Qed.

(** Every documented category has its own explanation. *)
Lemma explanations_cover_catalog :
  Forall (fun c => is_Some (explanations !! c)) catalog_categories.
Proof.
  unfold catalog_categories.
  repeat (apply Forall_cons_2; [vm_compute; eauto|]). apply Forall_nil_2.
Qed.

(** Every documented category but DATABASE_ERROR has its own fix. *)
Lemma fixes_cover_catalog_but_one :
  Forall (fun c => c = "DATABASE_ERROR" \/ is_Some (fixes !! c)) catalog_categories.
Proof.
  unfold catalog_categories.
  repeat (apply Forall_cons_2; [first [by left | right; vm_compute; eauto]|]).
  apply Forall_nil_2.
Qed.

(** A category without an entry gets the template text, which is not empty
    and quotes the category. *)
Lemma generate_error_explanation_fallback (error_type message : string) :
  explanations !! error_type = None ->
  _generate_error_explanation error_type message
    = "An error of type '" +:+ error_type +:+ "' occurred: " +:+ message /\
  str_truthy (_generate_error_explanation error_type message) = true /\
  str_contains error_type (_generate_error_explanation error_type message) = true.
Proof.
  intros Hnone. unfold _generate_error_explanation. rewrite Hnone. simpl.
  split; [reflexivity|]. split; [reflexivity|].
  apply (str_contains_app error_type "An error of type '").
Qed.

Lemma generate_suggested_fix_fallback (error_type message : string) :
  fixes !! error_type = None ->
  _generate_suggested_fix error_type message
    = "Review the error details and implement appropriate error handling for '"
        +:+ error_type +:+ "'." /\
  str_truthy (_generate_suggested_fix error_type message) = true /\
  str_contains error_type (_generate_suggested_fix error_type message) = true.
Proof.
  intros Hnone. unfold _generate_suggested_fix. rewrite Hnone. simpl.
  split; [reflexivity|]. split; [reflexivity|].
  apply (str_contains_app error_type
           "Review the error details and implement appropriate error handling for '").
Qed.

Example diagnostic_lookup_foo_bar (message : string) :
  _generate_error_explanation "FOO_BAR" message
    = "An error of type 'FOO_BAR' occurred: " +:+ message /\
  _generate_suggested_fix "FOO_BAR" message
    = "Review the error details and implement appropriate error handling for 'FOO_BAR'.".
Proof.
  split.
  - apply generate_error_explanation_fallback. by vm_compute.
  - apply generate_suggested_fix_fallback. by vm_compute.
Qed.

(** C8.  [explanations] has an entry for DATABASE_ERROR and [fixes] has
    none: for this documented category [_generate_suggested_fix] answers with
    the text it keeps for unknown categories. *)
Theorem generate_suggested_fix_database_error (message : string) :
  is_Some (explanations !! "DATABASE_ERROR") /\
  fixes !! "DATABASE_ERROR" = None /\
  _generate_suggested_fix "DATABASE_ERROR" message
    = "Review the error details and implement appropriate error handling for 'DATABASE_ERROR'.".
Proof.
  split; [vm_compute; eauto|]. split; [by vm_compute|].
  apply generate_suggested_fix_fallback. by vm_compute.
Qed.

(** ** The thresholds *)

Lemma dict_update_lookup {V} (d other : gmap string V) (k : string) :
  dict_update d other !! k =
  match other !! k with
  | Some v => Some v
  | None => d !! k
  end.
Proof.
  unfold dict_update. rewrite lookup_union.
  destruct (other !! k), (d !! k); reflexivity.
Qed.

Lemma dict_update_keeps_keys {V} (d other : gmap string V) (k : string) :
  is_Some (d !! k) -> is_Some (dict_update d other !! k).
Proof.
  intros Hk. rewrite dict_update_lookup. by destruct (other !! k).
Qed.

(** ** ORDER BY and LIMIT *)

Lemma sql_limit_length {A} (n : Z) (l : list A) :
  0 <= n -> (length (sql_limit n l) <= Z.to_nat n)%nat.
Proof.
  intros Hn. unfold sql_limit.
  destruct (Z.ltb_spec n 0); [lia|]. rewrite length_take. lia.
Qed.

Lemma sql_limit_all {A} (n : Z) (l : list A) :
  n < 0 \/ (length l <= Z.to_nat n)%nat -> sql_limit n l = l.
Proof.
  intros Hn. unfold sql_limit.
  destruct (Z.ltb_spec n 0); [done|]. apply take_ge. lia.
Qed.

Lemma sql_limit_length_exact {A} (n : Z) (l : list A) :
  length (sql_limit n l)
  = if n <? 0 then length l else (Z.to_nat n `min` length l)%nat.
Proof.
  unfold sql_limit. destruct (n <? 0); [done|]. by rewrite length_take.
Qed.

Lemma sqlite_bind_int_in_range (n : Z) : sqlite_int64 n = true -> sqlite_bind_int n = Ok n.
Proof. unfold sqlite_bind_int. by intros ->. Qed.

Lemma sqlite_bind_int_out_of_range (n : Z) :
  sqlite_int64 n = false ->
  sqlite_bind_int n
  = Raise (Exn "OverflowError" "Python int too large to convert to SQLite INTEGER").
Proof. unfold sqlite_bind_int. by intros ->. Qed.

Lemma sqlite_int64_iff (n : Z) : sqlite_int64 n = true <-> - 2 ^ 63 <= n < 2 ^ 63.
Proof. unfold sqlite_int64. rewrite andb_true_iff, Z.leb_le, Z.ltb_lt. done. Qed.

Lemma sql_limit_sublist {A} (n : Z) (l : list A) : sql_limit n l `sublist_of` l.
Proof.
  unfold sql_limit. destruct (n <? 0); [done|]. apply sublist_take.
Qed.

Lemma sql_limit_elem_of {A} (n : Z) (l : list A) (x : A) : x ∈ sql_limit n l -> x ∈ l.
Proof. intros Hx. eapply elem_of_sublist; [exact Hx|apply sql_limit_sublist]. Qed.

Lemma StronglySorted_weaken {A} (R1 R2 : relation A) (l : list A) :
  (forall x y, R1 x y -> R2 x y) -> StronglySorted R1 l -> StronglySorted R2 l.
Proof.
  intros HR. induction 1 as [|x l Hl IH Hx]; constructor; [done|].
  eapply Forall_impl; [exact Hx|]. intros y. apply HR.
Qed.

Lemma sql_limit_strongly_sorted {A} (R : relation A) (n : Z) (l : list A) :
  StronglySorted R l -> StronglySorted R (sql_limit n l).
Proof.
  intros Hl. unfold sql_limit. destruct (n <? 0); [done|].
  rewrite <- (take_drop (Z.to_nat n) l) in Hl.
  by apply StronglySorted_app in Hl as (_ & ? & _).
Qed.

(** The concrete engine meets what SQL promises. *)
Lemma insert_desc_perm {A} (key : A -> Z) (x : A) (l : list A) :
  insert_desc key x l ≡ₚ x :: l.
Proof.
  induction l as [|y l IH]; simpl; [done|].
  destruct (key y <=? key x); [done|].
  rewrite IH. apply Permutation_swap.
Qed.

Lemma stable_sort_desc_perm {A} (key : A -> Z) (l : list A) :
  stable_sort_desc key l ≡ₚ l.
Proof.
  induction l as [|x l IH]; simpl; [done|].
  by rewrite insert_desc_perm, IH.
Qed.

Lemma insert_desc_sorted {A} (key : A -> Z) (x : A) (l : list A) :
  Sorted (fun a b => key b <= key a) l ->
  Sorted (fun a b => key b <= key a) (insert_desc key x l).
Proof.
  induction 1 as [|y l Hl IH Hhd]; simpl.
  - repeat constructor.
  - destruct (Z.leb_spec (key y) (key x)).
    + constructor; [by constructor|]. by constructor.
    + constructor; [done|].
      destruct Hhd as [|z l' Hz]; simpl.
      * constructor. lia.
      * destruct (key z <=? key x); constructor; [lia|done].
Qed.

Lemma stable_sort_desc_sorted {A} (key : A -> Z) (l : list A) :
  Sorted (fun a b => key b <= key a) (stable_sort_desc key l).
Proof.
  induction l as [|x l IH]; simpl; [constructor|].
  by apply insert_desc_sorted.
Qed.

(** The engine with which the examples below are evaluated: among rows with
    equal keys the one scanned first comes first. *)
Definition stable_engine : SqlEngine :=
  {| order_by_desc := @stable_sort_desc;
     order_by_desc_perm := @stable_sort_desc_perm;
     order_by_desc_sorted := @stable_sort_desc_sorted |}.

Section StoreFacts.
Context `{E : SqlEngine} `{U : CaseMapping}.

Lemma order_by_desc_strongly_sorted {A} (key : A -> Z) (l : list A) :
  StronglySorted (fun x y => key y <= key x) (order_by_desc key l).
Proof.
  assert (Transitive (fun x y : A => key y <= key x)) by (intros x y z ? ?; lia).
  apply Sorted_StronglySorted; [done|]. apply order_by_desc_sorted.
Qed.

Lemma order_by_desc_elem_of {A} (key : A -> Z) (l : list A) (x : A) :
  x ∈ order_by_desc key l <-> x ∈ l.
Proof. by rewrite (order_by_desc_perm A key l). Qed.

Lemma order_by_desc_length {A} (key : A -> Z) (l : list A) :
  length (order_by_desc key l) = length l.
Proof. by rewrite (order_by_desc_perm A key l). Qed.

(** When the keys grow strictly along the table, every engine returns the
    table backwards. *)
Lemma order_by_desc_increasing {A} (key : A -> Z) (l : list A) :
  StronglySorted (fun x y => key x < key y) l ->
  order_by_desc key l = reverse l.
Proof.
  intros Hinc.
  assert (Transitive (fun x y : A => key y <= key x)) by (intros x y z ? ?; lia).
  assert (Hinj : forall x y, x ∈ l -> y ∈ l -> key x = key y -> x = y).
  { clear -Hinc. induction Hinc as [|a l Hl IH Ha]; intros x y Hx Hy Hxy.
    - by apply elem_of_nil in Hx.
    - rewrite Forall_forall in Ha.
      apply elem_of_cons in Hx as [->|Hx]; apply elem_of_cons in Hy as [->|Hy].
      + done.
      + specialize (Ha _ Hy). lia.
      + specialize (Ha _ Hx). lia.
      + by apply IH. }
  apply (Sorted_unique_strong (fun x y => key y <= key x)).
  - intros x y Hx Hy Hxy Hyx. apply Hinj.
    + by apply (order_by_desc_elem_of key l x).
    + by apply (elem_of_reverse y l).
    + lia.
  - apply order_by_desc_sorted.
  - apply (Sorted_reverse (fun x y => key x <= key y)).
    apply StronglySorted_Sorted.
    eapply StronglySorted_weaken; [|exact Hinc]. intros x y Hxy; simpl in *; lia.
  - by rewrite (order_by_desc_perm A key l), reverse_Permutation.
Qed.

End StoreFacts.

(** ** Eviction *)

Lemma sql_not_in_false (x : Z) (ids : list Z) :
  negb (sql_not_in x ids) = true <-> x ∈ ids.
Proof.
  unfold sql_not_in. rewrite negb_involutive, existsb_exists, list_elem_of_In.
  split.
  - intros (y & Hy & Heq). apply Z.eqb_eq in Heq. by subst.
  - intros Hx. exists x. split; [done|]. apply Z.eqb_refl.
Qed.

Lemma filter_in_all {A} (f : A -> Z) (keep : list Z) (l : list A) :
  (forall r, r ∈ l -> f r ∈ keep) ->
  List.filter (fun r => negb (sql_not_in (f r) keep)) l = l.
Proof.
  induction l as [|a l IH]; intros Hall; simpl; [done|].
  assert (negb (sql_not_in (f a) keep) = true) as ->.
  { apply sql_not_in_false, Hall. by left. }
  f_equal. apply IH. intros r Hr. apply Hall. by right.
Qed.

Lemma filter_in_none {A} (f : A -> Z) (keep : list Z) (l : list A) :
  (forall r, r ∈ l -> f r ∉ keep) ->
  List.filter (fun r => negb (sql_not_in (f r) keep)) l = [].
Proof.
  induction l as [|a l IH]; intros Hnone; simpl; [done|].
  destruct (negb (sql_not_in (f a) keep)) eqn:Ha.
  - apply sql_not_in_false in Ha. exfalso. by apply (Hnone a); [left|].
  - apply IH. intros r Hr. apply Hnone. by right.
Qed.

Lemma filter_elem_of {A} (p : A -> bool) (l : list A) (x : A) :
  x ∈ List.filter p l <-> x ∈ l /\ p x = true.
Proof. rewrite !list_elem_of_In. apply filter_In. Qed.

Lemma filter_fmap_NoDup {A} (f : A -> Z) (p : A -> bool) (l : list A) :
  NoDup (f <$> l) -> NoDup (f <$> List.filter p l).
Proof.
  induction l as [|a l IH]; simpl; [done|].
  rewrite NoDup_cons. intros [Ha Hl].
  destruct (p a); [|by apply IH].
  csimpl. apply NoDup_cons. split; [|by apply IH].
  intros Hin. apply Ha.
  apply list_elem_of_fmap in Hin as (r & -> & Hr).
  apply list_elem_of_fmap. exists r. split; [done|].
  by apply filter_elem_of in Hr as [? _].
Qed.

Lemma filter_in_length {A} (f : A -> Z) (keep : list Z) (l : list A) :
  NoDup (f <$> l) ->
  (length (List.filter (fun r => negb (sql_not_in (f r) keep)) l) <= length keep)%nat.
Proof.
  intros Hnd.
  rewrite <- (length_fmap f).
  apply submseteq_length, NoDup_submseteq.
  - by apply filter_fmap_NoDup.
  - intros x Hx. apply list_elem_of_fmap in Hx as (r & -> & Hr).
    apply filter_elem_of in Hr as [_ Hr]. by apply sql_not_in_false.
Qed.

Lemma filter_in_suffix {A} (f : A -> Z) (l1 l2 : list A) :
  NoDup (f <$> (l1 ++ l2)) ->
  List.filter (fun r => negb (sql_not_in (f r) (f <$> reverse l2))) (l1 ++ l2) = l2.
Proof.
  rewrite fmap_app. intros (_ & Hdisj & _)%NoDup_app.
  rewrite List.filter_app, filter_in_none, filter_in_all; [done| |].
  - intros r Hr. apply list_elem_of_fmap. exists r. split; [done|].
    by apply (elem_of_reverse r l2).
  - intros r Hr Hin. apply (Hdisj (f r)).
    + apply list_elem_of_fmap. by exists r.
    + apply list_elem_of_fmap in Hin as (r' & Heq & Hr').
      apply list_elem_of_fmap. exists r'. split; [done|].
      by apply (elem_of_reverse r' l2).
Qed.

Lemma database_eta (d : database) :
  {| metrics := metrics d; metrics_seq := metrics_seq d;
     errors := errors d; errors_seq := errors_seq d |} = d.
Proof. by destruct d. Qed.

Section Eviction.
Context `{E : SqlEngine} `{U : CaseMapping}.

Lemma cleanup_elem_of (MAX_HISTORY_RECORDS : Z) (d : database) (r : metrics_row) :
  r ∈ metrics (_cleanup_old_metrics MAX_HISTORY_RECORDS d) -> r ∈ metrics d.
Proof. simpl. intros Hr. by apply filter_elem_of in Hr as [? _]. Qed.

(** With no bound ([LIMIT] negative) or no more rows than the bound, nothing
    is deleted. *)
Lemma cleanup_noop (MAX_HISTORY_RECORDS : Z) (d : database) :
  MAX_HISTORY_RECORDS < 0 \/ (length (metrics d) <= Z.to_nat MAX_HISTORY_RECORDS)%nat ->
  _cleanup_old_metrics MAX_HISTORY_RECORDS d = d.
Proof.
  intros Hall. unfold _cleanup_old_metrics, cleanup_keep_ids.
  rewrite sql_limit_all by (by rewrite order_by_desc_length).
  rewrite filter_in_all; [apply database_eta|].
  intros r Hr. apply list_elem_of_fmap. exists r. split; [done|].
  by apply order_by_desc_elem_of.
Qed.

(** After an eviction with a non-negative bound the table has at most that
    many rows. *)
Lemma cleanup_length (MAX_HISTORY_RECORDS : Z) (d : database) :
  0 <= MAX_HISTORY_RECORDS -> NoDup (mr_id <$> metrics d) ->
  (length (metrics (_cleanup_old_metrics MAX_HISTORY_RECORDS d))
     <= Z.to_nat MAX_HISTORY_RECORDS)%nat.
Proof.
  intros Hmax Hnd. simpl.
  etrans; [by apply filter_in_length|].
  unfold cleanup_keep_ids. rewrite length_fmap. by apply sql_limit_length.
Qed.

Lemma cleanup_length_le (MAX_HISTORY_RECORDS : Z) (d : database) :
  (length (metrics (_cleanup_old_metrics MAX_HISTORY_RECORDS d)) <= length (metrics d))%nat.
Proof. simpl. apply filter_length_le. Qed.

Lemma cleanup_wf (MAX_HISTORY_RECORDS : Z) (d : database) :
  metrics_wf d -> metrics_wf (_cleanup_old_metrics MAX_HISTORY_RECORDS d).
Proof.
  intros [Hnd Hseq]. split.
  - by apply filter_fmap_NoDup.
  - simpl. rewrite Forall_forall in Hseq |- *.
    intros r Hr. apply Hseq. by apply filter_elem_of in Hr as [? _].
Qed.

(** Running the eviction twice is running it once. *)
Lemma cleanup_idempotent (MAX_HISTORY_RECORDS : Z) (d : database) :
  metrics_wf d ->
  _cleanup_old_metrics MAX_HISTORY_RECORDS (_cleanup_old_metrics MAX_HISTORY_RECORDS d)
  = _cleanup_old_metrics MAX_HISTORY_RECORDS d.
Proof.
  intros [Hnd _]. apply cleanup_noop.
  destruct (Z.ltb_spec MAX_HISTORY_RECORDS 0); [by left|right].
  by apply cleanup_length.
Qed.

(** When [created_at] grows strictly along the table, the rows that survive
    are the last ones of the table. *)
Lemma cleanup_increasing (MAX_HISTORY_RECORDS : Z) (d : database) :
  0 <= MAX_HISTORY_RECORDS ->
  NoDup (mr_id <$> metrics d) ->
  StronglySorted (fun r1 r2 => mr_created_at r1 < mr_created_at r2) (metrics d) ->
  metrics (_cleanup_old_metrics MAX_HISTORY_RECORDS d)
  = drop (length (metrics d) - Z.to_nat MAX_HISTORY_RECORDS) (metrics d).
Proof.
  intros Hmax Hnd Hinc. simpl. unfold cleanup_keep_ids.
  rewrite (order_by_desc_increasing mr_created_at) by done.
  unfold sql_limit. destruct (Z.ltb_spec MAX_HISTORY_RECORDS 0); [lia|].
  rewrite take_reverse.
  set (k := (length (metrics d) - Z.to_nat MAX_HISTORY_RECORDS)%nat).
  rewrite <- (take_drop k (metrics d)) in Hnd.
  transitivity
    (List.filter
       (fun r => negb (sql_not_in (mr_id r) (mr_id <$> reverse (drop k (metrics d)))))
       (take k (metrics d) ++ drop k (metrics d))).
  { by rewrite take_drop. }
  by apply filter_in_suffix.
Qed.

End Eviction.

(** The invariant of the primary key. *)
Lemma empty_database_wf : metrics_wf empty_database.
Proof. split; [apply NoDup_nil_2|apply Forall_nil_2]. Qed.

Lemma save_metric_wf (now : Z) (metric : PerformanceMetrics) (d : database) :
  metrics_wf d -> metrics_wf (save_metric now metric d).
Proof.
  intros [Hnd Hseq]. split; simpl.
  - rewrite fmap_app. apply NoDup_app. split; [done|]. split; [|apply NoDup_singleton].
    intros x Hx Hx'. apply list_elem_of_fmap in Hx as (r & -> & Hr).
    apply list_elem_of_singleton in Hx'. simpl in Hx'.
    rewrite Forall_forall in Hseq. specialize (Hseq r Hr). lia.
  - apply Forall_app. split.
    + eapply Forall_impl; [exact Hseq|]. intros r Hr; simpl in *; lia.
    + apply Forall_singleton. simpl. lia.
Qed.

Lemma save_error_wf (now : Z) (error : ErrorLog) (d : database) :
  metrics_wf d -> metrics_wf (save_error now error d).
Proof. by intros [Hnd Hseq]. Qed.

(** A metric as [monitor_function] writes it. *)
Definition sample_metric : PerformanceMetrics :=
  {| pm_id := None;
     pm_timestamp := "2025-01-15T10:00:00.000000";
     pm_cpu_usage := (12 # 1)%Q;
     pm_memory_usage := (40 # 1)%Q;
     pm_disk_usage := (55 # 1)%Q;
     pm_network_sent := 1000;
     pm_network_recv := 2000;
     pm_execution_time := (1 # 10)%Q;
     pm_function_name := "get_metrics";
     pm_status := "completed";
     pm_api_key := Some "pm_key" |}.

(** [n] metrics saved one after the other, the first at second [now], each
    next one [step] seconds later. *)
Fixpoint insert_metrics (n : nat) (now step : Z) (d : database) : database :=
  match n with
  | O => d
  | S n' => insert_metrics n' (now + step) step (save_metric now sample_metric d)
  end.

(** 150 metrics saved in 150 different seconds. *)
Definition store_150 : database := insert_metrics 150 1736935200 1 empty_database.

(** Three metrics saved within one second. *)
Definition store_same_second : database := insert_metrics 3 1736935200 0 empty_database.

(** A negative MAX_HISTORY_RECORDS turns the eviction off. *)
Lemma cleanup_negative_bound `{E : SqlEngine} (MAX_HISTORY_RECORDS : Z) (d : database) :
  MAX_HISTORY_RECORDS < 0 -> _cleanup_old_metrics MAX_HISTORY_RECORDS d = d.
Proof. intros Hneg. apply cleanup_noop. by left. Qed.

(** ** Error queries *)

Lemma str_truthy_iff (s : string) : str_truthy s = true <-> s <> "".
Proof. by destruct s. Qed.

Section Queries.
Context `{E : SqlEngine} `{U : CaseMapping}.

Lemma errors_where_level (level api_key : option string) (lv : string) (r : errors_row) :
  level = Some lv -> lv <> "" ->
  errors_where level api_key r = true -> el_level (er_error r) = str_upper lv.
Proof.
  intros -> Hlv%str_truthy_iff. unfold errors_where. rewrite Hlv.
  intros [Hl _]%andb_true_iff. by apply String.eqb_eq.
Qed.

Lemma errors_where_api_key (level api_key : option string) (k : string) (r : errors_row) :
  api_key = Some k -> k <> "" ->
  errors_where level api_key r = true -> el_api_key (er_error r) = Some k.
Proof.
  intros -> Hk%str_truthy_iff. unfold errors_where. rewrite Hk.
  intros [_ Hr]%andb_true_iff.
  destruct (el_api_key (er_error r)) as [k'|]; [|done].
  apply String.eqb_eq in Hr. by subst.
Qed.

(** On rows whose level is recorded in upper case, as every caller of
    [log_error] records it, the level filter compares without regard to
    case. *)
Lemma errors_where_case_insensitive (lv : string) (r : errors_row) :
  lv <> "" ->
  str_upper (el_level (er_error r)) = el_level (er_error r) ->
  errors_where (Some lv) None r = true
  <-> str_upper (el_level (er_error r)) = str_upper lv.
Proof.
  intros Hlv%str_truthy_iff Hupper. unfold errors_where.
  rewrite Hlv, andb_true_r, String.eqb_eq, Hupper. done.
Qed.

Lemma select_errors_elem_of (d : database) (limit : Z) (level api_key : option string)
    (r : errors_row) :
  r ∈ select_errors d limit level api_key ->
  r ∈ errors d /\ errors_where level api_key r = true.
Proof.
  unfold select_errors. intros Hr%sql_limit_elem_of.
  apply order_by_desc_elem_of in Hr. by apply filter_elem_of.
Qed.

(** A matching row that was cut off by LIMIT is no more recent than any row
    that was returned. *)
Lemma select_errors_most_recent (d : database) (limit : Z) (level api_key : option string)
    (r r' : errors_row) :
  r ∈ errors d -> errors_where level api_key r = true ->
  r ∉ select_errors d limit level api_key ->
  r' ∈ select_errors d limit level api_key ->
  er_created_at r <= er_created_at r'.
Proof.
  unfold select_errors, sql_limit. intros Hr Hw Hout Hin.
  set (sorted := order_by_desc er_created_at
                   (List.filter (errors_where level api_key) (errors d))) in *.
  assert (Hsorted : r ∈ sorted).
  { apply order_by_desc_elem_of, filter_elem_of. by split. }
  destruct (limit <? 0); [done|].
  pose proof (order_by_desc_strongly_sorted er_created_at
                (List.filter (errors_where level api_key) (errors d))) as Hss.
  fold sorted in Hss.
  rewrite <- (take_drop (Z.to_nat limit) sorted) in Hss, Hsorted.
  apply StronglySorted_app in Hss as (Hcross & _ & _).
  apply elem_of_app in Hsorted as [?|Hdrop]; [done|].
  exact (Hcross r' r Hin Hdrop).
Qed.

(** On a table whose rows were inserted in strictly increasing seconds every
    engine answers with the matching rows, newest first. *)
Lemma select_errors_increasing (d : database) (limit : Z) (level api_key : option string) :
  StronglySorted (fun r1 r2 => er_created_at r1 < er_created_at r2) (errors d) ->
  select_errors d limit level api_key
  = sql_limit limit (reverse (List.filter (errors_where level api_key) (errors d))).
Proof.
  intros Hinc. unfold select_errors. f_equal.
  apply order_by_desc_increasing.
  induction Hinc as [|r l Hl IH Hr]; simpl; [constructor|].
  destruct (errors_where level api_key r); [|done].
  constructor; [done|].
  rewrite Forall_forall in Hr |- *. intros x Hx. apply Hr.
  by apply filter_elem_of in Hx as [? _].
Qed.

(** What the WHERE clause asks of a row. *)
Lemma errors_where_iff (level api_key : option string) (r : errors_row) :
  errors_where level api_key r = true <->
  (forall lv, level = Some lv -> lv <> "" -> el_level (er_error r) = str_upper lv) /\
  (forall k, api_key = Some k -> k <> "" -> el_api_key (er_error r) = Some k).
Proof.
  split.
  - intros Hw. split.
    + intros lv Hlevel Hlv. by eapply errors_where_level.
    + intros k Hkey Hk. by eapply errors_where_api_key.
  - intros [Hlevel Hkey]. unfold errors_where. apply andb_true_iff. split.
    + destruct level as [lv|]; [|done].
      destruct (str_truthy lv) eqn:Hlv; [|done].
      apply String.eqb_eq, Hlevel; [done|]. by apply str_truthy_iff.
    + destruct api_key as [k|]; [|done].
      destruct (str_truthy k) eqn:Hk; [|done].
      rewrite (Hkey k); [by apply String.eqb_eq|done|by apply str_truthy_iff].
Qed.

Lemma select_errors_length (d : database) (limit : Z) (level api_key : option string) :
  length (select_errors d limit level api_key)
  = if limit <? 0 then length (List.filter (errors_where level api_key) (errors d))
    else (Z.to_nat limit `min` length (List.filter (errors_where level api_key) (errors d)))%nat.
Proof.
  unfold select_errors. by rewrite sql_limit_length_exact, order_by_desc_length.
Qed.

(** The rows returned are matching rows, none of them twice. *)
Lemma select_errors_submseteq (d : database) (limit : Z) (level api_key : option string) :
  select_errors d limit level api_key ⊆+ List.filter (errors_where level api_key) (errors d).
Proof.
  unfold select_errors.
  etransitivity; [apply sublist_submseteq, sql_limit_sublist|].
  by rewrite (order_by_desc_perm _ er_created_at).
Qed.

Lemma get_errors_in_range (d : database) (limit : Z) (level api_key : option string) :
  sqlite_int64 limit = true ->
  get_errors d limit level api_key = Ok (select_errors d limit level api_key).
Proof. intros Hlimit. unfold get_errors. by rewrite sqlite_bind_int_in_range. Qed.

End Queries.

(** C7, as amended.  [get_errors] with a [limit] outside the 64 bits of an
    SQLite INTEGER raises OverflowError.  With a [limit] inside it returns
    min(limit, number of matching rows) rows, all matching rows when [limit]
    is negative; the rows are matching rows, none twice, in non-increasing
    order of [created_at]; a matching row left out is no more recent than any
    row returned; and when the table was filled in strictly increasing
    seconds they are the most recently inserted matching rows, newest first.
    A row matches when its level is [level.upper()] (for a non-empty
    [level]) and its key is [api_key] (for a non-empty [api_key]). *)
Theorem get_errors_bounded_sorted_filtered `{U : CaseMapping} `{E : SqlEngine}
    (d : database) (limit : Z) (level api_key : option string) :
  let matching := List.filter (errors_where level api_key) (errors d) in
  (sqlite_int64 limit = false ->
   get_errors d limit level api_key
   = Raise (Exn "OverflowError" "Python int too large to convert to SQLite INTEGER")) /\
  (sqlite_int64 limit = true ->
   exists rows,
     get_errors d limit level api_key = Ok rows /\
     length rows = (if limit <? 0 then length matching
                    else (Z.to_nat limit `min` length matching)%nat) /\
     rows ⊆+ matching /\
     StronglySorted (fun r1 r2 => er_created_at r2 <= er_created_at r1) rows /\
     (forall r r', r ∈ matching -> r ∉ rows -> r' ∈ rows ->
                   er_created_at r <= er_created_at r') /\
     (StronglySorted (fun r1 r2 => er_created_at r1 < er_created_at r2) (errors d) ->
      rows = sql_limit limit (reverse matching))) /\
  (forall r, r ∈ matching <->
     r ∈ errors d /\
     (forall lv, level = Some lv -> lv <> "" -> el_level (er_error r) = str_upper lv) /\
     (forall k, api_key = Some k -> k <> "" -> el_api_key (er_error r) = Some k)).
Proof.
  intros matching. split; [|split].
  - intros Hout. unfold get_errors. by rewrite sqlite_bind_int_out_of_range.
  - intros Hin. exists (select_errors d limit level api_key).
    split; [by apply get_errors_in_range|].
    split; [apply select_errors_length|].
    split; [apply select_errors_submseteq|].
    split; [apply sql_limit_strongly_sorted, order_by_desc_strongly_sorted|].
    split.
    + intros r r' [Hr Hw]%filter_elem_of. by apply select_errors_most_recent.
    + apply select_errors_increasing.
  - intros r. subst matching. rewrite filter_elem_of, errors_where_iff. done.
Qed.

(** An error record as [log_error] writes it at [timestamp]. *)
Definition sample_error_at (timestamp level error_type : string) : ErrorLog :=
  {| el_id := None;
     el_timestamp := timestamp;
     el_level := level;
     el_error_type := error_type;
     el_message := "message";
     el_traceback_info := "No traceback available";
     el_function_name := "get_metrics";
     el_cpu_impact := 0%Q;
     el_memory_impact := 0%Q;
     el_severity := 0%Q;
     el_explanation := _generate_error_explanation error_type "message";
     el_suggested_fix := _generate_suggested_fix error_type "message";
     el_api_key := Some "pm_key" |}.

Definition sample_error (level error_type : string) : ErrorLog :=
  sample_error_at "2025-01-15T10:00:00.000000" level error_type.

(** Three WARNING and two ERROR rows, inserted ten seconds apart. *)
Definition store_five_errors : database :=
  save_error 1736935240 (sample_error "WARNING" "SLOW_RESPONSE")
    (save_error 1736935230 (sample_error "ERROR" "VALUEERROR")
      (save_error 1736935220 (sample_error "WARNING" "HIGH_CPU_USAGE")
        (save_error 1736935210 (sample_error "ERROR" "KEYERROR")
          (save_error 1736935200 (sample_error "WARNING" "HIGH_CPU_USAGE")
            empty_database)))).

(** Two WARNING rows logged 0.8 s apart within the same second. *)
Definition store_two_warnings_one_second : database :=
  save_error 1736935200 (sample_error_at "2025-01-15T10:00:00.900000" "WARNING" "SLOW_RESPONSE")
    (save_error 1736935200
       (sample_error_at "2025-01-15T10:00:00.100000" "WARNING" "HIGH_CPU_USAGE")
       empty_database).

Lemma store_five_errors_increasing :
  StronglySorted (fun r1 r2 => er_created_at r1 < er_created_at r2) (errors store_five_errors).
Proof. apply (bool_decide_unpack _). vm_compute. reflexivity. Qed.

(** The query of the specification's example on the engine that keeps scan
    order among equal keys. *)
Lemma get_errors_bounded_sorted_filtered_witness :
  exists rows,
    get_errors (E := stable_engine) store_five_errors 2 (Some "warning") None = Ok rows /\
    length rows = 2%nat /\
    rows = sql_limit 2 (reverse (List.filter (errors_where (Some "warning") None)
                                   (errors store_five_errors))).
Proof.
  destruct (get_errors_bounded_sorted_filtered (E := stable_engine) store_five_errors 2
              (Some "warning") None) as (_ & Hin & _).
  destruct (Hin eq_refl) as (rows & Hrows & Hlen & _ & _ & _ & Hinc).
  exists rows. split; [exact Hrows|]. split; [exact Hlen|].
  exact (Hinc store_five_errors_increasing).
Defined.

(** The query of the specification's example, on every engine: limit 2 and
    level "warning" over three WARNING and two ERROR rows return the two
    newest WARNING rows, newest first. *)
Example get_errors_two_warnings `{U : CaseMapping} `{E : SqlEngine} :
  (fun r => (er_id r, el_level (er_error r), er_created_at r))
    <$> select_errors store_five_errors 2 (Some "warning") None
  = [ (5, "WARNING", 1736935240); (3, "WARNING", 1736935220) ] /\
  get_errors store_five_errors 2 (Some "warning") None
  = Ok (select_errors store_five_errors 2 (Some "warning") None).
Proof.
  split; [|by apply get_errors_in_range].
  rewrite select_errors_increasing by apply store_five_errors_increasing.
  unfold errors_where. rewrite (str_upper_ascii "warning") by reflexivity.
  reflexivity.
Qed.

(** C7, the claim as stated fails in three ways.  Of two WARNING rows logged
    0.8 s apart within one second, [limit = 1] returns the older one (on the
    engine that keeps scan order among equal keys): the order is by
    [created_at], which has whole seconds.  A negative [limit] is no bound:
    with -1 the query returns all five rows.  And a [limit] of 2^63 raises
    OverflowError instead of returning rows. *)
Lemma get_errors_same_second_oldest_first :
  (el_timestamp ∘ er_error <$> errors store_two_warnings_one_second
   = [ "2025-01-15T10:00:00.100000"; "2025-01-15T10:00:00.900000" ] /\
   result_map (fmap (el_timestamp ∘ er_error))
     (get_errors (E := stable_engine) store_two_warnings_one_second 1 (Some "warning") None)
   = Ok [ "2025-01-15T10:00:00.100000" ]) /\
  result_map length (get_errors (E := stable_engine) store_five_errors (-1) None None)
  = Ok 5%nat /\
  get_errors (E := stable_engine) store_five_errors (2 ^ 63) None None
  = Raise (Exn "OverflowError" "Python int too large to convert to SQLite INTEGER").
Proof. repeat split; reflexivity. Qed.

(** ** The instrumentation wrapper *)

(** The record [log_error] saves. *)
Definition logged_error (env : log_env) (error_type message function_name level : string)
    (api_key : option string) : ErrorLog :=
  let performance_impact := impact_of (snapshot (le_psutil env)) in
  {| el_id := None;
     el_timestamp := le_now env;
     el_level := level;
     el_error_type := error_type;
     el_message := message;
     el_traceback_info := le_traceback env;
     el_function_name := function_name;
     el_cpu_impact := cpu_impact performance_impact;
     el_memory_impact := memory_impact performance_impact;
     el_severity := overall_severity performance_impact;
     el_explanation := _generate_error_explanation error_type message;
     el_suggested_fix := _generate_suggested_fix error_type message;
     el_api_key := api_key |}.

(** Inside an application context [log_error] never raises: it appends one
    row to [errors]. *)
Lemma log_error_run (env : log_env) (error_type message function_name level : string)
    (api_key : option string) (st : state) :
  log_error true env error_type message function_name level api_key st =
  (Ok tt,
   {| db := save_error (le_created_at env)
              (logged_error env error_type message function_name level api_key) (db st);
      thresholds := thresholds st |}).
Proof.
  unfold log_error, bind, lift. by rewrite calculate_performance_impact_ok.
Qed.

(** Outside of one it raises before it writes. *)
Lemma log_error_no_context (env : log_env) (error_type message function_name level : string)
    (api_key : option string) (st : state) :
  log_error false env error_type message function_name level api_key st =
  (Raise (Exn "RuntimeError" "Working outside of application context."), st).
Proof.
  unfold log_error, bind, lift. by rewrite calculate_performance_impact_ok.
Qed.

Section MonitorFacts.
Context `{U : CaseMapping}.
Variable format_2f : Q -> string.

(** The metric the [finally] block saves. *)
Definition metric_of (function_name : string) (api_key : option string) (env : monitor_env)
  : PerformanceMetrics :=
  let end_metrics := snapshot (psutil_end env) in
  {| pm_id := None;
     pm_timestamp := metric_now env;
     pm_cpu_usage := dict_get end_metrics "cpu_usage";
     pm_memory_usage := dict_get end_metrics "memory_usage";
     pm_disk_usage := dict_get end_metrics "disk_usage";
     pm_network_sent := dict_get_network end_metrics "bytes_sent";
     pm_network_recv := dict_get_network end_metrics "bytes_recv";
     pm_execution_time := (time_end env - time_start env)%Q;
     pm_function_name := function_name;
     pm_status := "completed";
     pm_api_key := api_key |}.

(** The two warnings of the [finally] block. *)
Definition cpu_warning (function_name : string) (api_key : option string) (env : monitor_env)
  : ErrorLog :=
  logged_error (env_cpu env) "HIGH_CPU_USAGE"
    ("CPU usage: " +:+ format_2f (dict_get (snapshot (psutil_end env)) "cpu_usage")
       +:+ "% exceeds threshold")
    function_name "WARNING" api_key.

Definition slow_warning (function_name : string) (api_key : option string) (env : monitor_env)
  : ErrorLog :=
  logged_error (env_slow env) "SLOW_RESPONSE"
    ("Execution time: " +:+ format_2f (time_end env - time_start env)%Q
       +:+ "s exceeds threshold")
    function_name "WARNING" api_key.

(** The two threshold checks. *)
Definition cpu_breached (cpu_limit : Q) (env : monitor_env) : bool :=
  Qlt_bool cpu_limit (dict_get (snapshot (psutil_end env)) "cpu_usage").

Definition response_breached (response_limit : Q) (env : monitor_env) : bool :=
  Qlt_bool response_limit (time_end env - time_start env)%Q.

(** What a [finally] block that runs to its end does to the store. *)
Definition finally_db (function_name : string) (api_key : option string) (env : monitor_env)
    (cpu_limit response_limit : Q) (d : database) : database :=
  let d1 := if cpu_breached cpu_limit env
            then save_error (le_created_at (env_cpu env))
                   (cpu_warning function_name api_key env) d
            else d in
  let d2 := if response_breached response_limit env
            then save_error (le_created_at (env_slow env))
                   (slow_warning function_name api_key env) d1
            else d1 in
  save_metric (metric_created_at env) (metric_of function_name api_key env) d2.

Lemma dict_get_item (d : metrics_dict) (k : string) (v : Q) :
  md_float d !! k = Some v -> dict_get d k = v.
Proof. unfold dict_get. by intros ->. Qed.

(** The [finally] block runs to its end when both limits are set and the cpu
    check, if it fires, finds a cpu reading in the end sample. *)
Lemma monitor_finally_run (function_name : string) (api_key : option string)
    (env : monitor_env) (st : state) (cpu_limit response_limit : Q) :
  thresholds st !! "cpu" = Some (JNumber cpu_limit) ->
  thresholds st !! "response_time" = Some (JNumber response_limit) ->
  (cpu_breached cpu_limit env = true ->
   is_Some (md_float (snapshot (psutil_end env)) !! "cpu_usage")) ->
  monitor_finally format_2f true function_name api_key env st =
  (Ok tt,
   {| db := finally_db function_name api_key env cpu_limit response_limit (db st);
      thresholds := thresholds st |}).
Proof.
  intros Hcpu Hrt Hsafe.
  unfold monitor_finally, finally_db, bind, lift, get_thresholds, when, ret.
  rewrite get_system_metrics_ok. unfold thresholds_item. rewrite Hcpu. cbn [py_gt json_number].
  unfold cpu_breached, response_breached in *.
  destruct (Qlt_bool cpu_limit _) eqn:Hbreach.
  - destruct Hsafe as [cpu Hitem]; [done|].
    unfold dict_item. rewrite Hitem, log_error_run. cbv beta iota. simpl thresholds.
    rewrite Hrt. cbn [py_gt json_number].
    pose proof (dict_get_item _ _ _ Hitem) as Hget. subst cpu.
    destruct (Qlt_bool response_limit _).
    + by rewrite log_error_run.
    + done.
  - cbv beta iota. rewrite Hrt. cbn [py_gt json_number].
    destruct (Qlt_bool response_limit _).
    + rewrite log_error_run. unfold modify_db. by destruct st.
    + unfold modify_db. by destruct st.
Qed.

(** Otherwise the cpu check raises [KeyError] before anything is written. *)
Lemma monitor_finally_keyerror (function_name : string) (api_key : option string)
    (env : monitor_env) (st : state) (cpu_limit : Q) :
  thresholds st !! "cpu" = Some (JNumber cpu_limit) ->
  cpu_breached cpu_limit env = true ->
  md_float (snapshot (psutil_end env)) !! "cpu_usage" = None ->
  monitor_finally format_2f true function_name api_key env st =
  (Raise (Exn "KeyError" "'cpu_usage'"), st).
Proof.
  intros Hcpu Hbreach Hnone.
  unfold monitor_finally, bind, lift, get_thresholds, when, ret.
  rewrite get_system_metrics_ok. unfold thresholds_item. rewrite Hcpu. cbn [py_gt json_number].
  unfold cpu_breached in Hbreach. rewrite Hbreach.
  unfold dict_item. by rewrite Hnone.
Qed.

(** A cpu limit that is no number: the comparison raises [TypeError] before
    anything is written. *)
Lemma monitor_finally_typeerror (function_name : string) (api_key : option string)
    (env : monitor_env) (st : state) (v : json_value) :
  thresholds st !! "cpu" = Some v ->
  json_number v = None ->
  monitor_finally format_2f true function_name api_key env st =
  (Raise (Exn "TypeError"
            ("'>' not supported between instances of '"
               +:+ dict_get_type (snapshot (psutil_end env)) "cpu_usage" +:+ "' and '"
               +:+ json_type_name v +:+ "'")), st).
Proof.
  intros Hcpu Hnum. unfold monitor_finally, bind, lift, get_thresholds.
  rewrite get_system_metrics_ok. unfold thresholds_item. rewrite Hcpu.
  unfold py_gt. by rewrite Hnum.
Qed.

End MonitorFacts.

Section WrapperFacts.
Context `{U : CaseMapping}.
Variable format_2f : Q -> string.

(** The record the [except] clause logs for the exception [e]. *)
Definition exception_error (function_name : string) (api_key : option string)
    (env : monitor_env) (e : exn) : ErrorLog :=
  logged_error (env_exception env) (str_upper (exn_type e)) (exn_str e)
    function_name "ERROR" api_key.

(** The state the [finally] block starts from when the body raised [e]. *)
Definition after_except (function_name : string) (api_key : option string)
    (env : monitor_env) (e : exn) (st : state) : state :=
  {| db := save_error (le_created_at (env_exception env))
             (exception_error function_name api_key env e) (db st);
     thresholds := thresholds st |}.

(** The warnings a [finally] block that runs to its end logs, in order. *)
Definition warnings (function_name : string) (api_key : option string) (env : monitor_env)
    (cpu_limit response_limit : Q) : list ErrorLog :=
  (if cpu_breached cpu_limit env then [cpu_warning format_2f function_name api_key env] else [])
  ++ (if response_breached response_limit env
      then [slow_warning format_2f function_name api_key env] else []).

(** [monitor_function] is its body, the [except] clause and the [finally]
    block: the start sample never raises and is not used. *)
Lemma monitor_function_unfold {T} (function_name : string) (api_key : option string)
    (env : monitor_env) (body : M T) (st : state) :
  monitor_function format_2f true function_name api_key env body st =
  match body st with
  | (Ok a, st1) =>
      match monitor_finally format_2f true function_name api_key env st1 with
      | (Ok _, st2) => (Ok a, st2)
      | (Raise e', st2) => (Raise e', st2)
      end
  | (Raise e, st1) =>
      match monitor_finally format_2f true function_name api_key env
              (after_except function_name api_key env e st1) with
      | (Ok _, st3) => (Raise e, st3)
      | (Raise e', st3) => (Raise e', st3)
      end
  end.
Proof.
  unfold monitor_function, bind, lift. rewrite get_system_metrics_ok.
  unfold try_except_reraise_finally.
  destruct (body st) as [[a|e] st1]; [done|].
  by rewrite log_error_run.
Qed.

Lemma finally_db_metrics (function_name : string) (api_key : option string)
    (env : monitor_env) (cpu_limit response_limit : Q) (d : database) :
  metrics (finally_db format_2f function_name api_key env cpu_limit response_limit d)
  = metrics d ++
    [ {| mr_id := metrics_seq d + 1;
         mr_metric := metric_of function_name api_key env;
         mr_created_at := metric_created_at env |} ].
Proof.
  unfold finally_db.
  by destruct (cpu_breached cpu_limit env), (response_breached response_limit env).
Qed.

Lemma finally_db_errors (function_name : string) (api_key : option string)
    (env : monitor_env) (cpu_limit response_limit : Q) (d : database) :
  er_error <$> errors (finally_db format_2f function_name api_key env cpu_limit response_limit d)
  = (er_error <$> errors d) ++ warnings function_name api_key env cpu_limit response_limit.
Proof.
  unfold finally_db, warnings.
  destruct (cpu_breached cpu_limit env), (response_breached response_limit env);
    simpl; rewrite ?fmap_app, ?app_nil_r; simpl; by rewrite <- ?(assoc_L (++)).
Qed.

(** The end sample of a successful psutil read has a cpu reading. *)
Lemma psutil_read_cpu_usage (h : psutil) (d : metrics_dict) :
  psutil_read h = Ok d -> is_Some (md_float d !! "cpu_usage").
Proof.
  unfold psutil_read, result_bind.
  destruct (cpu_percent h) as [cpu|]; [|done].
  destruct (virtual_memory h) as [mem|]; [|done].
  destruct (disk_usage h) as [disk|]; [|done].
  destruct (net_io_counters h) as [net|]; [|done].
  intros [= <-]. simpl. rewrite lookup_insert_eq. by eexists.
Qed.

(** The [finally] block runs to its end: both limits are set and are numbers
    (so neither comparison raises TypeError), and the end sample was read or
    the cpu limit is not negative (so the cpu check cannot hit the missing
    key). *)
Definition finally_safe (env : monitor_env) (st : state) : Prop :=
  exists cpu_limit response_limit,
    thresholds st !! "cpu" = Some (JNumber cpu_limit) /\
    thresholds st !! "response_time" = Some (JNumber response_limit) /\
    ((exists d, psutil_read (psutil_end env) = Ok d) \/ (0 <= cpu_limit)%Q).

Lemma finally_safe_cpu_item (env : monitor_env) (cpu_limit : Q) :
  (exists d, psutil_read (psutil_end env) = Ok d) \/ (0 <= cpu_limit)%Q ->
  cpu_breached cpu_limit env = true ->
  is_Some (md_float (snapshot (psutil_end env)) !! "cpu_usage").
Proof.
  unfold cpu_breached, snapshot. intros Hsafe Hbreach.
  destruct (psutil_read (psutil_end env)) as [d|e] eqn:Hread.
  - by eapply psutil_read_cpu_usage.
  - destruct Hsafe as [[d [=]]|Hlimit].
    rewrite dict_get_empty in Hbreach. apply Qlt_bool_iff in Hbreach.
    exfalso. exact (Qlt_not_le _ _ Hbreach Hlimit).
Qed.

(** An invocation whose [finally] block is safe: the caller gets the body's
    own outcome, and the store gets the exception record (when the body
    raised), the warnings, and one metric row. *)
Lemma monitor_function_safe {T} (function_name : string) (api_key : option string)
    (env : monitor_env) (body : M T) (st st1 : state) (r : result T)
    (cpu_limit response_limit : Q) :
  body st = (r, st1) ->
  thresholds st1 !! "cpu" = Some (JNumber cpu_limit) ->
  thresholds st1 !! "response_time" = Some (JNumber response_limit) ->
  (exists d, psutil_read (psutil_end env) = Ok d) \/ (0 <= cpu_limit)%Q ->
  monitor_function format_2f true function_name api_key env body st =
  (r,
   {| db := finally_db format_2f function_name api_key env cpu_limit response_limit
              (match r with
               | Ok _ => db st1
               | Raise e => db (after_except function_name api_key env e st1)
               end);
      thresholds := thresholds st1 |}).
Proof.
  intros Hbody Hcpu Hrt Hsafe.
  rewrite monitor_function_unfold, Hbody.
  destruct r as [a|e].
  - by rewrite (monitor_finally_run _ _ _ _ _ cpu_limit response_limit)
      by eauto using finally_safe_cpu_item.
  - by rewrite (monitor_finally_run _ _ _ _ _ cpu_limit response_limit)
      by eauto using finally_safe_cpu_item.
Qed.

(** Whatever happens, the wrapper leaves the thresholds as the body left
    them. *)
Lemma monitor_finally_thresholds (function_name : string) (api_key : option string)
    (env : monitor_env) (st : state) :
  thresholds (snd (monitor_finally format_2f true function_name api_key env st)) = thresholds st.
Proof.
  unfold monitor_finally, bind, lift, get_thresholds, when, ret.
  rewrite get_system_metrics_ok. unfold thresholds_item, dict_item.
  destruct (thresholds st !! "cpu") as [cl|] eqn:Hcpu; [|done].
  destruct (py_gt _ _ cl) as [[|]|?]; [| |done].
  - destruct (md_float _ !! "cpu_usage"); [|done].
    rewrite log_error_run. cbv beta iota. simpl thresholds.
    destruct (thresholds st !! "response_time") as [rl|]; [|done].
    destruct (py_gt _ _ rl) as [[|]|?]; [by rewrite log_error_run|done|done].
  - cbv beta iota.
    destruct (thresholds st !! "response_time") as [rl|]; [|done].
    destruct (py_gt _ _ rl) as [[|]|?]; [by rewrite log_error_run|done|done].
Qed.

Lemma monitor_function_thresholds {T} (function_name : string) (api_key : option string)
    (env : monitor_env) (body : M T) (st : state) :
  thresholds (snd (monitor_function format_2f true function_name api_key env body st))
  = thresholds (snd (body st)).
Proof.
  rewrite monitor_function_unfold.
  destruct (body st) as [[a|e] st1]; simpl.
  - pose proof (monitor_finally_thresholds function_name api_key env st1) as Hth.
    by destruct (monitor_finally _ _ _ _ _ st1) as [[[]|e'] st2].
  - pose proof (monitor_finally_thresholds function_name api_key env
                  (after_except function_name api_key env e st1)) as Hth.
    by destruct (monitor_finally _ _ _ _ _ _) as [[[]|e'] st2].
Qed.

(** The [finally] block and the primary key: it keeps the invariant, and
    raising or not it adds at most one metric row. *)
Lemma monitor_finally_wf (function_name : string) (api_key : option string)
    (env : monitor_env) (st : state) :
  metrics_wf (db st) ->
  metrics_wf (db (snd (monitor_finally format_2f true function_name api_key env st))).
Proof.
  intros Hwf.
  unfold monitor_finally, bind, lift, get_thresholds, when, ret.
  rewrite get_system_metrics_ok. unfold thresholds_item, dict_item.
  destruct (thresholds st !! "cpu") as [cl|] eqn:Hcpu; [|done].
  destruct (py_gt _ _ cl) as [[|]|?]; [| |done].
  - destruct (md_float _ !! "cpu_usage"); [|done].
    rewrite log_error_run. cbv beta iota. simpl thresholds.
    destruct (thresholds st !! "response_time") as [rl|]; [|by apply save_error_wf].
    destruct (py_gt _ _ rl) as [[|]|?].
    + rewrite log_error_run. simpl. by repeat first [apply save_metric_wf|apply save_error_wf].
    + simpl. by repeat first [apply save_metric_wf|apply save_error_wf].
    + simpl. by apply save_error_wf.
  - cbv beta iota.
    destruct (thresholds st !! "response_time") as [rl|]; [|done].
    destruct (py_gt _ _ rl) as [[|]|?].
    + rewrite log_error_run. simpl. by repeat first [apply save_metric_wf|apply save_error_wf].
    + simpl. by repeat first [apply save_metric_wf|apply save_error_wf].
    + done.
Qed.

Lemma monitor_function_wf {T} (function_name : string) (api_key : option string)
    (env : monitor_env) (body : M T) (st : state) :
  metrics_wf (db (snd (body st))) ->
  metrics_wf (db (snd (monitor_function format_2f true function_name api_key env body st))).
Proof.
  rewrite monitor_function_unfold.
  destruct (body st) as [[a|e] st1]; simpl; intros Hwf.
  - pose proof (monitor_finally_wf function_name api_key env st1 Hwf) as Hfin.
    by destruct (monitor_finally _ _ _ _ _ st1) as [[[]|e'] st2].
  - pose proof (monitor_finally_wf function_name api_key env
                  (after_except function_name api_key env e st1)) as Hfin.
    destruct (monitor_finally _ _ _ _ _ _) as [[[]|e'] st2]; apply Hfin; by apply save_error_wf.
Qed.

End WrapperFacts.

(** ** Requests one after the other *)

(** A request the statements below cover: its body leaves the metrics table
    alone, its [finally] block is safe in the state the body leaves, and the
    wall clock did not step back between the two [time.time()] readings. *)
Definition call_admissible (c : call) (st : state) : Prop :=
  metrics (db (snd (call_body c st))) = metrics (db st) /\
  finally_safe (call_env c) (snd (call_body c st)) /\
  (time_start (call_env c) <= time_end (call_env c))%Q.

Fixpoint calls_admissible `{U : CaseMapping} (format_2f : Q -> string) (cs : list call)
    (st : state) : Prop :=
  match cs with
  | [] => True
  | c :: cs' => call_admissible c st /\ calls_admissible format_2f cs' (snd (run_call format_2f c st))
  end.

(** A request that breaches no threshold cannot hit the missing key. *)
Lemma no_breach_finally_safe (env : monitor_env) (st : state) (cpu_limit response_limit : Q) :
  thresholds st !! "cpu" = Some (JNumber cpu_limit) ->
  thresholds st !! "response_time" = Some (JNumber response_limit) ->
  cpu_breached cpu_limit env = false ->
  finally_safe env st.
Proof.
  intros Hcpu Hrt Hquiet. exists cpu_limit, response_limit. repeat split; [done..|].
  unfold cpu_breached, snapshot in Hquiet.
  destruct (psutil_read (psutil_end env)) as [d|e]; [left; by eexists|right].
  rewrite dict_get_empty in Hquiet. by apply Qlt_bool_false_iff in Hquiet.
Qed.

(** The metric row an admissible request appends. *)
Lemma run_call_admissible `{U : CaseMapping} (format_2f : Q -> string) (c : call) (st : state) :
  call_admissible c st ->
  metrics (db (snd (run_call format_2f c st)))
  = metrics (db st) ++
    [ {| mr_id := metrics_seq (db (snd (call_body c st))) + 1;
         mr_metric := metric_of (call_name c) (call_key c) (call_env c);
         mr_created_at := metric_created_at (call_env c) |} ].
Proof.
  intros (Hframe & (cl & rl & Hcpu & Hrt & Hsafe) & _).
  unfold run_call.
  destruct (call_body c st) as [r st1] eqn:Hbody. simpl in *.
  rewrite (monitor_function_safe format_2f _ _ _ _ st st1 r cl rl) by done.
  cbn [snd db]. rewrite finally_db_metrics. by destruct r; rewrite <- Hframe.
Qed.

(** C1, as amended.  Over requests served one after the other, each with a
    body that leaves the metrics table alone, a clock that does not step back
    between its two readings, and a [finally] block that runs to its end
    (the cpu and response time limits are numbers when it starts, and the end
    sample was read or the cpu limit is not negative): the metrics table
    grows by exactly one row per request, whether the body returned or
    raised, and the row of each request carries its function name, the
    status "completed" and the execution time [end - start], which is not
    negative. *)
Theorem monitor_function_one_metric_per_call `{U : CaseMapping} (format_2f : Q -> string)
    (cs : list call) (st : state) :
  calls_admissible format_2f cs st ->
  exists rows,
    metrics (db (run_calls format_2f cs st)) = metrics (db st) ++ rows /\
    Forall2 (fun c r =>
               pm_function_name (mr_metric r) = call_name c /\
               pm_status (mr_metric r) = "completed" /\
               pm_execution_time (mr_metric r)
                 = (time_end (call_env c) - time_start (call_env c))%Q /\
               (0 <= pm_execution_time (mr_metric r))%Q)
            cs rows.
Proof.
  revert st. induction cs as [|c cs IH]; intros st Hadm.
  - exists []. split; [by rewrite app_nil_r|constructor].
  - destruct Hadm as [Hc Hcs].
    destruct (IH _ Hcs) as (rows & Hrows & Hall).
    eexists (_ :: rows). split.
    + simpl. rewrite Hrows, (run_call_admissible format_2f c st Hc).
      by rewrite <- (assoc_L (++)).
    + constructor; [|done]. simpl. repeat split.
      destruct Hc as (_ & _ & Hclock).
      unfold Qminus. by apply Qle_minus_iff in Hclock.
Qed.

Lemma run_calls_length `{U : CaseMapping} (format_2f : Q -> string) (cs : list call) (st : state) :
  calls_admissible format_2f cs st ->
  length (metrics (db (run_calls format_2f cs st)))
  = (length (metrics (db st)) + length cs)%nat.
Proof.
  revert st. induction cs as [|c cs IH]; intros st Hadm; simpl; [lia|].
  destruct Hadm as [Hc Hcs].
  rewrite (IH _ Hcs), (run_call_admissible format_2f c st Hc), length_app. simpl. lia.
Qed.

(** *** Scenarios *)

(** A formatter for the scenarios; no statement depends on the digits. *)
Definition format_any : Q -> string := fun _ => "0.00".

(** An idle host. *)
Definition psutil_idle : psutil :=
  {| cpu_percent := Ok (12 # 1)%Q;
     virtual_memory := Ok (40 # 1)%Q;
     disk_usage := Ok (55 # 1)%Q;
     net_io_counters := Ok (1000, 2000) |}.

(** A host whose CPU reads [cpu] percent. *)
Definition psutil_cpu (cpu : Q) : psutil :=
  {| cpu_percent := Ok cpu;
     virtual_memory := Ok (40 # 1)%Q;
     disk_usage := Ok (55 # 1)%Q;
     net_io_counters := Ok (1000, 2000) |}.

Definition log_env_on (h : psutil) : log_env :=
  {| le_psutil := h;
     le_now := "2025-01-15T10:00:00.250000";
     le_traceback := "No traceback available";
     le_created_at := 1736935200 |}.

(** A quarter of a second on a host that answers [h] to every sample. *)
Definition env_on (h : psutil) : monitor_env :=
  {| time_start := (1736935200 # 1)%Q;
     time_end := (6947740801 # 4)%Q;
     psutil_start := h;
     psutil_end := h;
     env_exception := log_env_on h;
     env_cpu := log_env_on h;
     env_slow := log_env_on h;
     metric_now := "2025-01-15T10:00:00.250000";
     metric_created_at := 1736935200 |}.

(** The same on a host whose clock was set back by a second in between. *)
Definition env_clock_back : monitor_env :=
  {| time_start := (1736935200 # 1)%Q;
     time_end := (1736935199 # 1)%Q;
     psutil_start := psutil_idle;
     psutil_end := psutil_idle;
     env_exception := log_env_on psutil_idle;
     env_cpu := log_env_on psutil_idle;
     env_slow := log_env_on psutil_idle;
     metric_now := "2025-01-15T09:59:59.000000";
     metric_created_at := 1736935199 |}.

(** A body that returns, and one that raises [ValueError('boom')]. *)
Definition body_returns : M unit := ret tt.
Definition body_raises : M unit := fun st => (Raise (Exn "ValueError" "boom"), st).

Definition request (env : monitor_env) (body : M unit) : call :=
  {| call_name := "get_metrics"; call_key := Some "pm_key";
     call_env := env; call_body := body |}.

Lemma monitor_function_one_metric_per_call_witness :
  exists rows,
    metrics (db (run_calls format_any
                   [request (env_on psutil_idle) body_returns;
                    request (env_on psutil_idle) body_raises] initial_state))
      = metrics (db initial_state) ++ rows /\
    Forall2 (fun c r =>
               pm_function_name (mr_metric r) = call_name c /\
               pm_status (mr_metric r) = "completed" /\
               pm_execution_time (mr_metric r)
                 = (time_end (call_env c) - time_start (call_env c))%Q /\
               (0 <= pm_execution_time (mr_metric r))%Q)
            [request (env_on psutil_idle) body_returns;
             request (env_on psutil_idle) body_raises] rows.
Proof.
  apply (monitor_function_one_metric_per_call format_any
           [request (env_on psutil_idle) body_returns;
            request (env_on psutil_idle) body_raises] initial_state).
  simpl. repeat split.
  - exists (80 # 1)%Q, (5 # 1)%Q. repeat split. left. eexists. reflexivity.
  - vm_compute. discriminate.
  - exists (80 # 1)%Q, (5 # 1)%Q. repeat split. left. eexists. reflexivity.
  - vm_compute. discriminate.
Defined.

(** The monitor after [POST /api/thresholds] with [{"cpu": "high"}] was served
    on an idle host. *)
Definition state_string_limit : state :=
  snd (manage_thresholds format_any (Some "pm_key") (env_on psutil_idle)
         {[ "cpu" := JString "high" ]} initial_state).

(** C1, the claim as stated fails.  When the wall clock is set back between
    the two [time.time()] readings the persisted execution time is negative.
    And once the cpu limit is the string "high", a request on an idle host
    whose body returns raises TypeError from the limit check and persists no
    metric row. *)
Lemma monitor_function_negative_execution_time :
  (exists row,
     metrics (db (snd (run_call format_any (request env_clock_back body_returns)
                         initial_state)))
       = [row] /\
     pm_status (mr_metric row) = "completed" /\
     (pm_execution_time (mr_metric row) < 0)%Q) /\
  thresholds state_string_limit !! "cpu" = Some (JString "high") /\
  run_call format_any (request (env_on psutil_idle) body_returns) state_string_limit
  = (Raise (Exn "TypeError" "'>' not supported between instances of 'float' and 'str'"),
     state_string_limit) /\
  metrics (db state_string_limit) = [].
Proof.
  split; [|by repeat split].
  eexists. split; [reflexivity|]. split; [reflexivity|]. by vm_compute.
Qed.

(** ** Exceptions of the body and threshold warnings *)

Section WrapperOutcomes.
Context `{U : CaseMapping}.
Variable format_2f : Q -> string.

Lemma warnings_levels (function_name : string) (api_key : option string)
    (env : monitor_env) (cpu_limit response_limit : Q) :
  Forall (fun w => el_level w = "WARNING")
    (warnings format_2f function_name api_key env cpu_limit response_limit).
Proof.
  unfold warnings.
  destruct (cpu_breached cpu_limit env), (response_breached response_limit env); simpl;
    repeat (apply Forall_cons_2; [reflexivity|]); apply Forall_nil_2.
Qed.

Ltac warning_cases :=
  split;
  [ let w := fresh "w" in
    let Hw := fresh "Hw" in
    let Hty := fresh "Hty" in
    intros (w & Hw & Hty);
    repeat (apply elem_of_cons in Hw as [->|Hw]);
    try (by apply elem_of_nil in Hw); try reflexivity;
    cbn in Hty; discriminate
  | let Hb := fresh "Hb" in
    intros Hb;
    first [ discriminate
          | eexists; split; [by left|reflexivity]
          | eexists; split; [right; by left|reflexivity] ] ].

Lemma warnings_cpu (function_name : string) (api_key : option string)
    (env : monitor_env) (cpu_limit response_limit : Q) :
  (exists w, w ∈ warnings format_2f function_name api_key env cpu_limit response_limit /\
             el_error_type w = "HIGH_CPU_USAGE")
  <-> cpu_breached cpu_limit env = true.
Proof.
  unfold warnings.
  destruct (cpu_breached cpu_limit env), (response_breached response_limit env); simpl;
    warning_cases.
Qed.

Lemma warnings_slow (function_name : string) (api_key : option string)
    (env : monitor_env) (cpu_limit response_limit : Q) :
  (exists w, w ∈ warnings format_2f function_name api_key env cpu_limit response_limit /\
             el_error_type w = "SLOW_RESPONSE")
  <-> response_breached response_limit env = true.
Proof.
  unfold warnings.
  destruct (cpu_breached cpu_limit env), (response_breached response_limit env); simpl;
    warning_cases.
Qed.

(** When the [finally] block is safe, a body that raises [e] makes the
    wrapper raise [e], and the errors table gains the ERROR record of [e]
    followed by the WARNING records of the breached thresholds. *)
Lemma monitor_function_reraises {T} (function_name : string) (api_key : option string)
    (env : monitor_env) (body : M T) (st st1 : state) (e : exn)
    (cpu_limit response_limit : Q) :
  body st = (Raise e, st1) ->
  thresholds st1 !! "cpu" = Some (JNumber cpu_limit) ->
  thresholds st1 !! "response_time" = Some (JNumber response_limit) ->
  (exists d, psutil_read (psutil_end env) = Ok d) \/ (0 <= cpu_limit)%Q ->
  let out := monitor_function format_2f true function_name api_key env body st in
  fst out = Raise e /\
  er_error <$> errors (db (snd out))
    = (er_error <$> errors (db st1))
      ++ [exception_error function_name api_key env e]
      ++ warnings format_2f function_name api_key env cpu_limit response_limit /\
  el_level (exception_error function_name api_key env e) = "ERROR" /\
  el_error_type (exception_error function_name api_key env e) = str_upper (exn_type e) /\
  el_message (exception_error function_name api_key env e) = exn_str e /\
  Forall (fun w => el_level w = "WARNING")
    (warnings format_2f function_name api_key env cpu_limit response_limit).
Proof.
  intros Hbody Hcpu Hrt Hsafe out. subst out.
  rewrite (monitor_function_safe format_2f _ _ _ _ st st1 (Raise e) cpu_limit response_limit)
    by done.
  cbn [fst snd db]. rewrite finally_db_errors. simpl errors.
  rewrite fmap_app, <- (assoc_L (++)). repeat split.
  apply warnings_levels.
Qed.

(** When the [finally] block is safe, it logs HIGH_CPU_USAGE exactly when
    the end sample's cpu_usage is above the cpu limit and SLOW_RESPONSE
    exactly when the execution time is above the response time limit, both
    at level WARNING, and nothing else. *)
Lemma monitor_function_warnings {T} (function_name : string) (api_key : option string)
    (env : monitor_env) (body : M T) (st st1 : state) (a : T)
    (cpu_limit response_limit : Q) :
  body st = (Ok a, st1) ->
  thresholds st1 !! "cpu" = Some (JNumber cpu_limit) ->
  thresholds st1 !! "response_time" = Some (JNumber response_limit) ->
  (exists d, psutil_read (psutil_end env) = Ok d) \/ (0 <= cpu_limit)%Q ->
  let out := monitor_function format_2f true function_name api_key env body st in
  let logged := warnings format_2f function_name api_key env cpu_limit response_limit in
  er_error <$> errors (db (snd out)) = (er_error <$> errors (db st1)) ++ logged /\
  Forall (fun w => el_level w = "WARNING") logged /\
  ((exists w, w ∈ logged /\ el_error_type w = "HIGH_CPU_USAGE")
   <-> (cpu_limit < dict_get (snapshot (psutil_end env)) "cpu_usage")%Q) /\
  ((exists w, w ∈ logged /\ el_error_type w = "SLOW_RESPONSE")
   <-> (response_limit < time_end env - time_start env)%Q).
Proof.
  intros Hbody Hcpu Hrt Hsafe out logged. subst out logged.
  rewrite (monitor_function_safe format_2f _ _ _ _ st st1 (Ok a) cpu_limit response_limit)
    by done.
  cbn [snd db]. rewrite finally_db_errors. split; [done|].
  split; [apply warnings_levels|].
  rewrite <- (Qlt_bool_iff cpu_limit), <- (Qlt_bool_iff response_limit).
  split; [apply warnings_cpu|apply warnings_slow].
Qed.

End WrapperOutcomes.

(** Threshold cpu = 80 (the default): a sample of 85 logs one HIGH_CPU_USAGE
    warning, a sample of 75 logs nothing. *)
Example monitor_function_cpu_85 `{U : CaseMapping} (format_2f : Q -> string) :
  let out := run_call format_2f (request (env_on (psutil_cpu (85 # 1)%Q)) body_returns)
               initial_state in
  (fun r => (el_level (er_error r), el_error_type (er_error r))) <$> errors (db (snd out))
  = [ ("WARNING", "HIGH_CPU_USAGE") ].
Proof. reflexivity. Qed.

Example monitor_function_cpu_75 `{U : CaseMapping} (format_2f : Q -> string) :
  let out := run_call format_2f (request (env_on (psutil_cpu (75 # 1)%Q)) body_returns)
               initial_state in
  errors (db (snd out)) = [].
Proof. reflexivity. Qed.

(** *** The missing cpu reading *)

(** The body of [POST /api/thresholds] with [{"cpu": -1}]. *)
Definition negative_cpu_limit : gmap string json_value := {[ "cpu" := JNumber (-1 # 1) ]}.

(** The monitor after that request was served on an idle host. *)
Definition state_negative_limit `{U : CaseMapping} (format_2f : Q -> string) : state :=
  snd (manage_thresholds format_2f (Some "pm_key") (env_on psutil_idle)
         negative_cpu_limit initial_state).

(** C2.  With the cpu limit set to -1 and psutil failing, a body that raises
    [ValueError('boom')] makes the wrapper raise [KeyError('cpu_usage')]
    instead: the ERROR record of the [ValueError] is logged, the [finally]
    block raises on the missing cpu reading, and no metric is saved. *)
Theorem monitor_function_keyerror_replaces_failure `{U : CaseMapping} (format_2f : Q -> string) :
  let st := state_negative_limit format_2f in
  let env := env_on psutil_denied in
  let out := monitor_function format_2f true "get_metrics" (Some "pm_key") env body_raises st in
  fst out = Raise (Exn "KeyError" "'cpu_usage'") /\
  fst out <> Raise (Exn "ValueError" "boom") /\
  er_error <$> errors (db (snd out))
    = (er_error <$> errors (db st))
      ++ [exception_error "get_metrics" (Some "pm_key") env (Exn "ValueError" "boom")] /\
  metrics (db (snd out)) = metrics (db st).
Proof.
  intros st env out.
  assert (Hout : out = (Raise (Exn "KeyError" "'cpu_usage'"),
                        after_except "get_metrics" (Some "pm_key") env
                          (Exn "ValueError" "boom") st)).
  { subst out. rewrite monitor_function_unfold. unfold body_raises.
    by rewrite (monitor_finally_keyerror _ _ _ _ _ (-1 # 1)%Q). }
  rewrite Hout. cbn [fst snd].
  split; [reflexivity|]. split; [discriminate|]. split; [|reflexivity].
  unfold after_except. cbn [db errors save_error]. by rewrite fmap_app.
Qed.

(** Six seconds on a host where psutil fails. *)
Definition env_slow_sampler_down : monitor_env :=
  {| time_start := (1736935200 # 1)%Q;
     time_end := (1736935206 # 1)%Q;
     psutil_start := psutil_denied;
     psutil_end := psutil_denied;
     env_exception := log_env_on psutil_denied;
     env_cpu := log_env_on psutil_denied;
     env_slow := log_env_on psutil_denied;
     metric_now := "2025-01-15T10:00:06.000000";
     metric_created_at := 1736935206 |}.

(** C4.  With the cpu limit set to -1 and psutil failing, the end sample's
    cpu_usage reads 0, which is above the limit, and the six seconds of
    execution are above the response time limit of 5; yet neither
    HIGH_CPU_USAGE nor SLOW_RESPONSE is logged: the cpu check raises
    [KeyError('cpu_usage')] while it builds its message, the response time
    check is skipped, and the store is left as it was. *)
Theorem monitor_function_cpu_check_keyerror `{U : CaseMapping} (format_2f : Q -> string) :
  let st := state_negative_limit format_2f in
  let env := env_slow_sampler_down in
  let out := monitor_function format_2f true "get_metrics" (Some "pm_key") env body_returns st in
  thresholds st !! "cpu" = Some (JNumber (-1 # 1)) /\
  thresholds st !! "response_time" = Some (JNumber (5 # 1)) /\
  dict_get (snapshot (psutil_end env)) "cpu_usage" = 0%Q /\
  cpu_breached (-1 # 1)%Q env = true /\
  response_breached (5 # 1)%Q env = true /\
  out = (Raise (Exn "KeyError" "'cpu_usage'"), st).
Proof.
  intros st env out.
  do 5 (split; [reflexivity|]).
  subst out. rewrite monitor_function_unfold. unfold body_returns, ret.
  by rewrite (monitor_finally_keyerror _ _ _ _ _ (-1 # 1)%Q).
Qed.

(** *** A failing sampler and the monitored call *)

(** C9.  A failure of the psutil calls never leaves the sampler: it returns
    the empty dict, of which every read with default 0 yields 0.  But the
    monitored call is not safe from it.  Take a call whose body returned
    normally and whose end sample failed, with numbers as cpu and response
    time limits.  With a cpu limit of at least 0 the caller gets the body's
    result and the metric row is saved with a cpu usage of 0.  With a
    negative cpu limit the default 0 is above the limit, the subscript
    [end_metrics['cpu_usage']] of the warning's message raises KeyError, and
    the caller gets that KeyError instead of the body's result; nothing is
    written. *)
Theorem sampling_failure_aborts_monitored_call {T} `{U : CaseMapping}
    (format_2f : Q -> string) (function_name : string) (api_key : option string)
    (env : monitor_env) (body : M T) (st st1 : state) (a : T) (e : exn)
    (cpu_limit response_limit : Q) :
  psutil_read (psutil_end env) = Raise e ->
  body st = (Ok a, st1) ->
  thresholds st1 !! "cpu" = Some (JNumber cpu_limit) ->
  thresholds st1 !! "response_time" = Some (JNumber response_limit) ->
  let out := monitor_function format_2f true function_name api_key env body st in
  let end_metrics := snapshot (psutil_end env) in
  (_get_system_metrics (psutil_end env) = Ok end_metrics /\
   end_metrics = empty_dict /\
   (forall k, dict_get end_metrics k = 0%Q) /\
   dict_item end_metrics "cpu_usage" = Raise (Exn "KeyError" "'cpu_usage'")) /\
  ((0 <= cpu_limit)%Q ->
   fst out = Ok a /\
   metrics (db (snd out))
   = metrics (db st1) ++
     [ {| mr_id := metrics_seq (db st1) + 1;
          mr_metric := metric_of function_name api_key env;
          mr_created_at := metric_created_at env |} ] /\
   pm_cpu_usage (metric_of function_name api_key env) = 0%Q) /\
  ((cpu_limit < 0)%Q ->
   out = (Raise (Exn "KeyError" "'cpu_usage'"), st1)).
Proof.
  intros Hfail Hbody Hcpu Hrt out end_metrics.
  assert (Hempty : end_metrics = empty_dict) by (by eapply snapshot_failed).
  split; [|split].
  - split; [apply get_system_metrics_ok|]. split; [done|].
    rewrite Hempty. split; [apply dict_get_empty|reflexivity].
  - intros Hlimit. subst out.
    rewrite (monitor_function_safe format_2f _ _ _ _ st st1 (Ok a) cpu_limit response_limit)
      by (done || by right).
    cbn [fst snd db]. split; [done|]. split; [apply finally_db_metrics|].
    unfold metric_of. cbn [pm_cpu_usage]. fold end_metrics. rewrite Hempty.
    apply dict_get_empty.
  - intros Hneg. subst out. rewrite monitor_function_unfold, Hbody.
    rewrite (monitor_finally_keyerror format_2f _ _ _ _ cpu_limit); [done|done| |].
    + unfold cpu_breached. fold end_metrics. rewrite Hempty, dict_get_empty.
      by apply Qlt_bool_iff.
    + fold end_metrics. by rewrite Hempty.
Qed.

(** The request of C4: cpu limit -1, psutil failing, a body that returns. *)
Lemma sampling_failure_aborts_monitored_call_witness :
  let st := state_negative_limit format_any in
  let env := env_on psutil_denied in
  _get_system_metrics (psutil_end env) = Ok empty_dict /\
  body_returns st = (Ok tt, st) /\
  monitor_function format_any true "get_metrics" (Some "pm_key") env body_returns st
  = (Raise (Exn "KeyError" "'cpu_usage'"), st).
Proof.
  intros st env.
  destruct (sampling_failure_aborts_monitored_call format_any "get_metrics" (Some "pm_key")
              env body_returns st st tt
              (Exn "PermissionError" "[Errno 13] Permission denied: '/'")
              (-1 # 1)%Q (5 # 1)%Q) as ((Hsampler & _) & _ & Habort); [reflexivity..|].
  split; [exact Hsampler|]. split; [reflexivity|]. by apply Habort.
Defined.

(** ** Threshold updates *)

(** C10.  After [POST /api/thresholds] with a JSON object, whether or not the
    wrapper around it raises: a key of the object has the object's value, and
    every other key has the value it had before; no key is removed. *)
Theorem manage_thresholds_updates_given_keys `{U : CaseMapping} (format_2f : Q -> string)
    (api_key : option string) (env : monitor_env) (new_thresholds : gmap string json_value)
    (st : state) (k : string) :
  let st' := snd (manage_thresholds format_2f api_key env new_thresholds st) in
  thresholds st' !! k
    = match new_thresholds !! k with
      | Some v => Some v
      | None => thresholds st !! k
      end /\
  (is_Some (thresholds st !! k) -> is_Some (thresholds st' !! k)).
Proof.
  intros st'. subst st'. unfold manage_thresholds.
  rewrite monitor_function_thresholds. cbn.
  split; [apply dict_update_lookup|apply dict_update_keeps_keys].
Qed.

Example manage_thresholds_cpu_only `{U : CaseMapping} (format_2f : Q -> string) :
  let st' := snd (manage_thresholds format_2f (Some "pm_key") (env_on psutil_idle)
                    {[ "cpu" := JNumber (95 # 1) ]} initial_state) in
  thresholds st' !! "cpu" = Some (JNumber (95 # 1)) /\
  thresholds st' !! "memory" = Some (JNumber (80 # 1)) /\
  thresholds st' !! "disk" = Some (JNumber (90 # 1)) /\
  thresholds st' !! "response_time" = Some (JNumber (5 # 1)).
Proof. repeat split. Qed.

(** ** The retention cap *)

(** Code that keeps the primary key of [metrics] intact. *)
Definition keeps_wf {A} (m : M A) : Prop :=
  forall st, metrics_wf (db st) -> metrics_wf (db (snd (m st))).

Lemma keeps_wf_bind {A B} (m : M A) (k : A -> M B) :
  keeps_wf m -> (forall a, keeps_wf (k a)) -> keeps_wf (bind m k).
Proof.
  intros Hm Hk st Hwf. unfold bind.
  specialize (Hm st Hwf).
  destruct (m st) as [[a|e] st']; [|done]. by apply Hk.
Qed.

Lemma keeps_wf_lift {A} (r : result A) : keeps_wf (lift r).
Proof. by intros st Hwf. Qed.

Lemma keeps_wf_get_thresholds : keeps_wf get_thresholds.
Proof. by intros st Hwf. Qed.

Lemma keeps_wf_when (c : bool) (m : M unit) : keeps_wf m -> keeps_wf (when c m).
Proof. intros Hm. destruct c; [exact Hm|by intros st Hwf]. Qed.

Lemma keeps_wf_modify_db (f : database -> database) :
  (forall d, metrics_wf d -> metrics_wf (f d)) -> keeps_wf (modify_db f).
Proof. intros Hf st Hwf. by apply Hf. Qed.

Lemma keeps_wf_log_error (app_context : bool) (env : log_env)
    (error_type message function_name level : string) (api_key : option string) :
  keeps_wf (log_error app_context env error_type message function_name level api_key).
Proof.
  intros st Hwf. destruct app_context.
  - rewrite log_error_run. by apply save_error_wf.
  - by rewrite log_error_no_context.
Qed.

Lemma keeps_wf_try_except_M {A} (body : M A) (handler : exn -> M A) :
  keeps_wf body -> (forall e, keeps_wf (handler e)) -> keeps_wf (try_except_M body handler).
Proof.
  intros Hbody Hhandler st Hwf. unfold try_except_M.
  specialize (Hbody st Hwf).
  destruct (body st) as [[a|e] st']; [done|]. by apply Hhandler.
Qed.

Section Cap.
Context `{E : SqlEngine} `{U : CaseMapping}.
Variable format_2f : Q -> string.
Variable MAX_HISTORY_RECORDS : Z.

(** Code after which, when it returns, the cap holds. *)
Definition restores_cap (m : M unit) : Prop :=
  forall st st', metrics_wf (db st) -> m st = (Ok tt, st') ->
    (length (metrics (db st')) <= Z.to_nat MAX_HISTORY_RECORDS)%nat.

Lemma restores_cap_bind {A} (m : M A) (k : A -> M unit) :
  keeps_wf m -> (forall a, restores_cap (k a)) -> restores_cap (bind m k).
Proof.
  intros Hm Hk st st' Hwf. unfold bind.
  specialize (Hm st Hwf).
  destruct (m st) as [[a|e] st1]; [|done]. by apply Hk.
Qed.

Lemma restores_cap_cleanup :
  0 <= MAX_HISTORY_RECORDS ->
  restores_cap (modify_db (_cleanup_old_metrics MAX_HISTORY_RECORDS)).
Proof.
  intros Hmax st st' [Hnd _] [= <-]. by apply cleanup_length.
Qed.

Ltac keeps_wf_steps :=
  repeat first
    [ apply keeps_wf_lift | apply keeps_wf_get_thresholds | apply keeps_wf_log_error
    | apply keeps_wf_when | apply keeps_wf_bind; [|intros ?] ].

Lemma background_try_keeps_wf (env : background_env) :
  keeps_wf (background_try format_2f MAX_HISTORY_RECORDS env).
Proof.
  unfold background_try. keeps_wf_steps.
  apply keeps_wf_modify_db. intros d. apply cleanup_wf.
Qed.

Lemma background_cycle_keeps_wf (env : background_env) :
  keeps_wf (background_cycle format_2f MAX_HISTORY_RECORDS env).
Proof.
  apply keeps_wf_try_except_M; [apply background_try_keeps_wf|].
  intros e. apply keeps_wf_log_error.
Qed.

(** A turn of the loop whose [try] block runs to its end leaves at most
    MAX_HISTORY_RECORDS metric rows. *)
Lemma background_try_restores_cap (env : background_env) :
  0 <= MAX_HISTORY_RECORDS ->
  restores_cap (background_try format_2f MAX_HISTORY_RECORDS env).
Proof.
  intros Hmax. unfold background_try.
  repeat (apply restores_cap_bind; [keeps_wf_steps|intros ?]).
  by apply restores_cap_cleanup.
Qed.

(** A request whose body keeps the primary key intact. *)
Definition event_ok (ev : event) : Prop :=
  match ev with
  | EvRequest c => keeps_wf (call_body c)
  | EvBackground _ => True
  end.

Lemma run_event_wf (ev : event) (st : state) :
  event_ok ev -> metrics_wf (db st) ->
  metrics_wf (db (run_event format_2f MAX_HISTORY_RECORDS ev st)).
Proof.
  destruct ev as [c|env]; simpl; intros Hok Hwf.
  - apply monitor_function_wf. by apply Hok.
  - by apply background_cycle_keeps_wf.
Qed.

Lemma run_events_wf (evs : list event) (st : state) :
  Forall event_ok evs -> metrics_wf (db st) ->
  metrics_wf (db (run_events format_2f MAX_HISTORY_RECORDS evs st)).
Proof.
  revert st. induction evs as [|ev evs IH]; intros st Hok Hwf; simpl; [done|].
  apply Forall_cons in Hok as [Hev Hevs].
  apply IH; [done|]. by apply run_event_wf.
Qed.

Lemma run_events_requests (cs : list call) (st : state) :
  run_events format_2f MAX_HISTORY_RECORDS (EvRequest <$> cs) st = run_calls format_2f cs st.
Proof.
  revert st. induction cs as [|c cs IH]; intros st; simpl; [done|]. apply IH.
Qed.

End Cap.

(** C6, as amended.  In every state the monitor reaches from its initial
    state through requests (with bodies that keep the primary key intact) and
    turns of the background loop, and for a non-negative
    MAX_HISTORY_RECORDS: the primary keys of the metric rows are distinct,
    running the eviction leaves at most MAX_HISTORY_RECORDS metric rows, and
    so does a turn of the background loop whose [try] block runs to its end.
    Between evictions the cap is not enforced. *)
Theorem eviction_restores_cap `{U : CaseMapping} `{E : SqlEngine} (format_2f : Q -> string)
    (MAX_HISTORY_RECORDS : Z) (evs : list event) :
  0 <= MAX_HISTORY_RECORDS ->
  Forall event_ok evs ->
  let st := run_events format_2f MAX_HISTORY_RECORDS evs initial_state in
  metrics_wf (db st) /\
  (length (metrics (_cleanup_old_metrics MAX_HISTORY_RECORDS (db st)))
     <= Z.to_nat MAX_HISTORY_RECORDS)%nat /\
  (forall env,
     fst (background_try format_2f MAX_HISTORY_RECORDS env st) = Ok tt ->
     (length (metrics (db (snd (background_cycle format_2f MAX_HISTORY_RECORDS env st))))
        <= Z.to_nat MAX_HISTORY_RECORDS)%nat).
Proof.
  intros Hmax Hok st.
  assert (Hwf : metrics_wf (db st)).
  { apply run_events_wf; [done|]. apply empty_database_wf. }
  split; [done|]. split.
  - apply cleanup_length; [done|]. apply Hwf.
  - intros env Hrun. unfold background_cycle, try_except_M.
    destruct (background_try format_2f MAX_HISTORY_RECORDS env st) as [r st'] eqn:Htry.
    simpl in Hrun. subst r. simpl.
    by eapply (background_try_restores_cap format_2f MAX_HISTORY_RECORDS env Hmax st st').
Qed.

(** One turn of the loop on an idle host. *)
Definition background_idle : background_env :=
  {| bg_psutil := psutil_idle;
     bg_env_cpu := log_env_on psutil_idle;
     bg_env_memory := log_env_on psutil_idle;
     bg_env_failure := log_env_on psutil_idle |}.

Lemma eviction_restores_cap_witness :
  let evs := [ EvRequest (request (env_on psutil_idle) body_returns);
               EvRequest (request (env_on psutil_idle) body_raises);
               EvBackground background_idle;
               EvRequest (request (env_on psutil_idle) body_returns) ] in
  let st := run_events (E := stable_engine) format_any 1 evs initial_state in
  metrics_wf (db st) /\
  (length (metrics (_cleanup_old_metrics (E := stable_engine) 1 (db st))) <= Z.to_nat 1)%nat /\
  (forall env,
     fst (background_try (E := stable_engine) format_any 1 env st) = Ok tt ->
     (length (metrics (db (snd (background_cycle (E := stable_engine) format_any 1 env st))))
        <= Z.to_nat 1)%nat).
Proof.
  apply (eviction_restores_cap (E := stable_engine) format_any 1
           [ EvRequest (request (env_on psutil_idle) body_returns);
             EvRequest (request (env_on psutil_idle) body_raises);
             EvBackground background_idle;
             EvRequest (request (env_on psutil_idle) body_returns) ]).
  - lia.
  - repeat (apply Forall_cons_2; [simpl; try done; by intros st Hwf|]). apply Forall_nil_2.
Defined.

(** After three requests and with a cap of one row, a turn of the loop on an
    idle host leaves the newest row. *)
Example background_cycle_idle_evicts :
  let st := run_calls format_any
              (replicate 3 (request (env_on psutil_idle) body_returns)) initial_state in
  let out := background_cycle (E := stable_engine) format_any 1 background_idle st in
  mr_id <$> metrics (db st) = [1; 2; 3] /\
  fst out = Ok tt /\
  mr_id <$> metrics (db (snd out)) = [1].
Proof. repeat split. Qed.

(** On a host above the cpu limit the turn ends otherwise: [log_error] has
    no application context, the handler's [log_error] has none either, and
    the exception leaves the loop with nothing logged and nothing evicted. *)
Example background_cycle_breach_leaves_loop `{E : SqlEngine} (format_2f : Q -> string)
    (MAX_HISTORY_RECORDS : Z) (st : state) :
  thresholds st = default_thresholds ->
  background_cycle format_2f MAX_HISTORY_RECORDS
    {| bg_psutil := psutil_busy;
       bg_env_cpu := log_env_on psutil_busy;
       bg_env_memory := log_env_on psutil_busy;
       bg_env_failure := log_env_on psutil_busy |} st
  = (Raise (Exn "RuntimeError" "Working outside of application context."), st).
Proof.
  destruct st as [d ths]. simpl. intros ->. reflexivity.
Qed.

(** Requests on an idle host with the default thresholds are admissible, as
    many as one likes. *)
Lemma idle_requests_admissible `{U : CaseMapping} (format_2f : Q -> string) (n : nat) (st : state) :
  thresholds st = default_thresholds ->
  calls_admissible format_2f (replicate n (request (env_on psutil_idle) body_returns)) st.
Proof.
  revert st. induction n as [|n IH]; intros st Hth; simpl; [done|]. split.
  - split; [done|]. split; [|by vm_compute].
    exists (80 # 1)%Q, (5 # 1)%Q. simpl. rewrite Hth.
    split; [reflexivity|]. split; [reflexivity|]. left. eexists. reflexivity.
  - apply IH. unfold run_call. by rewrite monitor_function_thresholds.
Qed.

(** Without a turn of the background loop in between, [n] requests leave [n]
    metric rows, whatever the cap. *)
Lemma requests_without_eviction `{U : CaseMapping} `{E : SqlEngine} (format_2f : Q -> string)
    (MAX_HISTORY_RECORDS : Z) (n : nat) :
  length (metrics (db (run_events format_2f MAX_HISTORY_RECORDS
                         (replicate n (EvRequest (request (env_on psutil_idle) body_returns)))
                         initial_state))) = n.
Proof.
  rewrite <- fmap_replicate, run_events_requests.
  rewrite run_calls_length by (by apply idle_requests_admissible).
  by rewrite length_replicate.
Qed.

(** C6, the claim as stated fails: with the default cap of 10000, after 10001
    requests and no turn of the background loop in between the store holds
    10001 metric rows. *)
Lemma metrics_exceed_cap_between_evictions :
  let st := run_events (E := stable_engine) format_any 10000
              (replicate (Z.to_nat 10001) (EvRequest (request (env_on psutil_idle) body_returns)))
              initial_state in
  Z.of_nat (length (metrics (db st))) = 10001 /\
  ~ (Z.of_nat (length (metrics (db st))) <= 10000).
Proof.
  cbv zeta. rewrite (requests_without_eviction (E := stable_engine) format_any 10000).
  rewrite Z2Nat.id by lia. split; [reflexivity|lia].
Qed.

(** * Further properties *)

(** ** Queries *)

Section MoreQueries.
Context `{E : SqlEngine} `{U : CaseMapping}.

(** Whatever LIMIT cuts off is no more recent than what it lets through. *)
Lemma sql_limit_cutoff {A} (key : A -> Z) (l : list A) (limit : Z) (x y : A) :
  x ∈ l ->
  x ∉ sql_limit limit (order_by_desc key l) ->
  y ∈ sql_limit limit (order_by_desc key l) ->
  key x <= key y.
Proof.
  unfold sql_limit. intros Hx Hout Hin.
  apply (order_by_desc_elem_of key) in Hx.
  destruct (limit <? 0); [done|].
  pose proof (order_by_desc_strongly_sorted key l) as Hss.
  rewrite <- (take_drop (Z.to_nat limit) (order_by_desc key l)) in Hss, Hx.
  apply StronglySorted_app in Hss as (Hcross & _ & _).
  apply elem_of_app in Hx as [?|Hdrop]; [done|].
  exact (Hcross y x Hin Hdrop).
Qed.

Lemma metrics_where_api_key (api_key : option string) (k : string) (r : metrics_row) :
  api_key = Some k -> k <> "" ->
  metrics_where api_key r = true -> pm_api_key (mr_metric r) = Some k.
Proof.
  intros -> Hk%str_truthy_iff. unfold metrics_where. rewrite Hk.
  destruct (pm_api_key (mr_metric r)) as [k'|]; [|done].
  intros Heq%String.eqb_eq. by subst.
Qed.

Lemma select_metrics_elem_of (d : database) (limit : Z) (api_key : option string)
    (r : metrics_row) :
  r ∈ select_metrics d limit api_key ->
  r ∈ metrics d /\ metrics_where api_key r = true.
Proof.
  unfold select_metrics. intros Hr%sql_limit_elem_of.
  apply order_by_desc_elem_of in Hr. by apply filter_elem_of.
Qed.

(** What the WHERE clause asks of a row. *)
Lemma metrics_where_iff (api_key : option string) (r : metrics_row) :
  metrics_where api_key r = true <->
  (forall k, api_key = Some k -> k <> "" -> pm_api_key (mr_metric r) = Some k).
Proof.
  split.
  - intros Hw k Hkey Hk. by eapply metrics_where_api_key.
  - intros Hkey. unfold metrics_where.
    destruct api_key as [k|]; [|done].
    destruct (str_truthy k) eqn:Hk; [|done].
    rewrite (Hkey k); [by apply String.eqb_eq|done|by apply str_truthy_iff].
Qed.

Lemma get_metrics_in_range (d : database) (limit : Z) (api_key : option string) :
  sqlite_int64 limit = true ->
  get_metrics d limit api_key = Ok (select_metrics d limit api_key).
Proof. intros Hlimit. unfold get_metrics. by rewrite sqlite_bind_int_in_range. Qed.

End MoreQueries.

(** X1.  [get_metrics] with a [limit] outside the 64 bits of an SQLite
    INTEGER raises OverflowError.  With a [limit] inside it returns
    min(limit, number of matching rows) rows, all matching rows when [limit]
    is negative; the rows are matching rows, none twice, in non-increasing
    order of [created_at], and a matching row left out is no more recent than
    any row returned.  With a non-empty [api_key] the matching rows are those
    saved under that key (rows saved without a key never match); an empty
    [api_key] filters nothing. *)
Theorem get_metrics_bounded_sorted_owned `{E : SqlEngine}
    (d : database) (limit : Z) (api_key : option string) :
  let matching := List.filter (metrics_where api_key) (metrics d) in
  (sqlite_int64 limit = false ->
   get_metrics d limit api_key
   = Raise (Exn "OverflowError" "Python int too large to convert to SQLite INTEGER")) /\
  (sqlite_int64 limit = true ->
   exists rows,
     get_metrics d limit api_key = Ok rows /\
     length rows = (if limit <? 0 then length matching
                    else (Z.to_nat limit `min` length matching)%nat) /\
     rows ⊆+ matching /\
     StronglySorted (fun r1 r2 => mr_created_at r2 <= mr_created_at r1) rows /\
     (forall r r', r ∈ matching -> r ∉ rows -> r' ∈ rows ->
                   mr_created_at r <= mr_created_at r')) /\
  (forall r, r ∈ matching <->
     r ∈ metrics d /\
     (forall k, api_key = Some k -> k <> "" -> pm_api_key (mr_metric r) = Some k)) /\
  (api_key = Some "" -> get_metrics d limit api_key = get_metrics d limit None).
Proof.
  intros matching. split; [|split; [|split]].
  - intros Hout. unfold get_metrics. by rewrite sqlite_bind_int_out_of_range.
  - intros Hin. exists (select_metrics d limit api_key).
    split; [by apply get_metrics_in_range|].
    unfold select_metrics. fold matching.
    split; [by rewrite sql_limit_length_exact, order_by_desc_length|].
    split.
    { etransitivity; [apply sublist_submseteq, sql_limit_sublist|].
      by rewrite (order_by_desc_perm _ mr_created_at). }
    split; [apply sql_limit_strongly_sorted, order_by_desc_strongly_sorted|].
    intros r r' Hr Hout Hin'. by apply (sql_limit_cutoff mr_created_at matching limit).
  - intros r. subst matching. by rewrite filter_elem_of, metrics_where_iff.
  - by intros ->.
Qed.

(** The ten newest of 150 rows, all saved under the asking key. *)
Lemma get_metrics_bounded_sorted_owned_witness :
  exists rows,
    get_metrics (E := stable_engine) store_150 10 (Some "pm_key") = Ok rows /\
    length rows = 10%nat /\
    StronglySorted (fun r1 r2 => mr_created_at r2 <= mr_created_at r1) rows.
Proof.
  destruct (get_metrics_bounded_sorted_owned (E := stable_engine) store_150 10 (Some "pm_key"))
    as (_ & Hin & _).
  destruct (Hin eq_refl) as (rows & Hrows & Hlen & _ & Hsorted & _).
  exists rows. split; [exact Hrows|]. split; [|exact Hsorted].
  rewrite Hlen. reflexivity.
Defined.

(** X2.  With a [limit] inside the 64 bits of an SQLite INTEGER that is
    negative, or at least the number of matching rows, [get_errors] returns
    every row of the errors table that matches the filters, each once. *)
Theorem get_errors_unbounded `{U : CaseMapping} `{E : SqlEngine}
    (d : database) (limit : Z) (level api_key : option string) :
  - 2 ^ 63 <= limit < 2 ^ 63 ->
  limit < 0 \/
  (length (List.filter (errors_where level api_key) (errors d)) <= Z.to_nat limit)%nat ->
  exists rows,
    get_errors d limit level api_key = Ok rows /\
    rows ≡ₚ List.filter (errors_where level api_key) (errors d).
Proof.
  intros Hrange%sqlite_int64_iff Hlimit.
  exists (select_errors d limit level api_key).
  split; [by apply get_errors_in_range|].
  unfold select_errors. rewrite sql_limit_all.
  - apply order_by_desc_perm.
  - destruct Hlimit as [?|Hlen]; [by left|right].
    by rewrite order_by_desc_length.
Qed.

Lemma get_errors_unbounded_witness :
  exists rows,
    get_errors (E := stable_engine) store_five_errors (-1) (Some "error") None = Ok rows /\
    rows ≡ₚ List.filter (errors_where (Some "error") None) (errors store_five_errors).
Proof.
  apply (get_errors_unbounded (E := stable_engine) store_five_errors (-1) (Some "error") None).
  - lia.
  - left. lia.
Defined.

(** ** Eviction on any store *)

Lemma NoDup_fmap_inj {A} (f : A -> Z) (l : list A) (x y : A) :
  NoDup (f <$> l) -> x ∈ l -> y ∈ l -> f x = f y -> x = y.
Proof.
  induction l as [|a l IH]; csimpl; intros Hnd Hx Hy Hxy.
  - by apply elem_of_nil in Hx.
  - apply NoDup_cons in Hnd as [Ha Hnd].
    apply elem_of_cons in Hx as [->|Hx]; apply elem_of_cons in Hy as [->|Hy].
    + done.
    + exfalso. apply Ha. rewrite Hxy. apply list_elem_of_fmap. by exists y.
    + exfalso. apply Ha. rewrite <- Hxy. apply list_elem_of_fmap. by exists x.
    + by apply IH.
Qed.

Lemma filter_sublist {A} (p : A -> bool) (l : list A) : List.filter p l `sublist_of` l.
Proof.
  induction l as [|x l IH]; simpl; [done|].
  destruct (p x); [by apply sublist_skip|by apply sublist_cons].
Qed.

Lemma filter_all_true {A} (p : A -> bool) (l : list A) :
  (forall x, x ∈ l -> p x = true) -> List.filter p l = l.
Proof.
  induction l as [|a l IH]; intros Hall; simpl; [done|].
  rewrite (Hall a) by (by left). f_equal. apply IH. intros x Hx. apply Hall. by right.
Qed.

Lemma filter_all_false {A} (p : A -> bool) (l : list A) :
  (forall x, x ∈ l -> p x = false) -> List.filter p l = [].
Proof.
  induction l as [|a l IH]; intros Hall; simpl; [done|].
  rewrite (Hall a) by (by left). apply IH. intros x Hx. apply Hall. by right.
Qed.

Lemma filter_length_all {A} (p : A -> bool) (l : list A) :
  length (List.filter p l) = length l -> List.filter p l = l.
Proof.
  induction l as [|a l IH]; simpl; [done|].
  pose proof (List.filter_length_le p l).
  destruct (p a); simpl; intros Hlen; [f_equal; apply IH; lia|lia].
Qed.

Section EvictionAnyStore.
Context `{E : SqlEngine} `{U : CaseMapping}.

(** A row survives the eviction exactly when the subquery selected it. *)
Lemma cleanup_survivors (MAX_HISTORY_RECORDS : Z) (d : database) (r : metrics_row) :
  NoDup (mr_id <$> metrics d) ->
  r ∈ metrics (_cleanup_old_metrics MAX_HISTORY_RECORDS d)
  <-> r ∈ sql_limit MAX_HISTORY_RECORDS (order_by_desc mr_created_at (metrics d)).
Proof.
  intros Hnd. simpl. rewrite filter_elem_of, sql_not_in_false.
  unfold cleanup_keep_ids. split.
  - intros [Hr Hid]. apply list_elem_of_fmap in Hid as (r0 & Hid & Hr0).
    assert (r = r0) as ->; [|done].
    apply (NoDup_fmap_inj mr_id (metrics d)); [done..| |done].
    by apply sql_limit_elem_of, order_by_desc_elem_of in Hr0.
  - intros Hr. split.
    + by apply sql_limit_elem_of, order_by_desc_elem_of in Hr.
    + apply list_elem_of_fmap. by exists r.
Qed.

Lemma cleanup_length_exact (MAX_HISTORY_RECORDS : Z) (d : database) :
  0 <= MAX_HISTORY_RECORDS ->
  NoDup (mr_id <$> metrics d) ->
  length (metrics (_cleanup_old_metrics MAX_HISTORY_RECORDS d))
  = (length (metrics d) `min` Z.to_nat MAX_HISTORY_RECORDS)%nat.
Proof.
  intros Hmax Hnd.
  assert (Hnd' : NoDup (metrics d)) by (by eapply NoDup_fmap_1).
  transitivity (length (sql_limit MAX_HISTORY_RECORDS
                          (order_by_desc mr_created_at (metrics d)))).
  - apply Permutation_length, NoDup_Permutation.
    + apply (NoDup_fmap_1 mr_id). by apply filter_fmap_NoDup.
    + eapply sublist_NoDup; [|apply sql_limit_sublist].
      by rewrite (order_by_desc_perm _ mr_created_at (metrics d)).
    + intros r. by apply cleanup_survivors.
  - unfold sql_limit. destruct (Z.ltb_spec MAX_HISTORY_RECORDS 0); [lia|].
    rewrite length_take, order_by_desc_length. lia.
Qed.

(** Whatever the eviction deletes is no more recent than what it keeps. *)
Lemma cleanup_cutoff (MAX_HISTORY_RECORDS : Z) (d : database) (kept deleted : metrics_row) :
  NoDup (mr_id <$> metrics d) ->
  kept ∈ metrics (_cleanup_old_metrics MAX_HISTORY_RECORDS d) ->
  deleted ∈ metrics d ->
  deleted ∉ metrics (_cleanup_old_metrics MAX_HISTORY_RECORDS d) ->
  mr_created_at deleted <= mr_created_at kept.
Proof.
  intros Hnd Hkept Hdel Hgone.
  rewrite cleanup_survivors in Hkept, Hgone by done.
  by apply (sql_limit_cutoff mr_created_at (metrics d) MAX_HISTORY_RECORDS).
Qed.

(** When every row after the cut is stamped strictly later than every row
    before it, the rows after the cut are the ones that survive. *)
Lemma cleanup_suffix (MAX_HISTORY_RECORDS : Z) (d : database) :
  0 <= MAX_HISTORY_RECORDS ->
  NoDup (mr_id <$> metrics d) ->
  (forall old new,
     old ∈ take (length (metrics d) - Z.to_nat MAX_HISTORY_RECORDS) (metrics d) ->
     new ∈ drop (length (metrics d) - Z.to_nat MAX_HISTORY_RECORDS) (metrics d) ->
     mr_created_at old < mr_created_at new) ->
  metrics (_cleanup_old_metrics MAX_HISTORY_RECORDS d)
  = drop (length (metrics d) - Z.to_nat MAX_HISTORY_RECORDS) (metrics d).
Proof.
  intros Hmax Hnd Hcross.
  pose proof (cleanup_length_exact MAX_HISTORY_RECORDS d Hmax Hnd) as Hlen.
  pose proof (fun kept deleted => cleanup_cutoff MAX_HISTORY_RECORDS d kept deleted Hnd) as Hcut.
  set (p := fun r : metrics_row =>
              negb (sql_not_in (mr_id r) (cleanup_keep_ids MAX_HISTORY_RECORDS d))).
  change (metrics (_cleanup_old_metrics MAX_HISTORY_RECORDS d))
    with (List.filter p (metrics d)) in *.
  set (l := metrics d) in *.
  set (cut := (length l - Z.to_nat MAX_HISTORY_RECORDS)%nat) in *.
  assert (Hsplit : List.filter p l = List.filter p (take cut l) ++ List.filter p (drop cut l)).
  { by rewrite <- List.filter_app, take_drop. }
  assert (Hdrop : length (drop cut l) = (length l `min` Z.to_nat MAX_HISTORY_RECORDS)%nat).
  { rewrite length_drop. lia. }
  assert (Hold : forall old, old ∈ take cut l -> p old = false).
  { intros old Hin. destruct (p old) eqn:Hp; [exfalso|done].
    assert (Hkept : old ∈ List.filter p l).
    { apply filter_elem_of. split; [|done].
      rewrite <- (take_drop cut l). apply elem_of_app. by left. }
    assert (Hall : forall new, new ∈ drop cut l -> p new = true).
    { intros new Hnew. destruct (p new) eqn:Hq; [done|exfalso].
      assert (Hl : new ∈ l).
      { rewrite <- (take_drop cut l). apply elem_of_app. by right. }
      assert (Hgone : new ∉ List.filter p l).
      { rewrite filter_elem_of. intros [_ ?]. congruence. }
      pose proof (Hcut old new Hkept Hl Hgone).
      pose proof (Hcross old new Hin Hnew). lia. }
    rewrite Hsplit, length_app, (filter_all_true _ _ Hall), Hdrop in Hlen.
    assert (Hsome : old ∈ List.filter p (take cut l)) by (by apply filter_elem_of).
    destruct (List.filter p (take cut l)); [by apply elem_of_nil in Hsome|].
    simpl in Hlen. lia. }
  rewrite Hsplit, (filter_all_false _ _ Hold) in Hlen |- *. simpl in Hlen |- *.
  apply filter_length_all. by rewrite Hlen, Hdrop.
Qed.

End EvictionAnyStore.

(** C3, as amended.  On a store with distinct metric ids, let the cut be
    where the last MAX_HISTORY_RECORDS rows of the table begin (the start of
    the table when MAX_HISTORY_RECORDS is negative or not below the number of
    rows).  When every row after the cut is stamped strictly later than every
    row before it, [_cleanup_old_metrics] leaves exactly the rows after the
    cut, the rows inserted last, whatever order the engine gives to equal
    keys.  And in every case running it again changes nothing. *)
Theorem cleanup_keeps_most_recent `{E : SqlEngine} (MAX_HISTORY_RECORDS : Z) (d : database) :
  NoDup (mr_id <$> metrics d) ->
  let kept := if MAX_HISTORY_RECORDS <? 0 then length (metrics d)
              else Z.to_nat MAX_HISTORY_RECORDS in
  let cut := (length (metrics d) - kept)%nat in
  ((forall old new, old ∈ take cut (metrics d) -> new ∈ drop cut (metrics d) ->
                    mr_created_at old < mr_created_at new) ->
   metrics (_cleanup_old_metrics MAX_HISTORY_RECORDS d) = drop cut (metrics d)) /\
  _cleanup_old_metrics MAX_HISTORY_RECORDS (_cleanup_old_metrics MAX_HISTORY_RECORDS d)
    = _cleanup_old_metrics MAX_HISTORY_RECORDS d.
Proof.
  intros Hnd kept cut. split.
  - subst cut kept. destruct (Z.ltb_spec MAX_HISTORY_RECORDS 0) as [Hneg|Hmax].
    + intros _. rewrite cleanup_noop by (by left).
      by rewrite Nat.sub_diag, drop_0.
    + intros Hcross. by apply cleanup_suffix.
  - apply cleanup_noop.
    destruct (Z.ltb_spec MAX_HISTORY_RECORDS 0); [by left|right].
    by apply cleanup_length.
Qed.

(** Five metrics: the first two saved within one second, the last three
    within a later second. *)
Definition store_two_seconds : database :=
  insert_metrics 3 1736935260 0 (insert_metrics 2 1736935200 0 empty_database).

(** 150 rows evicted to 100 leave the last 100, and rows that share a second
    on one side of the cut do no harm. *)
Lemma cleanup_keeps_most_recent_witness :
  length (metrics store_150) = 150%nat /\
  metrics (_cleanup_old_metrics (E := stable_engine) 100 store_150)
    = drop 50 (metrics store_150) /\
  _cleanup_old_metrics (E := stable_engine) 100
    (_cleanup_old_metrics (E := stable_engine) 100 store_150)
    = _cleanup_old_metrics (E := stable_engine) 100 store_150 /\
  mr_id <$> metrics (_cleanup_old_metrics (E := stable_engine) 3 store_two_seconds)
    = [3; 4; 5].
Proof.
  split; [reflexivity|].
  assert (Hnd : NoDup (mr_id <$> metrics store_150)).
  { apply (bool_decide_unpack _); vm_compute; reflexivity. }
  destruct (cleanup_keeps_most_recent (E := stable_engine) 100 store_150 Hnd)
    as [Hlast Hagain].
  split; [|split; [exact Hagain|]].
  - apply Hlast. intros old new Hold Hnew.
    assert (Hcross : Forall (fun old => Forall (fun new => mr_created_at old < mr_created_at new)
                                          (drop 50 (metrics store_150)))
                            (take 50 (metrics store_150))).
    { apply (bool_decide_unpack _). vm_compute. reflexivity. }
    rewrite Forall_forall in Hcross. specialize (Hcross old Hold).
    rewrite Forall_forall in Hcross. exact (Hcross new Hnew).
  - assert (Hnd2 : NoDup (mr_id <$> metrics store_two_seconds)).
    { apply (bool_decide_unpack _); vm_compute; reflexivity. }
    destruct (cleanup_keeps_most_recent (E := stable_engine) 3 store_two_seconds Hnd2)
      as [Hlast2 _].
    rewrite Hlast2; [reflexivity|].
    intros old new Hold Hnew.
    assert (Hcross : Forall (fun old => Forall (fun new => mr_created_at old < mr_created_at new)
                                          (drop 2 (metrics store_two_seconds)))
                            (take 2 (metrics store_two_seconds))).
    { apply (bool_decide_unpack _). vm_compute. reflexivity. }
    rewrite Forall_forall in Hcross. specialize (Hcross old Hold).
    rewrite Forall_forall in Hcross. exact (Hcross new Hnew).
Defined.

(** C3, the claim as stated fails: of three rows inserted within the same
    second the eviction to two rows keeps the two inserted first and deletes
    the one inserted last.  And with MAX_HISTORY_RECORDS = -1 nothing is
    deleted at all. *)
Lemma cleanup_same_second_evicts_newest :
  mr_id <$> metrics store_same_second = [1; 2; 3] /\
  mr_id <$> metrics (_cleanup_old_metrics (E := stable_engine) 2 store_same_second) = [1; 2] /\
  metrics (_cleanup_old_metrics (E := stable_engine) 2 store_same_second)
    <> drop (3 - 2) (metrics store_same_second) /\
  _cleanup_old_metrics (E := stable_engine) (-1) store_same_second = store_same_second.
Proof.
  split; [reflexivity|]. split; [reflexivity|]. split; [|reflexivity].
  intros Heq. apply (f_equal (fmap mr_id)) in Heq. vm_compute in Heq. discriminate.
Qed.


(** X3.  On every store with distinct metric ids and for a non-negative
    MAX_HISTORY_RECORDS, [_cleanup_old_metrics] leaves
    min(rows, MAX_HISTORY_RECORDS) metric rows, in their table order; every
    row it leaves was stamped no earlier than every row it deletes; and it
    touches neither the errors table nor the id sequences. *)
Theorem cleanup_keeps_latest_stamps `{E : SqlEngine} (MAX_HISTORY_RECORDS : Z) (d : database) :
  metrics_wf d ->
  0 <= MAX_HISTORY_RECORDS ->
  let d' := _cleanup_old_metrics MAX_HISTORY_RECORDS d in
  length (metrics d') = (length (metrics d) `min` Z.to_nat MAX_HISTORY_RECORDS)%nat /\
  metrics d' `sublist_of` metrics d /\
  (forall kept deleted,
     kept ∈ metrics d' -> deleted ∈ metrics d -> deleted ∉ metrics d' ->
     mr_created_at deleted <= mr_created_at kept) /\
  errors d' = errors d /\
  metrics_seq d' = metrics_seq d /\
  errors_seq d' = errors_seq d.
Proof.
  intros [Hnd _] Hmax d'. subst d'.
  split; [by apply cleanup_length_exact|].
  split.
  { apply filter_sublist. }
  split; [|done].
  intros kept deleted Hkept Hdel Hgone.
  rewrite cleanup_survivors in Hkept, Hgone by done.
  by apply (sql_limit_cutoff mr_created_at (metrics d) MAX_HISTORY_RECORDS).
Qed.

Lemma cleanup_keeps_latest_stamps_witness :
  let d' := _cleanup_old_metrics (E := stable_engine) 2 store_same_second in
  length (metrics d') = (length (metrics store_same_second) `min` Z.to_nat 2)%nat /\
  metrics d' `sublist_of` metrics store_same_second /\
  (forall kept deleted,
     kept ∈ metrics d' -> deleted ∈ metrics store_same_second -> deleted ∉ metrics d' ->
     mr_created_at deleted <= mr_created_at kept) /\
  errors d' = errors store_same_second /\
  metrics_seq d' = metrics_seq store_same_second /\
  errors_seq d' = errors_seq store_same_second.
Proof.
  apply (cleanup_keeps_latest_stamps (E := stable_engine) 2 store_same_second).
  - split; apply (bool_decide_unpack _); vm_compute; reflexivity.
  - lia.
Defined.

(** ** The store over time *)

(** The three writes of [DatabaseManager] to the metrics and errors tables. *)
Inductive store_op :=
| OpSaveMetric (now : Z) (metric : PerformanceMetrics)
| OpSaveError (now : Z) (error : ErrorLog)
| OpCleanup.

Section StoreOps.
Context `{E : SqlEngine} `{U : CaseMapping}.
Variable MAX_HISTORY_RECORDS : Z.

Definition run_store_op (op : store_op) (d : database) : database :=
  match op with
  | OpSaveMetric now metric => save_metric now metric d
  | OpSaveError now error => save_error now error d
  | OpCleanup => _cleanup_old_metrics MAX_HISTORY_RECORDS d
  end.

Fixpoint run_store_ops (ops : list store_op) (d : database) : database :=
  match ops with
  | [] => d
  | op :: ops' => run_store_ops ops' (run_store_op op d)
  end.

(** How many metrics, and which errors, a sequence of writes saves. *)
Definition saved_metrics (ops : list store_op) : nat :=
  length (List.filter (fun op => match op with OpSaveMetric _ _ => true | _ => false end) ops).

Definition saved_errors (ops : list store_op) : list (Z * ErrorLog) :=
  omap (fun op => match op with OpSaveError now error => Some (now, error) | _ => None end) ops.

(** Ids grow along the table and stay within 1 .. sequence. *)
Definition metric_ids_ordered (d : database) : Prop :=
  StronglySorted Z.lt (mr_id <$> metrics d) /\
  Forall (fun r => 1 <= mr_id r <= metrics_seq d) (metrics d) /\
  0 <= metrics_seq d.

Lemma filter_fmap_strongly_sorted {A} (f : A -> Z) (p : A -> bool) (l : list A) :
  StronglySorted Z.lt (f <$> l) -> StronglySorted Z.lt (f <$> List.filter p l).
Proof.
  induction l as [|a l IH]; csimpl; [done|].
  intros [Ha Hl]%StronglySorted_cons.
  destruct (p a); [|by apply IH].
  csimpl. apply StronglySorted_cons. split; [|by apply IH].
  rewrite Forall_forall in Ha |- *. intros x Hx. apply Ha.
  apply list_elem_of_fmap in Hx as (r & -> & Hr).
  apply list_elem_of_fmap. exists r. split; [done|].
  by apply filter_elem_of in Hr as [? _].
Qed.

Lemma run_store_op_ids (op : store_op) (d : database) :
  metric_ids_ordered d ->
  metric_ids_ordered (run_store_op op d) /\
  metrics_seq (run_store_op op d)
  = metrics_seq d + match op with OpSaveMetric _ _ => 1 | _ => 0 end.
Proof.
  intros (Hsorted & Hrange & Hseq).
  destruct op as [now metric|now error|]; unfold metric_ids_ordered; simpl.
  - split; [|done]. split; [|split; [|lia]].
    + rewrite fmap_app. apply StronglySorted_app. split; [|split; [done|]].
      * intros x y Hx Hy. apply list_elem_of_fmap in Hx as (r & -> & Hr).
        apply list_elem_of_singleton in Hy as ->. simpl.
        rewrite Forall_forall in Hrange. specialize (Hrange r Hr).
        simpl in Hrange. lia.
      * repeat constructor.
    + apply Forall_app. split.
      * eapply Forall_impl; [exact Hrange|]. intros r Hr; simpl in *; lia.
      * apply Forall_singleton. simpl. lia.
  - split; [done|lia].
  - split; [|lia]. split; [|split; [|done]].
    + by apply filter_fmap_strongly_sorted.
    + simpl. rewrite Forall_forall in Hrange |- *. intros r Hr.
      apply (Hrange r). by apply filter_elem_of in Hr as [? _].
Qed.

Lemma run_store_ops_ids (ops : list store_op) (d : database) :
  metric_ids_ordered d ->
  metric_ids_ordered (run_store_ops ops d) /\
  metrics_seq (run_store_ops ops d) = metrics_seq d + Z.of_nat (saved_metrics ops).
Proof.
  revert d. induction ops as [|op ops IH]; intros d Hd; simpl.
  - split; [done|]. unfold saved_metrics. simpl. lia.
  - destruct (run_store_op_ids op d Hd) as [Hd' Hseq].
    destruct (IH _ Hd') as [Hfinal Hseq'].
    split; [done|]. rewrite Hseq', Hseq. unfold saved_metrics.
    destruct op; simpl; lia.
Qed.

Lemma run_store_ops_errors (ops : list store_op) (d : database) :
  exists new,
    errors (run_store_ops ops d) = errors d ++ new /\
    (fun r => (er_created_at r, er_error r)) <$> new = saved_errors ops.
Proof.
  revert d. induction ops as [|op ops IH]; intros d; simpl.
  - exists []. by rewrite app_nil_r.
  - destruct (IH (run_store_op op d)) as (new & Hnew & Hsaved).
    destruct op as [now metric|now error|]; simpl in *.
    + by exists new.
    + eexists (_ :: new). rewrite Hnew, <- (assoc_L (++)). split; [done|].
      unfold saved_errors in *. csimpl. by rewrite Hsaved.
    + by exists new.
Qed.

End StoreOps.

(** X4.  Through any sequence of [save_metric], [save_error] and
    [_cleanup_old_metrics] on a fresh database, the metrics table keeps its
    ids strictly increasing, all between 1 and the sequence, and the sequence
    counts every metric ever saved: the next metric gets an id above every id
    handed out before, also above those of evicted rows. *)
Theorem metric_ids_never_reused `{E : SqlEngine} (MAX_HISTORY_RECORDS : Z)
    (ops : list store_op) (now : Z) (metric : PerformanceMetrics) :
  let d := run_store_ops MAX_HISTORY_RECORDS ops empty_database in
  StronglySorted Z.lt (mr_id <$> metrics d) /\
  Forall (fun r => 1 <= mr_id r <= metrics_seq d) (metrics d) /\
  metrics_seq d = Z.of_nat (saved_metrics ops) /\
  mr_id <$> metrics (save_metric now metric d)
    = (mr_id <$> metrics d) ++ [Z.of_nat (saved_metrics ops) + 1].
Proof.
  intros d.
  assert (Hinit : metric_ids_ordered empty_database).
  { repeat split; [constructor|constructor|done]. }
  destruct (run_store_ops_ids MAX_HISTORY_RECORDS ops empty_database Hinit)
    as [(Hsorted & Hrange & _) Hseq].
  fold d in Hsorted, Hrange, Hseq. simpl in Hseq.
  repeat split; try done.
  simpl. by rewrite fmap_app, Hseq.
Qed.

(** X5.  No write of the store deletes or changes an error row: after any
    sequence of [save_metric], [save_error] and [_cleanup_old_metrics] the
    errors table is what it was followed by one row per [save_error], in the
    order of the calls, each with the time of its INSERT and the record it
    was given. *)
Theorem errors_only_appended `{E : SqlEngine} (MAX_HISTORY_RECORDS : Z)
    (ops : list store_op) (d : database) :
  exists new,
    errors (run_store_ops MAX_HISTORY_RECORDS ops d) = errors d ++ new /\
    (fun r => (er_created_at r, er_error r)) <$> new = saved_errors ops /\
    length (errors (run_store_ops MAX_HISTORY_RECORDS ops d))
      = (length (errors d) + length (saved_errors ops))%nat.
Proof.
  destruct (run_store_ops_errors MAX_HISTORY_RECORDS ops d) as (new & Hnew & Hsaved).
  exists new. split; [done|]. split; [done|].
  by rewrite Hnew, length_app, <- Hsaved, length_fmap.
Qed.

(** ** Error records *)

Lemma explanations_nonempty : map_Forall (fun _ v => str_truthy v = true) explanations.
Proof. apply (bool_decide_unpack _). by vm_compute. Qed.

Lemma fixes_nonempty : map_Forall (fun _ v => str_truthy v = true) fixes.
Proof. apply (bool_decide_unpack _). by vm_compute. Qed.

(** X6.  For every error type, listed or not, and every message, the
    explanation and the suggested fix are non-empty texts. *)
Theorem diagnostic_text_never_empty (error_type message : string) :
  str_truthy (_generate_error_explanation error_type message) = true /\
  str_truthy (_generate_suggested_fix error_type message) = true.
Proof.
  unfold _generate_error_explanation, _generate_suggested_fix. split.
  - destruct (explanations !! error_type) as [text|] eqn:Hlookup; simpl; [|done].
    exact (explanations_nonempty error_type text Hlookup).
  - destruct (fixes !! error_type) as [text|] eqn:Hlookup; simpl; [|done].
    exact (fixes_nonempty error_type text Hlookup).
Qed.




(** *** Logging, then querying *)

Section LogThenQuery.
Context `{E : SqlEngine} `{U : CaseMapping}.

(** A row stamped later than all the others comes first. *)
Lemma order_by_desc_newest_first {A} (key : A -> Z) (l : list A) (x : A) :
  Forall (fun y => key y < key x) l ->
  exists rest, order_by_desc key (l ++ [x]) = x :: rest.
Proof.
  intros Hold.
  pose proof (order_by_desc_strongly_sorted key (l ++ [x])) as Hss.
  pose proof (order_by_desc_perm A key (l ++ [x])) as Hperm.
  destruct (order_by_desc key (l ++ [x])) as [|y rest].
  { apply Permutation_nil_l in Hperm. by destruct l. }
  exists rest. f_equal.
  apply StronglySorted_cons in Hss as [Hy _].
  assert (Hyin : y ∈ l ++ [x]) by (rewrite <- Hperm; by left).
  apply elem_of_app in Hyin as [Hyl|Hyx]; [|by apply list_elem_of_singleton in Hyx].
  exfalso. rewrite Forall_forall in Hold, Hy.
  specialize (Hold y Hyl). simpl in Hold.
  assert (Hxin : x ∈ y :: rest).
  { rewrite Hperm. apply elem_of_app. right. by left. }
  apply elem_of_cons in Hxin as [->|Hxin]; [lia|].
  specialize (Hy x Hxin). simpl in Hy. lia.
Qed.

End LogThenQuery.

(** X8.  A record logged with an INSERT time later than that of every row
    already in the errors table is the first row [get_errors] returns, for
    every [limit] from 1 up to the largest SQLite INTEGER and every filter
    the record matches. *)
Theorem log_error_then_get_errors `{U : CaseMapping} `{E : SqlEngine} (env : log_env)
    (error_type message function_name level : string) (api_key : option string)
    (st : state) (limit : Z) (query_level query_key : option string) :
  1 <= limit < 2 ^ 63 ->
  Forall (fun r => er_created_at r < le_created_at env) (errors (db st)) ->
  let st' := snd (log_error true env error_type message function_name level api_key st) in
  let row := {| er_id := errors_seq (db st) + 1;
                er_error := logged_error env error_type message function_name level api_key;
                er_created_at := le_created_at env |} in
  errors_where query_level query_key row = true ->
  exists rows,
    get_errors (db st') limit query_level query_key = Ok rows /\
    head rows = Some row.
Proof.
  intros Hlimit Hnewest st' row Hmatch.
  exists (select_errors (db st') limit query_level query_key).
  split; [apply get_errors_in_range, sqlite_int64_iff; lia|]. subst st'.
  rewrite log_error_run. cbn [snd db]. unfold select_errors. cbn [errors save_error].
  fold row. rewrite List.filter_app. cbn [List.filter]. rewrite Hmatch.
  destruct (order_by_desc_newest_first er_created_at
              (List.filter (errors_where query_level query_key) (errors (db st))) row)
    as [rest ->].
  { rewrite Forall_forall in Hnewest |- *. intros r Hr. apply Hnewest.
    by apply filter_elem_of in Hr as [? _]. }
  unfold sql_limit. destruct (Z.ltb_spec limit 0); [done|].
  destruct (Z.to_nat limit) as [|n] eqn:Hn; [lia|done].
Qed.

(** A later moment on an idle host. *)
Definition log_env_later : log_env :=
  {| le_psutil := psutil_idle;
     le_now := "2025-01-15T10:05:00.000000";
     le_traceback := "No traceback available";
     le_created_at := 1736935500 |}.

(** The monitor with the five error rows of [store_five_errors]. *)
Definition state_five_errors : state :=
  {| db := store_five_errors; thresholds := default_thresholds |}.

Lemma log_error_then_get_errors_witness :
  let st' := snd (log_error true log_env_later "VALUEERROR" "boom" "get_metrics"
                    "ERROR" (Some "pm_key") state_five_errors) in
  let row := {| er_id := errors_seq (db state_five_errors) + 1;
                er_error := logged_error log_env_later "VALUEERROR" "boom"
                              "get_metrics" "ERROR" (Some "pm_key");
                er_created_at := le_created_at log_env_later |} in
  exists rows,
    get_errors (E := stable_engine) (db st') 1 (Some "error") (Some "pm_key") = Ok rows /\
    head rows = Some row.
Proof.
  apply (log_error_then_get_errors (E := stable_engine) log_env_later "VALUEERROR" "boom"
           "get_metrics" "ERROR" (Some "pm_key") state_five_errors 1 (Some "error")
           (Some "pm_key")).
  - lia.
  - apply (bool_decide_unpack _). vm_compute. reflexivity.
  - reflexivity.
Defined.

(** ** The wrapper and its callers *)

(** The environment with another start sample. *)
Definition with_psutil_start (h : psutil) (env : monitor_env) : monitor_env :=
  {| time_start := time_start env;
     time_end := time_end env;
     psutil_start := h;
     psutil_end := psutil_end env;
     env_exception := env_exception env;
     env_cpu := env_cpu env;
     env_slow := env_slow env;
     metric_now := metric_now env;
     metric_created_at := metric_created_at env |}.

(** X9.  What [monitor_function] returns or raises and what it writes do not
    depend on the sample taken before the body: any other start sample, also
    a failing one, gives the same outcome and the same state. *)
Theorem monitor_function_ignores_start_sample `{U : CaseMapping} {T} (format_2f : Q -> string)
    (app_context : bool) (function_name : string) (api_key : option string)
    (env : monitor_env) (h : psutil) (body : M T) (st : state) :
  monitor_function format_2f app_context function_name api_key (with_psutil_start h env) body st
  = monitor_function format_2f app_context function_name api_key env body st.
Proof.
  unfold monitor_function, bind, lift.
  rewrite !get_system_metrics_ok. reflexivity.
Qed.

(** X10.  When the cpu and response time limits are numbers and the end
    sample was read or the cpu limit is not negative, the metric row an
    invocation saves carries the next id, the caller's function name and
    key, the status "completed", and the five readings of the sample taken
    after the body:
    the psutil readings when all four calls succeeded, and 0 throughout when
    one of them raised. *)
Theorem monitor_function_metric_content `{U : CaseMapping} {T} (format_2f : Q -> string)
    (function_name : string) (api_key : option string) (env : monitor_env)
    (body : M T) (st st1 : state) (r : result T) (cpu_limit response_limit : Q) :
  body st = (r, st1) ->
  thresholds st1 !! "cpu" = Some (JNumber cpu_limit) ->
  thresholds st1 !! "response_time" = Some (JNumber response_limit) ->
  (exists d, psutil_read (psutil_end env) = Ok d) \/ (0 <= cpu_limit)%Q ->
  let out := monitor_function format_2f true function_name api_key env body st in
  exists row,
    metrics (db (snd out)) = metrics (db st1) ++ [row] /\
    mr_id row = metrics_seq (db st1) + 1 /\
    mr_created_at row = metric_created_at env /\
    pm_function_name (mr_metric row) = function_name /\
    pm_api_key (mr_metric row) = api_key /\
    pm_status (mr_metric row) = "completed" /\
    (forall cpu memory disk sent recv,
       psutil_end env = Psutil (Ok cpu) (Ok memory) (Ok disk) (Ok (sent, recv)) ->
       pm_cpu_usage (mr_metric row) = cpu /\
       pm_memory_usage (mr_metric row) = memory /\
       pm_disk_usage (mr_metric row) = disk /\
       pm_network_sent (mr_metric row) = sent /\
       pm_network_recv (mr_metric row) = recv) /\
    (forall e,
       psutil_read (psutil_end env) = Raise e ->
       pm_cpu_usage (mr_metric row) = 0%Q /\
       pm_memory_usage (mr_metric row) = 0%Q /\
       pm_disk_usage (mr_metric row) = 0%Q /\
       pm_network_sent (mr_metric row) = 0 /\
       pm_network_recv (mr_metric row) = 0).
Proof.
  intros Hbody Hcpu Hrt Hsafe out. subst out.
  rewrite (monitor_function_safe format_2f _ _ _ _ st st1 r cpu_limit response_limit) by done.
  cbn [snd db]. rewrite finally_db_metrics.
  eexists. split.
  { destruct r; cbn [after_except db metrics save_error]; reflexivity. }
  split; [by destruct r|]. do 4 (split; [done|]). split.
  - intros cpu memory disk sent recv Hend. cbn [mr_metric].
    unfold metric_of, snapshot, psutil_read. rewrite Hend. by vm_compute.
  - intros e Hfail. cbn [mr_metric]. unfold metric_of.
    rewrite (snapshot_failed _ _ Hfail). by vm_compute.
Qed.

Lemma monitor_function_metric_content_witness :
  let out := monitor_function format_any true "get_metrics" (Some "pm_key")
               (env_on psutil_idle) body_raises initial_state in
  exists row,
    metrics (db (snd out)) = metrics (db initial_state) ++ [row] /\
    mr_id row = metrics_seq (db initial_state) + 1 /\
    mr_created_at row = metric_created_at (env_on psutil_idle) /\
    pm_function_name (mr_metric row) = "get_metrics" /\
    pm_api_key (mr_metric row) = Some "pm_key" /\
    pm_status (mr_metric row) = "completed" /\
    (forall cpu memory disk sent recv,
       psutil_end (env_on psutil_idle) = Psutil (Ok cpu) (Ok memory) (Ok disk) (Ok (sent, recv)) ->
       pm_cpu_usage (mr_metric row) = cpu /\
       pm_memory_usage (mr_metric row) = memory /\
       pm_disk_usage (mr_metric row) = disk /\
       pm_network_sent (mr_metric row) = sent /\
       pm_network_recv (mr_metric row) = recv) /\
    (forall e,
       psutil_read (psutil_end (env_on psutil_idle)) = Raise e ->
       pm_cpu_usage (mr_metric row) = 0%Q /\
       pm_memory_usage (mr_metric row) = 0%Q /\
       pm_disk_usage (mr_metric row) = 0%Q /\
       pm_network_sent (mr_metric row) = 0 /\
       pm_network_recv (mr_metric row) = 0).
Proof.
  apply (monitor_function_metric_content format_any "get_metrics" (Some "pm_key")
           (env_on psutil_idle) body_raises initial_state initial_state
           (Raise (Exn "ValueError" "boom")) (80 # 1)%Q (5 # 1)%Q).
  - reflexivity.
  - reflexivity.
  - reflexivity.
  - left. eexists. reflexivity.
Defined.

(** X11.  [POST /api/thresholds] with an object that has a "cpu" entry: the
    [finally] block of that same request already compares the end sample with
    the posted limit, and the thresholds are updated in every case.
    - The posted limit is a number, the response time limit after the update
      is a number, and the end sample was read or the posted limit is not
      negative: the request returns the updated thresholds and logs
      HIGH_CPU_USAGE exactly when the sample is above the posted limit.
    - The posted limit is a negative number and the end sample failed: the
      request raises [KeyError('cpu_usage')] and writes nothing.
    - The posted limit is no number (a string, null, a list, an object): the
      request raises TypeError and writes nothing. *)
Theorem threshold_update_applies_to_own_request `{U : CaseMapping} (format_2f : Q -> string)
    (api_key : option string) (env : monitor_env) (new_thresholds : gmap string json_value)
    (st : state) (v : json_value) :
  new_thresholds !! "cpu" = Some v ->
  let updated := dict_update (thresholds st) new_thresholds in
  let out := manage_thresholds format_2f api_key env new_thresholds st in
  thresholds (snd out) = updated /\
  (forall cpu_limit response_limit,
     v = JNumber cpu_limit ->
     updated !! "response_time" = Some (JNumber response_limit) ->
     (exists d, psutil_read (psutil_end env) = Ok d) \/ (0 <= cpu_limit)%Q ->
     let logged := warnings format_2f "manage_thresholds" api_key env cpu_limit response_limit in
     fst out = Ok updated /\
     er_error <$> errors (db (snd out)) = (er_error <$> errors (db st)) ++ logged /\
     ((exists w, w ∈ logged /\ el_error_type w = "HIGH_CPU_USAGE")
      <-> (cpu_limit < dict_get (snapshot (psutil_end env)) "cpu_usage")%Q)) /\
  (forall cpu_limit e,
     v = JNumber cpu_limit -> (cpu_limit < 0)%Q ->
     psutil_read (psutil_end env) = Raise e ->
     out = (Raise (Exn "KeyError" "'cpu_usage'"), {| db := db st; thresholds := updated |})) /\
  (json_number v = None ->
   exists message,
     out = (Raise (Exn "TypeError" message), {| db := db st; thresholds := updated |})).
Proof.
  intros Hnew updated out.
  assert (Hcpu : updated !! "cpu" = Some v).
  { subst updated. rewrite dict_update_lookup. by rewrite Hnew. }
  split.
  { subst out. unfold manage_thresholds. by rewrite monitor_function_thresholds. }
  split; [|split].
  - intros cpu_limit response_limit -> Hrt Hsafe logged. subst out logged.
    unfold manage_thresholds.
    rewrite (monitor_function_safe format_2f _ _ _ _ st
               {| db := db st; thresholds := updated |}
               (Ok updated) cpu_limit response_limit); [|done|done|done|done].
    cbn [fst snd db]. split; [done|]. rewrite finally_db_errors. split; [done|].
    rewrite <- Qlt_bool_iff. apply warnings_cpu.
  - intros cpu_limit e -> Hneg Hfail. subst out. unfold manage_thresholds.
    rewrite monitor_function_unfold.
    change (manage_thresholds_post new_thresholds st)
      with (Ok updated, {| db := db st; thresholds := updated |}).
    cbv beta iota.
    rewrite (monitor_finally_keyerror format_2f _ _ _ _ cpu_limit); [done|done| |].
    + unfold cpu_breached. rewrite (snapshot_failed _ _ Hfail), dict_get_empty.
      by apply Qlt_bool_iff.
    + by rewrite (snapshot_failed _ _ Hfail).
  - intros Hnum. subst out. unfold manage_thresholds.
    rewrite monitor_function_unfold.
    change (manage_thresholds_post new_thresholds st)
      with (Ok updated, {| db := db st; thresholds := updated |}).
    cbv beta iota.
    rewrite (monitor_finally_typeerror format_2f _ _ _ _ v); [|done|done].
    by eexists.
Qed.

(** A request that posts [{"cpu": "high"}] on an idle host. *)
Lemma threshold_update_applies_to_own_request_witness :
  let new_thresholds : gmap string json_value := {[ "cpu" := JString "high" ]} in
  let updated := dict_update (thresholds initial_state) new_thresholds in
  let out := manage_thresholds format_any (Some "pm_key") (env_on psutil_idle)
               new_thresholds initial_state in
  thresholds (snd out) = updated /\
  exists message,
    out = (Raise (Exn "TypeError" message), {| db := db initial_state; thresholds := updated |}).
Proof.
  pose proof (threshold_update_applies_to_own_request format_any (Some "pm_key")
                (env_on psutil_idle) {[ "cpu" := JString "high" ]} initial_state
                (JString "high") eq_refl) as (Hupdated & _ & _ & Htype).
  split; [exact Hupdated|exact (Htype eq_refl)].
Defined.

(** ** The background loop *)



(** ** API keys: [create_api_key], [validate_api_key], [require_api_key] *)

(** A row of [api_keys]. *)
Record api_key_row := {
  ak_id : Z;
  ak_key_hash : string;
  ak_key_name : string;
  ak_created_at : Z;
  ak_last_used : option Z;
  ak_is_active : bool
}.

(** The table, rows in rowid order, with its id sequence. *)
Record key_table := {
  api_keys : list api_key_row;
  api_keys_seq : Z
}.

Definition empty_key_table : key_table := {| api_keys := []; api_keys_seq := 0 |}.

(** [UPDATE api_keys SET last_used = CURRENT_TIMESTAMP WHERE key_hash = ?]. *)
Definition touch_last_used (now : Z) (key_hash : string) (t : key_table) : key_table :=
  {| api_keys :=
       (fun r => if String.eqb (ak_key_hash r) key_hash
                 then {| ak_id := ak_id r; ak_key_hash := ak_key_hash r;
                         ak_key_name := ak_key_name r; ak_created_at := ak_created_at r;
                         ak_last_used := Some now; ak_is_active := ak_is_active r |}
                 else r) <$> api_keys t;
     api_keys_seq := api_keys_seq t |}.

Section ApiKeys.
(** werkzeug's [generate_password_hash(password)], with the salt it draws, and
    [check_password_hash(pwhash, password)]. *)
Variable generate_password_hash : string -> string -> string.
Variable check_password_hash : string -> string -> bool.

(** [create_api_key(key_name)]; [token] is what [secrets.token_urlsafe(32)]
    returns, [salt] what the hash draws, [now] CURRENT_TIMESTAMP.  [key_hash]
    is UNIQUE: the INSERT of a hash that is already there raises. *)
Definition create_api_key (app_context : bool) (token salt : string) (now : Z)
    (key_name : string) (t : key_table) : result string * key_table :=
  let api_key := "pm_" +:+ token in
  let key_hash := generate_password_hash api_key salt in
  match get_connection app_context with
  | Raise e => (Raise e, t)
  | Ok _ =>
      if existsb (fun r => String.eqb (ak_key_hash r) key_hash) (api_keys t)
      then (Raise (Exn "IntegrityError" "UNIQUE constraint failed: api_keys.key_hash"), t)
      else (Ok api_key,
            {| api_keys := api_keys t ++
                           [ {| ak_id := api_keys_seq t + 1; ak_key_hash := key_hash;
                                ak_key_name := key_name; ak_created_at := now;
                                ak_last_used := None; ak_is_active := true |} ];
               api_keys_seq := api_keys_seq t + 1 |})
  end.

(** The loop of [validate_api_key] over the hashes of the active rows: the
    hash of the first row that checks, if any. *)
Fixpoint first_valid_hash (api_key : string) (hashes : list string) : option string :=
  match hashes with
  | [] => None
  | h :: hashes' => if check_password_hash h api_key then Some h
                    else first_valid_hash api_key hashes'
  end.

(** [validate_api_key(api_key)]. *)
Definition validate_api_key (app_context : bool) (now : Z) (api_key : string)
    (t : key_table) : result bool * key_table :=
  match get_connection app_context with
  | Raise e => (Raise e, t)
  | Ok _ =>
      let rows := ak_key_hash <$> List.filter ak_is_active (api_keys t) in
      match first_valid_hash api_key rows with
      | Some h => (Ok true, touch_last_used now h t)
      | None => (Ok false, t)
      end
  end.

(** The application behind the routes: the monitor and the key table. *)
Record server := {
  srv_monitor : state;
  srv_keys : key_table
}.

(** [require_api_key(f)] serving one request: [header] is
    [request.headers.get('X-API-Key')], [f_name] is [f.__name__], [f] is the
    route, which gets the key as [g.api_key].  The result is the pair of
    error text and status of a refusal, or what the route returns. *)
Definition require_api_key {T} (now : Z) (env : log_env) (header : option string)
    (f_name : string) (f : string -> M T) (s : server)
  : result ((string * Z) + T) * server :=
  let refuse (message reply : string) (keys : key_table) :=
    match log_error true env "AUTHENTICATION_ERROR" message f_name "WARNING" None
            (srv_monitor s) with
    | (Ok _, st') => (Ok (inl (reply, 401)), {| srv_monitor := st'; srv_keys := keys |})
    | (Raise e, st') => (Raise e, {| srv_monitor := st'; srv_keys := keys |})
    end in
  match header with
  | None => refuse "Missing API key" "API key required" (srv_keys s)
  | Some api_key =>
      if negb (str_truthy api_key)
      then refuse "Missing API key" "API key required" (srv_keys s)
      else
        match validate_api_key true now api_key (srv_keys s) with
        | (Raise e, keys) => (Raise e, {| srv_monitor := srv_monitor s; srv_keys := keys |})
        | (Ok false, keys) => refuse "Invalid API key" "Invalid API key" keys
        | (Ok true, keys) =>
            match f api_key (srv_monitor s) with
            | (Ok a, st') => (Ok (inr a), {| srv_monitor := st'; srv_keys := keys |})
            | (Raise e, st') => (Raise e, {| srv_monitor := st'; srv_keys := keys |})
            end
        end
  end.

(** *** Validation *)

Lemma first_valid_hash_some (api_key : string) (hashes : list string) (h : string) :
  first_valid_hash api_key hashes = Some h ->
  h ∈ hashes /\ check_password_hash h api_key = true.
Proof.
  induction hashes as [|h' hashes IH]; simpl; [done|].
  destruct (check_password_hash h' api_key) eqn:Hcheck.
  - intros [= <-]. split; [by left|done].
  - intros Hfirst. destruct (IH Hfirst) as [Hin ?]. split; [by right|done].
Qed.

Lemma first_valid_hash_none (api_key : string) (hashes : list string) :
  first_valid_hash api_key hashes = None <->
  forall h, h ∈ hashes -> check_password_hash h api_key = false.
Proof.
  induction hashes as [|h' hashes IH]; simpl.
  - split; [intros _ h Hh; by apply elem_of_nil in Hh|done].
  - destruct (check_password_hash h' api_key) eqn:Hcheck.
    + split; [done|]. intros Hall. specialize (Hall h' (list_elem_of_here _ _)). congruence.
    + rewrite IH. split.
      * intros Hall h [->|Hh]%elem_of_cons; [done|by apply Hall].
      * intros Hall h Hh. apply Hall. by right.
Qed.

Lemma active_hashes_elem_of (t : key_table) (h : string) :
  h ∈ ak_key_hash <$> List.filter ak_is_active (api_keys t) <->
  exists r, r ∈ api_keys t /\ ak_is_active r = true /\ ak_key_hash r = h.
Proof.
  rewrite list_elem_of_fmap. split.
  - intros (r & -> & [Hr Hactive]%filter_elem_of). by exists r.
  - intros (r & Hr & Hactive & <-). exists r. split; [done|]. by apply filter_elem_of.
Qed.

Lemma touch_last_used_columns (now : Z) (key_hash : string) (t : key_table) :
  (fun r => (ak_id r, ak_key_hash r, ak_key_name r, ak_created_at r, ak_is_active r))
    <$> api_keys (touch_last_used now key_hash t)
  = (fun r => (ak_id r, ak_key_hash r, ak_key_name r, ak_created_at r, ak_is_active r))
    <$> api_keys t.
Proof.
  unfold touch_last_used. simpl. rewrite <- list_fmap_compose.
  apply list_fmap_ext. intros i r _. simpl.
  by destruct (String.eqb (ak_key_hash r) key_hash).
Qed.

Lemma touch_last_used_lookup (now : Z) (key_hash : string) (t : key_table) (r' : api_key_row) :
  r' ∈ api_keys (touch_last_used now key_hash t) ->
  (ak_key_hash r' = key_hash /\ ak_last_used r' = Some now) \/
  (ak_key_hash r' <> key_hash /\ r' ∈ api_keys t).
Proof.
  unfold touch_last_used. simpl. intros (r & -> & Hr)%list_elem_of_fmap.
  destruct (String.eqb_spec (ak_key_hash r) key_hash) as [Heq|Hne]; [by left|by right].
Qed.

(** X13.  Inside a request [validate_api_key] never raises.  It accepts a key
    exactly when the hash of some active row checks against it, so a key
    whose rows are all inactive is refused.  A refusal leaves the table as it
    was; an acceptance changes nothing but [last_used], which becomes the
    current time on the rows with the accepted hash and stays on all
    others. *)
Theorem validate_api_key_active_only (now : Z) (api_key : string) (t : key_table) :
  exists accepted t',
    validate_api_key true now api_key t = (Ok accepted, t') /\
    (accepted = true <->
     exists r, r ∈ api_keys t /\ ak_is_active r = true /\
               check_password_hash (ak_key_hash r) api_key = true) /\
    (accepted = false -> t' = t) /\
    (fun r => (ak_id r, ak_key_hash r, ak_key_name r, ak_created_at r, ak_is_active r))
      <$> api_keys t'
    = (fun r => (ak_id r, ak_key_hash r, ak_key_name r, ak_created_at r, ak_is_active r))
      <$> api_keys t /\
    api_keys_seq t' = api_keys_seq t /\
    (forall r', r' ∈ api_keys t' ->
       (check_password_hash (ak_key_hash r') api_key = true /\ ak_last_used r' = Some now) \/
       r' ∈ api_keys t).
Proof.
  unfold validate_api_key. simpl.
  destruct (first_valid_hash api_key _) as [h|] eqn:Hfirst.
  - exists true, (touch_last_used now h t). split; [done|].
    apply first_valid_hash_some in Hfirst as [Hin Hcheck].
    apply active_hashes_elem_of in Hin as (r & Hr & Hactive & Hhash).
    split; [|split; [done|]].
    { split; [|done]. intros _. exists r. by rewrite Hhash. }
    split; [apply touch_last_used_columns|]. split; [done|].
    intros r' Hr'. apply touch_last_used_lookup in Hr' as [[Hh Hused]|[_ Hold]].
    + left. by rewrite Hh.
    + by right.
  - exists false, t. split; [done|]. split; [|by repeat split; try right].
    split; [done|]. intros (r & Hr & Hactive & Hcheck).
    rewrite first_valid_hash_none in Hfirst.
    rewrite Hfirst in Hcheck; [done|].
    apply active_hashes_elem_of. by exists r.
Qed.

(** An active row that checks makes the loop stop on some hash. *)
Lemma validate_api_key_accepts (now : Z) (api_key : string) (t : key_table) (r : api_key_row) :
  r ∈ api_keys t -> ak_is_active r = true ->
  check_password_hash (ak_key_hash r) api_key = true ->
  exists h, validate_api_key true now api_key t = (Ok true, touch_last_used now h t).
Proof.
  intros Hr Hactive Hcheck. unfold validate_api_key. simpl.
  destruct (first_valid_hash api_key _) as [h|] eqn:Hfirst; [by exists h|].
  rewrite first_valid_hash_none in Hfirst.
  rewrite Hfirst in Hcheck; [done|].
  apply active_hashes_elem_of. by exists r.
Qed.

Lemma validate_api_key_refuses (now : Z) (api_key : string) (t : key_table) :
  (forall r, r ∈ api_keys t -> ak_is_active r = true ->
             check_password_hash (ak_key_hash r) api_key = false) ->
  validate_api_key true now api_key t = (Ok false, t).
Proof.
  intros Hnone. unfold validate_api_key. simpl.
  destruct (first_valid_hash api_key _) as [h|] eqn:Hfirst; [|done].
  apply first_valid_hash_some in Hfirst as [Hin Hcheck].
  apply active_hashes_elem_of in Hin as (r & Hr & Hactive & <-).
  by rewrite Hnone in Hcheck.
Qed.

End ApiKeys.

(** X14.  When [check_password_hash] accepts what [generate_password_hash]
    produces: inside an application context and with a hash that is not in
    the table yet, [create_api_key] returns the key "pm_" + token, adds one
    active row with the next id, and [validate_api_key] accepts the returned
    key from then on.  With a hash that is already in the table it raises
    IntegrityError, and outside an application context RuntimeError, in both
    cases leaving the table as it was. *)
Theorem create_api_key_then_validate
    (generate_password_hash : string -> string -> string)
    (check_password_hash : string -> string -> bool)
    (token salt key_name : string) (now now' : Z) (t : key_table) :
  (forall password s, check_password_hash (generate_password_hash password s) password = true) ->
  let api_key := "pm_" +:+ token in
  let key_hash := generate_password_hash api_key salt in
  ((forall r, r ∈ api_keys t -> ak_key_hash r <> key_hash) ->
   exists t1 h,
     create_api_key generate_password_hash true token salt now key_name t = (Ok api_key, t1) /\
     api_keys t1 = api_keys t ++
                   [ {| ak_id := api_keys_seq t + 1; ak_key_hash := key_hash;
                        ak_key_name := key_name; ak_created_at := now;
                        ak_last_used := None; ak_is_active := true |} ] /\
     validate_api_key check_password_hash true now' api_key t1
       = (Ok true, touch_last_used now' h t1)) /\
  ((exists r, r ∈ api_keys t /\ ak_key_hash r = key_hash) ->
   create_api_key generate_password_hash true token salt now key_name t
     = (Raise (Exn "IntegrityError" "UNIQUE constraint failed: api_keys.key_hash"), t)) /\
  create_api_key generate_password_hash false token salt now key_name t
    = (Raise (Exn "RuntimeError" "Working outside of application context."), t).
Proof.
  intros Hhash api_key key_hash. split; [|split; [|done]].
  - intros Hfresh. unfold create_api_key. simpl. fold api_key. fold key_hash.
    assert (existsb (fun r => String.eqb (ak_key_hash r) key_hash) (api_keys t) = false) as ->.
    { apply not_true_is_false. intros (r & Hr & Heq)%existsb_exists.
      apply String.eqb_eq in Heq. apply list_elem_of_In in Hr. by apply (Hfresh r). }
    eexists. 
    destruct (validate_api_key_accepts check_password_hash now' api_key
                {| api_keys := api_keys t ++
                     [ {| ak_id := api_keys_seq t + 1; ak_key_hash := key_hash;
                          ak_key_name := key_name; ak_created_at := now;
                          ak_last_used := None; ak_is_active := true |} ];
                   api_keys_seq := api_keys_seq t + 1 |}
                {| ak_id := api_keys_seq t + 1; ak_key_hash := key_hash;
                   ak_key_name := key_name; ak_created_at := now;
                   ak_last_used := None; ak_is_active := true |}) as [h Hvalid].
    + simpl. apply elem_of_app. right. by left.
    + done.
    + simpl. apply Hhash.
    + exists h. by rewrite Hvalid.
  - intros (r & Hr & Heq). unfold create_api_key. simpl. fold api_key. fold key_hash.
    assert (existsb (fun r => String.eqb (ak_key_hash r) key_hash) (api_keys t) = true) as ->.
    { apply existsb_exists. exists r. split; [by apply list_elem_of_In|].
      by apply String.eqb_eq. }
    done.
Qed.

(** Hashing for the examples: the hash is a method tag, a dollar sign and the
    password; checking compares the part after the first dollar sign. *)
Fixpoint after_dollar (s : string) : string :=
  match s with
  | EmptyString => EmptyString
  | String c s' => if Ascii.eqb c "$" then s' else after_dollar s'
  end.

Definition salted_hash (password salt : string) : string :=
  "plain" +:+ "$" +:+ password.

Definition salted_check (pwhash password : string) : bool :=
  String.eqb (after_dollar pwhash) password.

Lemma salted_check_hash (password salt : string) :
  salted_check (salted_hash password salt) password = true.
Proof. unfold salted_check, salted_hash. simpl. apply String.eqb_refl. Qed.

Lemma create_api_key_then_validate_witness :
  let api_key := "pm_" +:+ "token" in
  let key_hash := salted_hash api_key "salt" in
  ((forall r, r ∈ api_keys empty_key_table -> ak_key_hash r <> key_hash) ->
   exists t1 h,
     create_api_key salted_hash true "token" "salt" 1736935200 "initial_key" empty_key_table
       = (Ok api_key, t1) /\
     api_keys t1 = api_keys empty_key_table ++
                   [ {| ak_id := api_keys_seq empty_key_table + 1; ak_key_hash := key_hash;
                        ak_key_name := "initial_key"; ak_created_at := 1736935200;
                        ak_last_used := None; ak_is_active := true |} ] /\
     validate_api_key salted_check true 1736935260 api_key t1
       = (Ok true, touch_last_used 1736935260 h t1)) /\
  ((exists r, r ∈ api_keys empty_key_table /\ ak_key_hash r = key_hash) ->
   create_api_key salted_hash true "token" "salt" 1736935200 "initial_key" empty_key_table
     = (Raise (Exn "IntegrityError" "UNIQUE constraint failed: api_keys.key_hash"),
        empty_key_table)) /\
  create_api_key salted_hash false "token" "salt" 1736935200 "initial_key" empty_key_table
    = (Raise (Exn "RuntimeError" "Working outside of application context."), empty_key_table).
Proof.
  apply (create_api_key_then_validate salted_hash salted_check "token" "salt" "initial_key"
           1736935200 1736935260 empty_key_table).
  apply salted_check_hash.
Defined.

(** X15.  A request without an X-API-Key header, with an empty one, or with a
    key that no active row accepts never reaches the route: the reply is
    status 401 with "API key required" or "Invalid API key", the key table is
    left as it was, and the only write is one WARNING record
    AUTHENTICATION_ERROR under the route's name and without an owner key. *)
Theorem require_api_key_refuses {T} (check_password_hash : string -> string -> bool)
    (now : Z) (env : log_env) (header : option string) (f_name : string)
    (f : string -> M T) (s : server) :
  (forall k, header = Some k -> k <> "" ->
     forall r, r ∈ api_keys (srv_keys s) -> ak_is_active r = true ->
               check_password_hash (ak_key_hash r) k = false) ->
  let message := match header with Some (String _ _) => "Invalid API key"
                                 | _ => "Missing API key" end in
  let reply := match header with Some (String _ _) => "Invalid API key"
                               | _ => "API key required" end in
  require_api_key check_password_hash now env header f_name f s
  = (Ok (inl (reply, 401)),
     {| srv_monitor :=
          {| db := save_error (le_created_at env)
                     (logged_error env "AUTHENTICATION_ERROR" message f_name "WARNING" None)
                     (db (srv_monitor s));
             thresholds := thresholds (srv_monitor s) |};
        srv_keys := srv_keys s |}).
Proof.
  intros Hnone message reply. subst message reply. unfold require_api_key.
  destruct header as [[|c k]|]; simpl.
  - by rewrite log_error_run.
  - rewrite (validate_api_key_refuses check_password_hash now (String c k) (srv_keys s))
      by (by apply Hnone).
    by rewrite log_error_run.
  - by rewrite log_error_run.
Qed.

(** X16.  A request whose key some active row accepts reaches the route
    exactly once: the route runs on the monitor as it was, with the header's
    key as its owner key, and its result or exception is the request's; the
    gate logs nothing and only stamps [last_used]. *)
Theorem require_api_key_accepts {T} (check_password_hash : string -> string -> bool)
    (now : Z) (env : log_env) (api_key : string) (f_name : string)
    (f : string -> M T) (s : server) (r : api_key_row) :
  api_key <> "" ->
  r ∈ api_keys (srv_keys s) -> ak_is_active r = true ->
  check_password_hash (ak_key_hash r) api_key = true ->
  exists h,
    require_api_key check_password_hash now env (Some api_key) f_name f s
    = (match fst (f api_key (srv_monitor s)) with
       | Ok a => Ok (inr a)
       | Raise e => Raise e
       end,
       {| srv_monitor := snd (f api_key (srv_monitor s));
          srv_keys := touch_last_used now h (srv_keys s) |}).
Proof.
  intros Hkey%str_truthy_iff Hr Hactive Hcheck.
  destruct (validate_api_key_accepts check_password_hash now api_key (srv_keys s) r)
    as [h Hvalid]; [done..|].
  exists h. unfold require_api_key. rewrite Hkey. cbn [negb]. rewrite Hvalid.
  by destruct (f api_key (srv_monitor s)) as [[a|e] st'].
Qed.

(** A server with one active and one deactivated key. *)
Definition server_two_keys : server :=
  {| srv_monitor := initial_state;
     srv_keys :=
       {| api_keys :=
            [ {| ak_id := 1; ak_key_hash := salted_hash "pm_alpha" "salt";
                 ak_key_name := "alpha"; ak_created_at := 1736935200;
                 ak_last_used := None; ak_is_active := true |};
              {| ak_id := 2; ak_key_hash := salted_hash "pm_beta" "salt";
                 ak_key_name := "beta"; ak_created_at := 1736935201;
                 ak_last_used := None; ak_is_active := false |} ];
          api_keys_seq := 2 |} |}.

(** The route [GET /api/thresholds]'s body, as a route that needs the key. *)
Definition route_thresholds (api_key : string) : M (gmap string json_value) := get_thresholds.

Lemma require_api_key_refuses_witness :
  require_api_key salted_check 1736935300 (log_env_on psutil_idle) (Some "pm_beta")
    "manage_thresholds" route_thresholds server_two_keys
  = (Ok (inl ("Invalid API key", 401)),
     {| srv_monitor :=
          {| db := save_error (le_created_at (log_env_on psutil_idle))
                     (logged_error (log_env_on psutil_idle) "AUTHENTICATION_ERROR"
                        "Invalid API key" "manage_thresholds" "WARNING" None)
                     (db (srv_monitor server_two_keys));
             thresholds := thresholds (srv_monitor server_two_keys) |};
        srv_keys := srv_keys server_two_keys |}).
Proof.
  apply (require_api_key_refuses salted_check 1736935300 (log_env_on psutil_idle)
           (Some "pm_beta") "manage_thresholds" route_thresholds server_two_keys).
  intros k [= <-] _ r Hr Hactive.
  repeat (apply elem_of_cons in Hr as [->|Hr]); [reflexivity|discriminate|].
  by apply elem_of_nil in Hr.
Defined.

Lemma require_api_key_accepts_witness :
  exists h,
    require_api_key salted_check 1736935300 (log_env_on psutil_idle) (Some "pm_alpha")
      "manage_thresholds" route_thresholds server_two_keys
    = (match fst (route_thresholds "pm_alpha" (srv_monitor server_two_keys)) with
       | Ok a => Ok (inr a)
       | Raise e => Raise e
       end,
       {| srv_monitor := snd (route_thresholds "pm_alpha" (srv_monitor server_two_keys));
          srv_keys := touch_last_used 1736935300 h (srv_keys server_two_keys) |}).
Proof.
  apply (require_api_key_accepts salted_check 1736935300 (log_env_on psutil_idle) "pm_alpha"
           "manage_thresholds" route_thresholds server_two_keys
           {| ak_id := 1; ak_key_hash := salted_hash "pm_alpha" "salt";
              ak_key_name := "alpha"; ak_created_at := 1736935200;
              ak_last_used := None; ak_is_active := true |}).
  - discriminate.
  - by left.
  - reflexivity.
  - reflexivity.
Defined.

(** * The client's [MonitoringStats] (src/python_client.py) *)

(** A dict of the API's JSON.  The API gives each key one kind of value
    (cpu_usage a number, error_type a string), so a dict is modelled by its
    number entries and its text entries; a dict that holds another kind of
    value under such a key is outside the model. *)
Record json_dict := {
  jd_num : gmap string Q;
  jd_text : gmap string string
}.

(** [d.get(k, 0)] on a number entry. *)
Definition json_get (d : json_dict) (k : string) : Q := default 0%Q (jd_num d !! k).

(** [d[k]] on a number entry. *)
Definition json_item (d : json_dict) (k : string) : result Q :=
  match jd_num d !! k with
  | Some v => Ok v
  | None => Raise (Exn "KeyError" ("'" +:+ k +:+ "'"))
  end.

(** ** [calculate_averages] *)

(** [totals[k] += x] on a key that is there. *)
Definition totals_add (k : string) (x : Q) (totals : gmap string Q) : gmap string Q :=
  alter (fun v => (v + x)%Q) k totals.

Definition averages_step (totals : gmap string Q) (metric : json_dict) : gmap string Q :=
  totals_add "execution_time" (json_get metric "execution_time")
    (totals_add "disk_usage" (json_get metric "disk_usage")
      (totals_add "memory_usage" (json_get metric "memory_usage")
        (totals_add "cpu_usage" (json_get metric "cpu_usage") totals))).

Definition averages_totals (a b c d : Q) : gmap string Q :=
  <["cpu_usage" := a]> (<["memory_usage" := b]> (<["disk_usage" := c]>
    (<["execution_time" := d]> ∅))).

Definition calculate_averages (metrics : list json_dict) : gmap string Q :=
  match metrics with
  | [] => ∅
  | _ =>
      let totals := foldl averages_step (averages_totals 0 0 0 0) metrics in
      let count := inject_Z (Z.of_nat (length metrics)) in
      (fun value => (value / count)%Q) <$> totals
  end.

(** The keys of the result. *)
Definition average_keys : list string :=
  ["cpu_usage"; "memory_usage"; "disk_usage"; "execution_time"].

(** The sum the loop accumulates for one key. *)
Definition json_sum (k : string) (metrics : list json_dict) : Q :=
  foldl (fun acc metric => (acc + json_get metric k)%Q) 0%Q metrics.

Lemma averages_step_totals (a b c d : Q) (metric : json_dict) :
  averages_step (averages_totals a b c d) metric
  = averages_totals (a + json_get metric "cpu_usage") (b + json_get metric "memory_usage")
      (c + json_get metric "disk_usage") (d + json_get metric "execution_time").
Proof. reflexivity. Qed.

Lemma averages_fold (metrics : list json_dict) (a b c d : Q) :
  foldl averages_step (averages_totals a b c d) metrics
  = averages_totals
      (foldl (fun acc metric => (acc + json_get metric "cpu_usage")%Q) a metrics)
      (foldl (fun acc metric => (acc + json_get metric "memory_usage")%Q) b metrics)
      (foldl (fun acc metric => (acc + json_get metric "disk_usage")%Q) c metrics)
      (foldl (fun acc metric => (acc + json_get metric "execution_time")%Q) d metrics).
Proof.
  revert a b c d. induction metrics as [|m metrics IH]; intros a b c d; [done|].
  cbn [foldl]. rewrite averages_step_totals. apply IH.
Qed.

Lemma averages_totals_lookup (a b c d : Q) (k : string) :
  k ∈ average_keys ->
  averages_totals a b c d !! k
  = Some (if String.eqb k "cpu_usage" then a
          else if String.eqb k "memory_usage" then b
          else if String.eqb k "disk_usage" then c else d).
Proof.
  unfold average_keys. intros Hk.
  repeat (apply elem_of_cons in Hk as [->|Hk]); [reflexivity..|].
  by apply elem_of_nil in Hk.
Qed.

Lemma calculate_averages_lookup (m : json_dict) (metrics : list json_dict) (k : string) :
  k ∈ average_keys ->
  calculate_averages (m :: metrics) !! k
  = Some (json_sum k (m :: metrics) / inject_Z (Z.of_nat (length (m :: metrics))))%Q.
Proof.
  intros Hk. unfold calculate_averages. rewrite lookup_fmap, averages_fold.
  rewrite averages_totals_lookup by done. unfold json_sum, average_keys in *.
  repeat (apply elem_of_cons in Hk as [->|Hk]); [reflexivity..|].
  by apply elem_of_nil in Hk.
Qed.

(** X17.  [calculate_averages] of an empty list is the empty dict.  Of a
    non-empty list it has exactly the four keys cpu_usage, memory_usage,
    disk_usage and execution_time, whatever entries the metrics have: each
    holds the sum of that entry over the metrics, a metric without the entry
    counting as 0, divided by the number of metrics (numbers are rationals
    here, as in the rest of the model; rounding is not modelled). *)
Theorem calculate_averages_keys_and_means (metrics : list json_dict) (k : string) :
  calculate_averages [] = ∅ /\
  (metrics <> [] ->
   calculate_averages metrics !! k
   = if bool_decide (k ∈ average_keys)
     then Some (json_sum k metrics / inject_Z (Z.of_nat (length metrics)))%Q
     else None).
Proof.
  split; [done|]. intros Hne. destruct metrics as [|m metrics]; [done|].
  case_bool_decide as Hk.
  - by apply calculate_averages_lookup.
  - unfold calculate_averages. rewrite lookup_fmap, averages_fold.
    unfold averages_totals, average_keys in *.
    rewrite !not_elem_of_cons in Hk. destruct Hk as (? & ? & ? & ? & _).
    by rewrite !lookup_insert_ne, lookup_empty by done.
Qed.

(** ** [find_peak_usage] *)

(** An entry of [peak]: ['value'], ['timestamp'], and ['function'] when the
    key is there. *)
Record peak_entry := {
  pk_value : Q;
  pk_timestamp : option string;
  pk_function : option (option string)
}.

(** [{'value': 0, 'timestamp': None}] *)
Definition peak_start : peak_entry :=
  {| pk_value := 0%Q; pk_timestamp := None; pk_function := None |}.

(** [peak[k]] *)
Definition peak_item (peak : gmap string peak_entry) (k : string) : result peak_entry :=
  match peak !! k with
  | Some e => Ok e
  | None => Raise (Exn "KeyError" ("'" +:+ k +:+ "'"))
  end.

(** One of the three [if] statements of the loop body. *)
Definition peak_update (k field : string) (metric : json_dict)
    (peak : gmap string peak_entry) : result (gmap string peak_entry) :=
  do current <- peak_item peak k;
  if Qlt_bool (pk_value current) (json_get metric field)
  then do value <- json_item metric field;
       Ok (<[k := {| pk_value := value;
                     pk_timestamp := jd_text metric !! "timestamp";
                     pk_function := Some (jd_text metric !! "function_name") |}]> peak)
  else Ok peak.

Definition peak_step (peak : gmap string peak_entry) (metric : json_dict)
  : result (gmap string peak_entry) :=
  do peak1 <- peak_update "cpu" "cpu_usage" metric peak;
  do peak2 <- peak_update "memory" "memory_usage" metric peak1;
  peak_update "execution_time" "execution_time" metric peak2.

Fixpoint peak_loop (metrics : list json_dict) (peak : gmap string peak_entry)
  : result (gmap string peak_entry) :=
  match metrics with
  | [] => Ok peak
  | metric :: metrics' => do peak' <- peak_step peak metric; peak_loop metrics' peak'
  end.

Definition peaks (cpu memory execution_time : peak_entry) : gmap string peak_entry :=
  <["cpu" := cpu]> (<["memory" := memory]> (<["execution_time" := execution_time]> ∅)).

Definition find_peak_usage (metrics : list json_dict) : result (gmap string peak_entry) :=
  match metrics with
  | [] => Ok ∅
  | _ => peak_loop metrics (peaks peak_start peak_start peak_start)
  end.

(** The keys of [peak] with the entry of a metric each one follows. *)
Definition peak_fields : list (string * string) :=
  [ ("cpu", "cpu_usage"); ("memory", "memory_usage"); ("execution_time", "execution_time") ].

(** The entry a metric leaves when it sets a new peak. *)
Definition peak_of (field : string) (metric : json_dict) : peak_entry :=
  {| pk_value := json_get metric field;
     pk_timestamp := jd_text metric !! "timestamp";
     pk_function := Some (jd_text metric !! "function_name") |}.

(** The loop, one key at a time. *)
Fixpoint peak_scan (field : string) (metrics : list json_dict) (current : peak_entry)
  : peak_entry :=
  match metrics with
  | [] => current
  | metric :: metrics' =>
      peak_scan field metrics'
        (if Qlt_bool (pk_value current) (json_get metric field)
         then peak_of field metric else current)
  end.

Lemma json_item_positive (metric : json_dict) (field : string) (bound : Q) :
  (0 <= bound)%Q -> Qlt_bool bound (json_get metric field) = true ->
  json_item metric field = Ok (json_get metric field).
Proof.
  intros Hbound Hlt. unfold json_item, json_get in *.
  destruct (jd_num metric !! field) as [v|]; [done|].
  simpl in Hlt. apply Qlt_bool_iff in Hlt. exfalso. exact (Qlt_not_le _ _ Hlt Hbound).
Qed.

(** What one metric makes of the current entry. *)
Definition peak_next (field : string) (metric : json_dict) (current : peak_entry)
  : peak_entry :=
  if Qlt_bool (pk_value current) (json_get metric field)
  then peak_of field metric else current.

Lemma peak_next_nonneg (field : string) (metric : json_dict) (current : peak_entry) :
  (0 <= pk_value current)%Q -> (0 <= pk_value (peak_next field metric current))%Q.
Proof.
  intros Hcur. unfold peak_next. destruct (Qlt_bool _ _) eqn:Hlt; [|done].
  apply Qlt_bool_iff in Hlt. simpl. apply Qlt_le_weak. by eapply Qle_lt_trans.
Qed.

Lemma peak_update_cpu (a b c : peak_entry) (metric : json_dict) :
  (0 <= pk_value a)%Q ->
  peak_update "cpu" "cpu_usage" metric (peaks a b c)
  = Ok (peaks (peak_next "cpu_usage" metric a) b c).
Proof.
  intros Ha. unfold peak_update, peak_item, peak_next.
  change (peaks a b c !! "cpu") with (Some a). cbn [result_bind].
  destruct (Qlt_bool (pk_value a) _) eqn:Hlt; [|reflexivity].
  by rewrite (json_item_positive _ _ _ Ha Hlt).
Qed.

Lemma peak_update_memory (a b c : peak_entry) (metric : json_dict) :
  (0 <= pk_value b)%Q ->
  peak_update "memory" "memory_usage" metric (peaks a b c)
  = Ok (peaks a (peak_next "memory_usage" metric b) c).
Proof.
  intros Hb. unfold peak_update, peak_item, peak_next.
  change (peaks a b c !! "memory") with (Some b). cbn [result_bind].
  destruct (Qlt_bool (pk_value b) _) eqn:Hlt; [|reflexivity].
  by rewrite (json_item_positive _ _ _ Hb Hlt).
Qed.

Lemma peak_update_execution_time (a b c : peak_entry) (metric : json_dict) :
  (0 <= pk_value c)%Q ->
  peak_update "execution_time" "execution_time" metric (peaks a b c)
  = Ok (peaks a b (peak_next "execution_time" metric c)).
Proof.
  intros Hc. unfold peak_update, peak_item, peak_next.
  change (peaks a b c !! "execution_time") with (Some c). cbn [result_bind].
  destruct (Qlt_bool (pk_value c) _) eqn:Hlt; [|reflexivity].
  by rewrite (json_item_positive _ _ _ Hc Hlt).
Qed.

Lemma peak_step_run (a b c : peak_entry) (metric : json_dict) :
  (0 <= pk_value a)%Q -> (0 <= pk_value b)%Q -> (0 <= pk_value c)%Q ->
  peak_step (peaks a b c) metric
  = Ok (peaks (peak_next "cpu_usage" metric a) (peak_next "memory_usage" metric b)
          (peak_next "execution_time" metric c)).
Proof.
  intros Ha Hb Hc. unfold peak_step.
  rewrite peak_update_cpu by done. cbn [result_bind].
  rewrite peak_update_memory by done. cbn [result_bind].
  by rewrite peak_update_execution_time.
Qed.

Lemma peak_scan_unfold (field : string) (metric : json_dict) (metrics : list json_dict)
    (current : peak_entry) :
  peak_scan field (metric :: metrics) current
  = peak_scan field metrics (peak_next field metric current).
Proof. reflexivity. Qed.

(** The loop never raises, and fills each key independently of the others. *)
Lemma peak_loop_run (metrics : list json_dict) (a b c : peak_entry) :
  (0 <= pk_value a)%Q -> (0 <= pk_value b)%Q -> (0 <= pk_value c)%Q ->
  peak_loop metrics (peaks a b c)
  = Ok (peaks (peak_scan "cpu_usage" metrics a) (peak_scan "memory_usage" metrics b)
          (peak_scan "execution_time" metrics c)).
Proof.
  revert a b c. induction metrics as [|m metrics IH]; intros a b c Ha Hb Hc; [done|].
  cbn [peak_loop]. rewrite peak_step_run by done. cbn [result_bind].
  rewrite IH by (by apply peak_next_nonneg). by rewrite !peak_scan_unfold.
Qed.

(** What the scan of one key arrives at: the entry it started from, when no
    metric is above it, and otherwise the entry of the first metric that
    attains the largest value. *)
Lemma peak_scan_first_maximum (field : string) (metrics : list json_dict)
    (current : peak_entry) :
  (peak_scan field metrics current = current /\
   Forall (fun m => (json_get m field <= pk_value current)%Q) metrics) \/
  (exists before m after,
     metrics = before ++ m :: after /\
     peak_scan field metrics current = peak_of field m /\
     (pk_value current < json_get m field)%Q /\
     Forall (fun x => (json_get x field < json_get m field)%Q) before /\
     Forall (fun x => (json_get x field <= json_get m field)%Q) after).
Proof.
  revert current. induction metrics as [|m metrics IH]; intros current.
  { left. by split. }
  rewrite peak_scan_unfold. unfold peak_next.
  destruct (Qlt_bool (pk_value current) (json_get m field)) eqn:Hlt.
  - apply Qlt_bool_iff in Hlt. right.
    destruct (IH (peak_of field m)) as [[Hsame Hall]|(before & m' & after & -> & Hscan & Hgt & Hb & Ha)].
    + exists [], m, metrics. by repeat split.
    + exists (m :: before), m', after. simpl in Hgt. repeat split; try done.
      * by eapply Qlt_trans.
      * by constructor.
  - apply Qlt_bool_false_iff in Hlt.
    destruct (IH current) as [[Hsame Hall]|(before & m' & after & -> & Hscan & Hgt & Hb & Ha)].
    + left. split; [done|]. by constructor.
    + right. exists (m :: before), m', after. repeat split; try done.
      constructor; [|done]. by eapply Qle_lt_trans.
Qed.

(** X18.  [find_peak_usage] never raises, whatever entries the metrics lack.
    Of an empty list it returns the empty dict.  Of a non-empty list it
    returns an entry for each of cpu, memory and execution_time: when no
    metric has a positive value the entry is the initial one (value 0, no
    timestamp, no function key); otherwise it carries the value, timestamp
    and function name of the first metric that attains the largest value.
    In both cases the value is at least 0 and at least every metric's
    value. *)
Theorem find_peak_usage_first_maximum (metrics : list json_dict) (k field : string) :
  find_peak_usage [] = Ok ∅ /\
  (metrics <> [] -> (k, field) ∈ peak_fields ->
   exists peak entry,
     find_peak_usage metrics = Ok peak /\
     peak !! k = Some entry /\
     (0 <= pk_value entry)%Q /\
     Forall (fun m => (json_get m field <= pk_value entry)%Q) metrics /\
     ((entry = peak_start /\ Forall (fun m => (json_get m field <= 0)%Q) metrics) \/
      (exists before m after,
         metrics = before ++ m :: after /\
         entry = peak_of field m /\
         (0 < json_get m field)%Q /\
         Forall (fun x => (json_get x field < json_get m field)%Q) before /\
         Forall (fun x => (json_get x field <= json_get m field)%Q) after))).
Proof.
  split; [done|]. intros Hne Hk.
  assert (Hrun : find_peak_usage metrics
                 = Ok (peaks (peak_scan "cpu_usage" metrics peak_start)
                         (peak_scan "memory_usage" metrics peak_start)
                         (peak_scan "execution_time" metrics peak_start))).
  { destruct metrics as [|m metrics]; [done|]. unfold find_peak_usage.
    by apply peak_loop_run. }
  exists (peaks (peak_scan "cpu_usage" metrics peak_start)
            (peak_scan "memory_usage" metrics peak_start)
            (peak_scan "execution_time" metrics peak_start)),
         (peak_scan field metrics peak_start).
  split; [done|]. split.
  { unfold peak_fields in Hk.
    repeat (apply elem_of_cons in Hk as [[= -> ->]|Hk]); [reflexivity..|].
    by apply elem_of_nil in Hk. }
  destruct (peak_scan_first_maximum field metrics peak_start)
    as [[Hsame Hall]|(before & m & after & Hsplit & Hscan & Hgt & Hb & Ha)].
  - rewrite Hsame. split; [done|]. split; [done|]. by left.
  - rewrite Hscan. simpl in Hgt. split; [by apply Qlt_le_weak|]. split.
    + rewrite Hsplit. apply Forall_app. split; [|constructor; [apply Qle_refl|done]].
      eapply Forall_impl; [exact Hb|]. intros x Hx. by apply Qlt_le_weak.
    + right. by exists before, m, after.
Qed.

(** ** [count_errors_by_type] *)

(** [error.get('error_type', 'UNKNOWN')] *)
Definition error_type_of (error : json_dict) : string :=
  default "UNKNOWN" (jd_text error !! "error_type").

Definition count_step (counts : gmap string Z) (error : json_dict) : gmap string Z :=
  let error_type := error_type_of error in
  <[error_type := default 0 (counts !! error_type) + 1]> counts.

Definition count_errors_by_type (errors : list json_dict) : gmap string Z :=
  foldl count_step ∅ errors.

(** How many of the errors have the type [t]. *)
Definition errors_of_type (t : string) (errors : list json_dict) : Z :=
  Z.of_nat (length (List.filter (fun error => String.eqb (error_type_of error) t) errors)).

(** The sum of the counts. *)
Definition counts_total (counts : gmap string Z) : Z :=
  map_fold (fun _ n total => n + total) 0 counts.

Lemma count_fold_lookup (errors : list json_dict) (counts : gmap string Z) (t : string) :
  default 0 (foldl count_step counts errors !! t)
  = default 0 (counts !! t) + errors_of_type t errors.
Proof.
  revert counts. induction errors as [|e errors IH]; intros counts.
  - unfold errors_of_type. simpl. lia.
  - cbn [foldl]. rewrite IH. unfold count_step, errors_of_type. cbn [List.filter].
    destruct (String.eqb_spec (error_type_of e) t) as [->|Hne].
    + rewrite lookup_insert_eq. cbn [length default from_option id]. lia.
    + rewrite lookup_insert_ne by done. lia.
Qed.

Lemma count_fold_positive (errors : list json_dict) (counts : gmap string Z) (t : string) (n : Z) :
  map_Forall (fun _ v => 0 < v) counts ->
  foldl count_step counts errors !! t = Some n -> 0 < n.
Proof.
  revert counts. induction errors as [|e errors IH]; intros counts Hpos.
  - apply Hpos.
  - cbn [foldl]. apply IH. unfold count_step.
    apply map_Forall_insert_2; [|done].
    destruct (counts !! error_type_of e) as [v|] eqn:Hv; simpl; [|lia].
    specialize (Hpos _ _ Hv). simpl in Hpos. lia.
Qed.

Lemma counts_total_insert (counts : gmap string Z) (t : string) (n : Z) :
  counts_total (<[t := n]> counts) = counts_total counts - default 0 (counts !! t) + n.
Proof.
  unfold counts_total.
  destruct (counts !! t) as [v|] eqn:Hv; simpl.
  - rewrite <- insert_delete_eq.
    rewrite map_fold_insert_L; [|intros; lia|by rewrite lookup_delete_eq].
    rewrite (map_fold_delete_L _ _ t v counts); [lia|intros; lia|done].
  - rewrite map_fold_insert_L; [lia|intros; lia|done].
Qed.

Lemma count_fold_total (errors : list json_dict) (counts : gmap string Z) :
  counts_total (foldl count_step counts errors)
  = counts_total counts + Z.of_nat (length errors).
Proof.
  revert counts. induction errors as [|e errors IH]; intros counts.
  - simpl. lia.
  - cbn [foldl length]. rewrite IH. unfold count_step.
    rewrite counts_total_insert. lia.
Qed.

(** X19.  [count_errors_by_type] maps a type to the number of errors of that
    type, an error without the entry counting under "UNKNOWN"; a type that
    does not occur is not a key, so every count is at least 1; and the counts
    add up to the number of errors. *)
Theorem count_errors_by_type_counts (errors : list json_dict) (t : string) :
  count_errors_by_type errors !! t
    = (if errors_of_type t errors =? 0 then None else Some (errors_of_type t errors)) /\
  counts_total (count_errors_by_type errors) = Z.of_nat (length errors).
Proof.
  unfold count_errors_by_type. split.
  - pose proof (count_fold_lookup errors ∅ t) as Hcount.
    rewrite lookup_empty in Hcount. simpl in Hcount.
    destruct (foldl count_step ∅ errors !! t) as [n|] eqn:Hn; simpl in Hcount.
    + assert (0 < n) by (eapply (count_fold_positive errors ∅); [|done]; by intros ? ? ?).
      subst n. destruct (Z.eqb_spec (errors_of_type t errors) 0); [lia|done].
    + replace (errors_of_type t errors) with 0 by lia. done.
  - rewrite count_fold_total. unfold counts_total. by rewrite map_fold_empty.
Qed.
